(** * Explicit-bucket histogram aggregation and instrument fan-out

    A shallow embedding of
      - sdk/metric/internal/aggregate/histogram.go
      - sdk/metric/instrument.go
    of the OpenTelemetry Go SDK, together with the properties of the
    aggregation engine that are stated in its specification.

    Go values are modelled as follows.
      - [float64] is an IEEE-754 binary64 value ([spec_float] with the
        binary64 operations of the standard library), so NaN, infinities
        and signed zeros are present.
      - [int64] and [uint64] are [Z] with the wrap-around written out.
      - slices are references into a heap of arrays, so that aliasing
        between the aggregator and the data points it hands out is visible.
      - Go maps are [gmap]s; [range] visits the entries in the order of
        [map_to_list], and no property below depends on that order.
      - a panic (index out of range) is the [None] outcome of the heap
        monad [M]. *)

From stdpp Require Import gmap list strings sorting.
From Stdlib Require Import ZArith Lia.
From Stdlib.Floats Require Import SpecFloat PrimFloat FloatOps.

Set Warnings "-clear-no-such-hyp".

Local Open Scope Z_scope.

(** ** Numbers *)

(** Go's [float64]. *)
Definition float64 : Type := spec_float.

Definition float64_add (x y : float64) : float64 := SFadd 53 1024 x y.
(** [x < y], [x <= y], [x >= y] on [float64]; all are false on NaN. *)
Definition float64_lt (x y : float64) : bool := SFltb x y.
Definition float64_le (x y : float64) : bool := SFleb x y.
Definition float64_ge (x y : float64) : bool := SFleb y x.

(** math.IsNaN: [f != f]. *)
Definition isNaN (f : float64) : bool :=
  match f with S754_nan => true | _ => false end.

(** Go's [uint64]: increment wraps modulo 2^64. *)
Definition uint64 : Type := Z.
Definition uint64_incr (c : uint64) : uint64 := (c + 1) mod 2 ^ 64.
Definition uint64_add (x y : uint64) : uint64 := (x + y) mod 2 ^ 64.

(** Go's [int64]: addition wraps in two's complement. *)
Definition int64 : Type := Z.
Definition int64_wrap (z : Z) : int64 := (z + 2 ^ 63) mod 2 ^ 64 - 2 ^ 63.
Definition int64_add (x y : int64) : int64 := int64_wrap (x + y).
(** The conversion [float64(v)] of an [int64]: round to nearest even. *)
Definition int64_to_float64 (v : int64) : float64 :=
  binary_normalize 53 1024 v 0 false.

(** The type constraint [N int64 | float64] of the generic code: the
    operations the histogram uses on measured values. *)
Class Number (N : Type) := {
  zero : N;                   (* the zero value of N *)
  add : N → N → N;            (* x + y *)
  lt : N → N → bool;          (* x < y *)
  toFloat64 : N → float64;    (* float64(x) *)
}.
(** [<] is a strict partial order on both instances (on [float64], NaN is
    not comparable with anything). *)
Class NumberOrder (N : Type) `{Number N} := {
  lt_irrefl : ∀ x : N, lt x x = false;
  lt_trans : ∀ x y z : N, lt x y = true → lt y z = true → lt x z = true;
}.

(** [x > y] is [y < x] for both instances. *)
Definition gt {N} `{Number N} (x y : N) : bool := lt y x.

#[export] Instance int64_Number : Number int64 := {|
  zero := 0;
  add := int64_add;
  lt := Z.ltb;
  toFloat64 := int64_to_float64;
|}.

#[export] Instance float64_Number : Number float64 := {|
  zero := S754_zero false;
  add := float64_add;
  lt := float64_lt;
  toFloat64 := fun x => x;
|}.

(** ** Package sort (Go standard library) *)

Module sort.

(** sort.Search: binary search for the least [i] in [[0, n]] with [f i],
    assuming [f] is false on a prefix and true on the rest.

      i, j := 0, n
      for i < j {
        h := int(uint(i+j) >> 1)
        if !f(h) { i = h + 1 } else { j = h }
      }
      return i

    The loop is run with fuel; [j - i] at least halves in each iteration, so
    [n] iterations are enough. *)
Fixpoint Search_loop (fuel : nat) (f : nat → bool) (i j : nat) : nat :=
  match fuel with
  | O => i
  | S fuel' =>
      if decide (i < j)%nat then
        let h := ((i + j) / 2)%nat in
        if negb (f h) then Search_loop fuel' f (h + 1)%nat j
        else Search_loop fuel' f i h
      else i
  end.

Definition Search (n : nat) (f : nat → bool) : nat := Search_loop n f 0%nat n.

(** sort.SearchFloat64s:
      [Search(len(a), func(i int) bool { return a[i] >= x })].
    [Search] only calls the closure with [0 <= i < len(a)]
    (lemma [Search_ext] below), so the index is always in range. *)
Definition SearchFloat64s (a : list float64) (x : float64) : nat :=
  Search (length a)
    (fun i => match a !! i with Some y => float64_ge y x | None => false end).

(** Float64Slice.Less: NaN values are ordered before all others. *)
Definition Float64Slice_Less (x y : float64) : bool :=
  float64_lt x y || (isNaN x && negb (isNaN y)).

(** sort.Float64s sorts in increasing order (as defined by [Less]). A
    slice of at most 12 elements is sorted by insertion:

      func insertionSort(data Interface, a, b int) {
        for i := a + 1; i < b; i++ {
          for j := i; j > a && data.Less(j, j-1); j-- {
            data.Swap(j, j-1)
          }
        }
      }

    [sift x before] is the inner loop: the element [x] moves towards the
    front past the elements that it is [Less] than, where [before] holds
    the elements in front of [x], the nearest one first. Elements neither
    of which is [Less] than the other (such as +0 and -0) keep their
    order. *)
Fixpoint sift (x : float64) (before : list float64) : list float64 :=
  match before with
  | [] => [x]
  | y :: before' =>
      if Float64Slice_Less x y then y :: sift x before' else x :: y :: before'
  end.

Definition insertionSort (a : list float64) : list float64 :=
  reverse (foldl (fun before x => sift x before) [] a).

(** For longer slices the library switches to pattern-defeating quicksort.
    Its result is a permutation of the input that is ordered by [Less] as
    well, so it can differ from the result of [insertionSort] only in the
    order of elements neither of which is [Less] than the other; the
    properties below only use that the result is such a permutation. *)
Definition Float64s (a : list float64) : list float64 := insertionSort a.

End sort.

(** ** Memory: slices as references *)

(** A slice value is a reference to its backing array. [[]uint64] and
    [[]float64] arrays live in separate stores. Nothing is ever freed
    (Go is garbage collected), and [make] returns a reference that is not
    in use. *)
Definition loc : Type := positive.

Record heap := Heap {
  u64s : gmap loc (list uint64);
  f64s : gmap loc (list float64);
}.

(** Computations that read and write the heap and may panic ([None]). *)
Definition M (A : Type) : Type := heap → option (A * heap).

Definition ret {A} (a : A) : M A := fun h => Some (a, h).
Definition bind {A B} (m : M A) (k : A → M B) : M B :=
  fun h => match m h with Some (a, h') => k a h' | None => None end.
Definition panic {A} : M A := fun _ => None.

Declare Scope go_scope.
Delimit Scope go_scope with go.
Notation "'do' x <- m ; k" := (bind m (fun x => k))
  (at level 10, x name, m at level 100, k at level 200) : go_scope.
Notation "m ;; k" := (bind m (fun _ => k))
  (at level 100, k at level 200, right associativity) : go_scope.

Local Open Scope go_scope.

(** [for _, x := range l { acc = f(acc, x) }] with effects. *)
Fixpoint foldM {A B} (f : A → B → M A) (acc : A) (l : list B) : M A :=
  match l with
  | [] => ret acc
  | x :: l' => do acc' <- f acc x; foldM f acc' l'
  end.

(** [make([]uint64, n)]: a fresh zeroed array. *)
Definition make_u64 (n : nat) : M loc := fun h =>
  let p := fresh (dom (u64s h)) in
  Some (p, Heap (<[p := replicate n 0]> (u64s h)) (f64s h)).

(** [make([]float64, n)]. *)
Definition make_f64 (n : nat) : M loc := fun h =>
  let p := fresh (dom (f64s h)) in
  Some (p, Heap (u64s h) (<[p := replicate n (S754_zero false)]> (f64s h))).

(** The contents of a slice. A reference is never dangling in Go; the
    [None] case only exists in the model. *)
Definition load_u64 (p : loc) : M (list uint64) := fun h =>
  match u64s h !! p with Some l => Some (l, h) | None => None end.
Definition load_f64 (p : loc) : M (list float64) := fun h =>
  match f64s h !! p with Some l => Some (l, h) | None => None end.

Definition store_u64 (p : loc) (l : list uint64) : M unit := fun h =>
  Some (tt, Heap (<[p := l]> (u64s h)) (f64s h)).
Definition store_f64 (p : loc) (l : list float64) : M unit := fun h =>
  Some (tt, Heap (u64s h) (<[p := l]> (f64s h))).

(** The builtin [copy(dst, src)]: the first [min(len(dst), len(src))]
    elements of [dst] are overwritten. *)
Definition copy_list {A} (dst src : list A) : list A :=
  take (length dst) src ++ drop (length src) dst.

Definition copy_u64 (dst src : loc) : M unit :=
  do d <- load_u64 dst; do s <- load_u64 src; store_u64 dst (copy_list d s).
Definition copy_f64 (dst src : loc) : M unit :=
  do d <- load_f64 dst; do s <- load_f64 src; store_f64 dst (copy_list d s).

(** [a[idx]++] on a [[]uint64]; panics when [idx] is out of range. *)
Definition incr_u64 (p : loc) (idx : nat) : M unit :=
  do l <- load_u64 p;
  match l !! idx with
  | Some c => store_u64 p (<[idx := uint64_incr c]> l)
  | None => panic
  end.

(** ** Collaborating packages *)

(** [time.Time], as a number of clock ticks. *)
Definition Time : Type := Z.

(** Package context (Go standard library): [ctx.Err()] is nil while the
    context is live, and Canceled or DeadlineExceeded once it is done. *)
Module context.
Inductive error := Canceled | DeadlineExceeded.
Record Context := { Err : option error }.
End context.

Module aggregation.
(** Modelled from the spec: aggregation.ExplicitBucketHistogram is declared
    outside the files under verification; its two fields are the ones the
    histogram constructors read (the "Histogram Configuration": boundaries
    and whether extrema are reported). *)
Record ExplicitBucketHistogram := {
  Boundaries : loc;      (* []float64 *)
  NoMinMax : bool;
}.
End aggregation.

Module metricdata.
(** Modelled from the spec: the metricdata types are declared outside the
    files under verification. A "Collected Data Point" carries the fields
    that the two [Aggregation] methods set. *)
Inductive Temporality := CumulativeTemporality | DeltaTemporality.

(** Modelled from the spec: metricdata.Extrema is a value with a validity
    flag; [NewExtrema v] is [Some v] and the zero Extrema is [None]
    ("optional min/max"). *)
Definition Extrema (N : Type) : Type := option N.
Definition NewExtrema {N} (v : N) : Extrema N := Some v.

(** Modelled from the spec: metricdata.HistogramDataPoint, with the
    fields that the snapshots set; [Bounds] and [BucketCounts] are slices. *)
Record HistogramDataPoint (N attribute_Set : Type) := {
  Attributes : attribute_Set;
  StartTime : Time;
  Time_ : Time;            (* the field [Time] *)
  Count : uint64;
  Bounds : loc;            (* []float64 *)
  BucketCounts : loc;      (* []uint64 *)
  Min : Extrema N;
  Max : Extrema N;
  Sum : N;
}.
Arguments Attributes {N attribute_Set} _.
Arguments StartTime {N attribute_Set} _.
Arguments Time_ {N attribute_Set} _.
Arguments Count {N attribute_Set} _.
Arguments Bounds {N attribute_Set} _.
Arguments BucketCounts {N attribute_Set} _.
Arguments Min {N attribute_Set} _.
Arguments Max {N attribute_Set} _.
Arguments Sum {N attribute_Set} _.

(** Modelled from the spec: metricdata.Histogram, the collection of data
    points that a snapshot returns, with its temporality. *)
Record Histogram (N attribute_Set : Type) := {
  DataPoints : list (HistogramDataPoint N attribute_Set);
  Temporality_ : Temporality;   (* the field [Temporality] *)
}.
Arguments DataPoints {N attribute_Set} _.
Arguments Temporality_ {N attribute_Set} _.
End metricdata.

(** ** Package aggregate: histogram.go *)

Module aggregate.

Section histogram.
Context {N : Type} `{Number N}.
Context {attribute_Set : Type} `{Countable attribute_Set}.

Record buckets := Buckets {
  counts : loc;        (* []uint64 *)
  count : uint64;
  sum : N;
  min : N;
  max : N;
}.

(** newBuckets returns buckets with n bins. *)
Definition newBuckets (n : nat) : M buckets :=
  do p <- make_u64 n;
  ret (Buckets p 0 zero zero zero).

(** [(b *buckets[N]) bin(idx, value)]; the updated struct is returned. *)
Definition bin (b : buckets) (idx : nat) (value : N) : M buckets :=
  incr_u64 (counts b) idx ;;
  let count' := uint64_incr (count b) in
  let sum' := add (sum b) value in
  ret (if lt value (min b) then Buckets (counts b) count' sum' value (max b)
       else if gt value (max b) then Buckets (counts b) count' sum' (min b) value
       else Buckets (counts b) count' sum' (min b) (max b)).

(** histValues: the boundaries and the value store. The mutex [valuesMu]
    has no counterpart in this sequential model. *)
Record histValues := HistValues {
  bounds : loc;                            (* []float64 *)
  values : gmap attribute_Set buckets;     (* map[attribute.Set]*buckets[N] *)
}.

Definition newHistValues (bounds : loc) : M histValues :=
  do src <- load_f64 bounds;
  do b <- make_f64 (length src);
  copy_f64 b bounds ;;
  (do l <- load_f64 b; store_f64 b (sort.Float64s l)) ;;
  ret (HistValues b ∅).

(** Aggregate records the measurement value, scoped by attr, and aggregates
    it into a histogram. *)
Definition Aggregate (s : histValues) (value : N) (attr : attribute_Set)
  : M histValues :=
  do bs <- load_f64 (bounds s);
  let idx := sort.SearchFloat64s bs (toFloat64 value) in
  do b <- match values s !! attr with
          | Some b => ret b
          | None =>
              do b <- newBuckets (length bs + 1);
              ret (Buckets (counts b) (count b) (sum b) value value)
          end;
  do b' <- bin b idx value;
  ret (HistValues (bounds s) (<[attr := b']> (values s))).

End histogram.

Arguments buckets : clear implicits.
Arguments histValues N attribute_Set {_ _}.

(** deltaHistogram summarizes a set of measurements made in a single
    aggregation cycle. *)
Module deltaHistogram.
Section defs.
Context {N : Type} `{Number N}.
Context {attribute_Set : Type} `{Countable attribute_Set}.

Record t := Make {
  histValues : aggregate.histValues N attribute_Set;   (* embedded *histValues[N] *)
  noMinMax : bool;
  start : Time;
}.

(** One iteration of [for a, b := range s.values]: the data point refers to
    [b.counts] itself, and the entry is deleted from the store. *)
Definition range_body (s : t) (now : Time) (bounds : loc)
    (acc : list (metricdata.HistogramDataPoint N attribute_Set)
           * gmap attribute_Set (buckets N))
    (ab : attribute_Set * buckets N) :=
  let '(dps, vals) := acc in
  let '(a, b) := ab in
  let hdp := {|
    metricdata.Attributes := a;
    metricdata.StartTime := start s;
    metricdata.Time_ := now;
    metricdata.Count := count b;
    metricdata.Bounds := bounds;
    metricdata.BucketCounts := counts b;
    metricdata.Min := if noMinMax s then None else metricdata.NewExtrema (min b);
    metricdata.Max := if noMinMax s then None else metricdata.NewExtrema (max b);
    metricdata.Sum := sum b;
  |} in
  (dps ++ [hdp], delete a vals).

(** [Aggregation()]; [now] is the clock reading [now()]. The result [None]
    is the nil [metricdata.Aggregation]. *)
Definition Aggregation (s : t) (now : Time)
  : M (option (metricdata.Histogram N attribute_Set) * t) :=
  if decide (size (values (histValues s)) = 0%nat) then ret (None, s)
  else
    let t := now in
    do src <- load_f64 (aggregate.bounds (histValues s));
    do bounds <- make_f64 (length src);
    copy_f64 bounds (aggregate.bounds (histValues s)) ;;
    let '(dps, vals) :=
      foldl (range_body s t bounds) ([], values (histValues s))
            (map_to_list (values (histValues s))) in
    let h := {| metricdata.DataPoints := dps;
                metricdata.Temporality_ := metricdata.DeltaTemporality |} in
    ret (Some h,
         Make (HistValues (aggregate.bounds (histValues s)) vals) (noMinMax s) t).

End defs.
Arguments t N attribute_Set {_ _}.
End deltaHistogram.

(** cumulativeHistogram summarizes a set of measurements made over all
    aggregation cycles. *)
Module cumulativeHistogram.
Section defs.
Context {N : Type} `{Number N}.
Context {attribute_Set : Type} `{Countable attribute_Set}.

Record t := Make {
  histValues : aggregate.histValues N attribute_Set;   (* embedded *histValues[N] *)
  noMinMax : bool;
  start : Time;
}.

(** One iteration of [for a, b := range s.values]: the counts are copied
    into a new slice, and the entry stays in the store. *)
Definition range_body (s : t) (now : Time) (bounds : loc)
    (dps : list (metricdata.HistogramDataPoint N attribute_Set))
    (ab : attribute_Set * buckets N)
  : M (list (metricdata.HistogramDataPoint N attribute_Set)) :=
  let '(a, b) := ab in
  do src <- load_u64 (aggregate.counts b);
  do counts <- make_u64 (length src);
  copy_u64 counts (aggregate.counts b) ;;
  let hdp := {|
    metricdata.Attributes := a;
    metricdata.StartTime := start s;
    metricdata.Time_ := now;
    metricdata.Count := count b;
    metricdata.Bounds := bounds;
    metricdata.BucketCounts := counts;
    metricdata.Min := if noMinMax s then None else metricdata.NewExtrema (min b);
    metricdata.Max := if noMinMax s then None else metricdata.NewExtrema (max b);
    metricdata.Sum := sum b;
  |} in
  ret (dps ++ [hdp]).

Definition Aggregation (s : t) (now : Time)
  : M (option (metricdata.Histogram N attribute_Set) * t) :=
  if decide (size (values (histValues s)) = 0%nat) then ret (None, s)
  else
    let t := now in
    do src <- load_f64 (aggregate.bounds (histValues s));
    do bounds <- make_f64 (length src);
    copy_f64 bounds (aggregate.bounds (histValues s)) ;;
    do dps <- foldM (range_body s t bounds) []
                    (map_to_list (values (histValues s)));
    let h := {| metricdata.DataPoints := dps;
                metricdata.Temporality_ := metricdata.CumulativeTemporality |} in
    ret (Some h, s).

End defs.
Arguments t N attribute_Set {_ _}.
End cumulativeHistogram.

(** newDeltaHistogram and newCumulativeHistogram; [now] is the clock
    reading [now()] at construction. *)
Definition newDeltaHistogram {N} `{Number N} {attribute_Set} `{Countable attribute_Set}
    (cfg : aggregation.ExplicitBucketHistogram) (now : Time)
  : M (deltaHistogram.t N attribute_Set) :=
  do hv <- newHistValues (aggregation.Boundaries cfg);
  ret (deltaHistogram.Make hv (aggregation.NoMinMax cfg) now).

Definition newCumulativeHistogram {N} `{Number N} {attribute_Set} `{Countable attribute_Set}
    (cfg : aggregation.ExplicitBucketHistogram) (now : Time)
  : M (cumulativeHistogram.t N attribute_Set) :=
  do hv <- newHistValues (aggregation.Boundaries cfg);
  ret (cumulativeHistogram.Make hv (aggregation.NoMinMax cfg) now).

(** Modelled from the spec: aggregate.Measure is declared outside the files
    under verification: the "accumulate" entry point of an aggregator,
    [func(context.Context, N, attribute.Set)]. Its side effects are
    transitions of a world [W] (the state of the aggregators behind it). *)
Definition Measure (W N attribute_Set : Type) : Type :=
  context.Context → N → attribute_Set → W → W.

End aggregate.

(** ** Package metric: instrument.go *)

Module instrumentation.
(** instrumentation.Scope, with the fields that instrument.go reads; two
    scopes are compared field by field. *)
Record Scope := {
  Name : string;
  Version : string;
  SchemaURL : string;
}.
#[global] Instance Scope_eq_dec : EqDecision Scope.
Proof. solve_decision. Defined.
End instrumentation.

Module metric.

Inductive InstrumentKind :=
  | instrumentKindUndefined
  | InstrumentKindCounter
  | InstrumentKindUpDownCounter
  | InstrumentKindHistogram
  | InstrumentKindObservableCounter
  | InstrumentKindObservableUpDownCounter
  | InstrumentKindObservableGauge.

(** Go's [error] values of this file: the sentinel made by [errors.New]
    and the values made by [fmt.Errorf], each with its message. *)
Inductive error :=
  | errors_New (text : string)
  | fmt_Errorf (text : string).

Section instruments.
(** The world the measures act on, and the attribute sets. *)
Context {W attribute_Set : Type}.
(** The options of the API package and the attribute set they configure:
    [metric.NewAddConfig(opts).Attributes()] and
    [metric.NewRecordConfig(opts).Attributes()]. *)
Context {AddOption RecordOption : Type}.
Context (NewAddConfig_Attributes : list AddOption → attribute_Set).
Context (NewRecordConfig_Attributes : list RecordOption → attribute_Set).

(** [for _, in := range measures { in(ctx, val, s) }] *)
Definition range_measures {N} (measures : list (aggregate.Measure W N attribute_Set))
    (ctx : context.Context) (val : N) (s : attribute_Set) (w : W) : W :=
  foldl (fun w in_ => in_ ctx val s w) w measures.

Record int64Inst := { int64Inst_measures : list (aggregate.Measure W int64 attribute_Set) }.

Definition int64Inst_aggregate (i : int64Inst) (ctx : context.Context)
    (val : int64) (s : attribute_Set) (w : W) : W :=
  match context.Err ctx with
  | Some err => w
  | None => range_measures (int64Inst_measures i) ctx val s w
  end.

Definition int64Inst_Add (i : int64Inst) (ctx : context.Context) (val : int64)
    (opts : list AddOption) : W → W :=
  let c := NewAddConfig_Attributes opts in
  int64Inst_aggregate i ctx val c.

Definition int64Inst_Record (i : int64Inst) (ctx : context.Context) (val : int64)
    (opts : list RecordOption) : W → W :=
  let c := NewRecordConfig_Attributes opts in
  int64Inst_aggregate i ctx val c.

Record float64Inst := { float64Inst_measures : list (aggregate.Measure W float64 attribute_Set) }.

Definition float64Inst_aggregate (i : float64Inst) (ctx : context.Context)
    (val : float64) (s : attribute_Set) (w : W) : W :=
  match context.Err ctx with
  | Some err => w
  | None => range_measures (float64Inst_measures i) ctx val s w
  end.

Definition float64Inst_Add (i : float64Inst) (ctx : context.Context) (val : float64)
    (opts : list AddOption) : W → W :=
  let c := NewAddConfig_Attributes opts in
  float64Inst_aggregate i ctx val c.

Definition float64Inst_Record (i : float64Inst) (ctx : context.Context) (val : float64)
    (opts : list RecordOption) : W → W :=
  let c := NewRecordConfig_Attributes opts in
  float64Inst_aggregate i ctx val c.

(** observablID and observable[N]: the embedded identifier and the measures. *)
Record observablID := {
  name : string;
  description : string;
  kind : InstrumentKind;
  unit_ : string;                 (* the field [unit] *)
  scope : instrumentation.Scope;
}.

Record observable (N : Type) := {
  observable_observablID : observablID;
  observable_measures : list (aggregate.Measure W N attribute_Set);
}.
Arguments observable_observablID {N} _.
Arguments observable_measures {N} _.

Definition newObservable {N} (scope : instrumentation.Scope) (kind : InstrumentKind)
    (name desc u : string) (meas : list (aggregate.Measure W N attribute_Set))
  : observable N :=
  {| observable_observablID :=
       {| name := name; description := desc; kind := kind; unit_ := u; scope := scope |};
     observable_measures := meas |}.

(** The background context is never canceled. *)
Definition context_Background : context.Context := {| context.Err := None |}.

(** observe records the val for the set of attrs. *)
Definition observe {N} (o : observable N) (val : N) (s : attribute_Set) (w : W) : W :=
  range_measures (observable_measures o) context_Background val s w.

Definition errEmptyAgg : error := errors_New "no aggregators for observable instrument".

(** [%q] of package fmt (strconv.Quote), a function of the standard library. *)
Context (strconv_Quote : string → string).

(** registerable returns an error if the observable o should not be
    registered, and nil ([None]) if it should. *)
Definition registerable {N} (o : observable N) (scope_ : instrumentation.Scope)
  : option error :=
  if decide (length (observable_measures o) = 0%nat) then Some errEmptyAgg
  else if decide (scope_ ≠ scope (observable_observablID o)) then
    Some (fmt_Errorf
      ("invalid registration: observable "
         +:+ strconv_Quote (name (observable_observablID o))
         +:+ " from Meter "
         +:+ strconv_Quote (instrumentation.Name (scope (observable_observablID o)))
         +:+ ", registered with Meter "
         +:+ strconv_Quote (instrumentation.Name scope_)))
  else None.

End instruments.

Arguments int64Inst : clear implicits.
Arguments float64Inst : clear implicits.
Arguments observable : clear implicits.
Arguments observable_observablID {W attribute_Set N} _.
Arguments observable_measures {W attribute_Set N} _.

#[global] Instance InstrumentKind_eq_dec : EqDecision InstrumentKind.
Proof. solve_decision. Defined.

(** [zeroInstrumentKind] and [zeroScope]: the zero values of their types. *)
Definition zeroInstrumentKind : InstrumentKind := instrumentKindUndefined.
Definition zeroScope : instrumentation.Scope :=
  {| instrumentation.Name := EmptyString;
     instrumentation.Version := EmptyString;
     instrumentation.SchemaURL := EmptyString |}.

(** Instrument describes properties an instrument is created with. The
    zero-size field [nonComparable] carries no data. *)
Module Instrument.
Record t := {
  Name : string;
  Description : string;
  Kind : InstrumentKind;
  Unit : string;
  Scope : instrumentation.Scope;
}.

(** empty returns if all fields of i are their zero-value. *)
Definition empty (i : t) : bool :=
  bool_decide (Name i = EmptyString) &&
  bool_decide (Description i = EmptyString) &&
  bool_decide (Kind i = zeroInstrumentKind) &&
  bool_decide (Unit i = EmptyString) &&
  bool_decide (Scope i = zeroScope).

Definition matchesName (i other : t) : bool :=
  bool_decide (Name i = EmptyString) || bool_decide (Name i = Name other).

Definition matchesDescription (i other : t) : bool :=
  bool_decide (Description i = EmptyString)
  || bool_decide (Description i = Description other).

Definition matchesKind (i other : t) : bool :=
  bool_decide (Kind i = zeroInstrumentKind) || bool_decide (Kind i = Kind other).

Definition matchesUnit (i other : t) : bool :=
  bool_decide (Unit i = EmptyString) || bool_decide (Unit i = Unit other).

Definition matchesScope (i other : t) : bool :=
  (bool_decide (instrumentation.Name (Scope i) = EmptyString)
   || bool_decide (instrumentation.Name (Scope i) = instrumentation.Name (Scope other)))
  && (bool_decide (instrumentation.Version (Scope i) = EmptyString)
      || bool_decide (instrumentation.Version (Scope i)
                      = instrumentation.Version (Scope other)))
  && (bool_decide (instrumentation.SchemaURL (Scope i) = EmptyString)
      || bool_decide (instrumentation.SchemaURL (Scope i)
                      = instrumentation.SchemaURL (Scope other))).

(** matches returns whether all the non-zero-value fields of i match the
    corresponding fields of other. *)
Definition matches (i other : t) : bool :=
  matchesName i other &&
  matchesDescription i other &&
  matchesKind i other &&
  matchesUnit i other &&
  matchesScope i other.
End Instrument.

(** Stream describes the stream of data an instrument produces. The
    attribute keys ([attribute.Key]) are of a type with decidable equality
    that can key a map; the aggregation and the attribute values are of
    types declared in other packages. *)
Module Stream.
Section defs.
Context {Key : Type} `{Countable Key} {Value Aggregation_ : Type}.

(** [attribute.KeyValue]: the key and the value of one attribute. *)
Record KeyValue := { kv_Key : Key; kv_Value : Value }.

Record t := {
  Name : string;
  Description : string;
  Unit : string;
  Aggregation : Aggregation_;
  AllowAttributeKeys : list Key;
}.

(** attributeFilter returns an attribute.Filter that only allows
    attributes with keys in s.AttributeKeys; if that slice is empty an
    accept-all filter is returned. The map [allowed] is built by the loop
    over the keys. *)
Definition attributeFilter (s : t) : KeyValue → bool :=
  if bool_decide (length (AllowAttributeKeys s) ≤ 0)%nat then fun kv => true
  else
    let allowed : gmap Key unit :=
      foldl (fun allowed k => <[k := tt]> allowed) ∅ (AllowAttributeKeys s) in
    fun kv => match allowed !! kv_Key kv with Some _ => true | None => false end.

End defs.
Arguments KeyValue : clear implicits.
Arguments t Key Aggregation_ : clear implicits.
End Stream.

End metric.

(** ** Vocabulary of the properties *)

(** An order-preserving key for [float64]: NaN first (as [Less] orders it),
    then -inf, the negative finite values, the zeros, the positive finite
    values and +inf; keys are compared lexicographically. *)
Definition float64_key (f : float64) : Z * Z * Z :=
  match f with
  | S754_nan => (-3, 0, 0)
  | S754_infinity true => (-2, 0, 0)
  | S754_finite true m e => (-1, - e, Z.neg m)
  | S754_zero _ => (0, 0, 0)
  | S754_finite false m e => (1, e, Z.pos m)
  | S754_infinity false => (2, 0, 0)
  end.

Definition key_lt (a b : Z * Z * Z) : Prop :=
  a.1.1 < b.1.1 ∨ (a.1.1 = b.1.1 ∧ (a.1.2 < b.1.2 ∨ (a.1.2 = b.1.2 ∧ a.2 < b.2))).
Definition key_le (a b : Z * Z * Z) : Prop :=
  a.1.1 < b.1.1 ∨ (a.1.1 = b.1.1 ∧ (a.1.2 < b.1.2 ∨ (a.1.2 = b.1.2 ∧ a.2 ≤ b.2))).

(** [b] may follow [a] in a slice sorted by sort.Float64s: [b] is not
    [Less] than [a]. *)
Definition not_after (a b : float64) : Prop :=
  key_le (float64_key a) (float64_key b).

(** The number of boundaries strictly less than [v]. *)
Definition count_less (boundaries : list float64) (v : float64) : nat :=
  length (List.filter (fun b => float64_lt b v) boundaries).

(** The number of boundaries [b] for which [b >= v] does not hold. *)
Definition count_not_ge (boundaries : list float64) (v : float64) : nat :=
  length (List.filter (fun b => negb (float64_ge b v)) boundaries).

(** The sum of the per-bucket counts, in [uint64] arithmetic. *)
Definition sum_uint64 (cs : list uint64) : uint64 := foldr uint64_add 0 cs.

(** A client overwrites the slice [pu] of counts and the slice [pf] of
    bounds that it holds. *)
Definition overwrite (pu : loc) (cs : list uint64) (pf : loc) (bs : list float64)
  : M unit :=
  store_u64 pu cs ;; store_f64 pf bs.

(** The memory after [overwrite]. *)
Definition overwritten (pu : loc) (cs : list uint64) (pf : loc) (bs : list float64)
    (h : heap) : heap :=
  Heap (<[pu := cs]> (u64s h)) (<[pf := bs]> (f64s h)).

(** ** Clients of the aggregators *)

Section clients.
Context {N : Type} `{Number N}.
Context {attribute_Set : Type} `{Countable attribute_Set}.

(** The two histogram implementations of the [aggregator[N]] interface. *)
Inductive aggregator :=
  | Delta (s : aggregate.deltaHistogram.t N attribute_Set)
  | Cumulative (s : aggregate.cumulativeHistogram.t N attribute_Set).

Definition aggregator_histValues (g : aggregator) : aggregate.histValues N attribute_Set :=
  match g with
  | Delta s => aggregate.deltaHistogram.histValues s
  | Cumulative s => aggregate.cumulativeHistogram.histValues s
  end.

Definition aggregator_start (g : aggregator) : Time :=
  match g with
  | Delta s => aggregate.deltaHistogram.start s
  | Cumulative s => aggregate.cumulativeHistogram.start s
  end.

Definition aggregator_is_delta (g : aggregator) : bool :=
  match g with Delta _ => true | Cumulative _ => false end.

(** [g.Aggregate(value, attr)]: the method promoted from the embedded
    [*histValues]. *)
Definition aggregator_Aggregate (g : aggregator) (value : N) (attr : attribute_Set)
  : M aggregator :=
  match g with
  | Delta s =>
      do hv <- aggregate.Aggregate (aggregate.deltaHistogram.histValues s) value attr;
      ret (Delta (aggregate.deltaHistogram.Make hv
                    (aggregate.deltaHistogram.noMinMax s)
                    (aggregate.deltaHistogram.start s)))
  | Cumulative s =>
      do hv <- aggregate.Aggregate (aggregate.cumulativeHistogram.histValues s) value attr;
      ret (Cumulative (aggregate.cumulativeHistogram.Make hv
                         (aggregate.cumulativeHistogram.noMinMax s)
                         (aggregate.cumulativeHistogram.start s)))
  end.

(** [g.Aggregation()] when the clock reads [now]. *)
Definition aggregator_Aggregation (g : aggregator) (now : Time)
  : M (option (metricdata.Histogram N attribute_Set) * aggregator) :=
  match g with
  | Delta s =>
      do r <- aggregate.deltaHistogram.Aggregation s now; ret (r.1, Delta r.2)
  | Cumulative s =>
      do r <- aggregate.cumulativeHistogram.Aggregation s now; ret (r.1, Cumulative r.2)
  end.

(** [newDeltaHistogram(cfg)] or [newCumulativeHistogram(cfg)]. *)
Definition newAggregator (delta : bool) (cfg : aggregation.ExplicitBucketHistogram)
    (now : Time) : M aggregator :=
  if delta then do s <- aggregate.newDeltaHistogram cfg now; ret (Delta s)
  else do s <- aggregate.newCumulativeHistogram cfg now; ret (Cumulative s).

(** What a client does with an aggregator: record a measurement or take a
    snapshot at some clock reading. *)
Inductive call :=
  | CallAggregate (value : N) (attr : attribute_Set)
  | CallAggregation (now : Time).

(** A sequence of calls; the snapshots are collected in order. *)
Fixpoint run (g : aggregator) (calls : list call)
  : M (list (option (metricdata.Histogram N attribute_Set)) * aggregator) :=
  match calls with
  | [] => ret ([], g)
  | CallAggregate value attr :: calls' =>
      do g' <- aggregator_Aggregate g value attr; run g' calls'
  | CallAggregation now :: calls' =>
      do r <- aggregator_Aggregation g now;
      do rs <- run r.2 calls';
      ret (r.1 :: rs.1, rs.2)
  end.

(** The per-bucket counts of the accumulator of [attr], if there is one. *)
Definition bucket_counts (s : aggregate.histValues N attribute_Set) (h : heap)
    (attr : attribute_Set) : option (list uint64) :=
  match aggregate.values s !! attr with
  | Some b => u64s h !! aggregate.counts b
  | None => None
  end.

(** The state of a value store built for the boundary sequence
    [boundaries]: the store keeps them sorted; every accumulator has one
    count per bucket, its total count is the sum of its per-bucket counts,
    and no two accumulators share their counts. *)
Definition store_ok (boundaries : list float64)
    (s : aggregate.histValues N attribute_Set) (h : heap) : Prop :=
  f64s h !! aggregate.bounds s = Some (sort.Float64s boundaries) ∧
  (∀ a b, aggregate.values s !! a = Some b →
     ∃ cs, u64s h !! aggregate.counts b = Some cs ∧
           length cs = S (length boundaries) ∧
           aggregate.count b = sum_uint64 cs) ∧
  (∀ a1 a2 b1 b2,
     aggregate.values s !! a1 = Some b1 → aggregate.values s !! a2 = Some b2 →
     aggregate.counts b1 = aggregate.counts b2 → a1 = a2).

(** The fields of an accumulator after [bin] has recorded [value]. *)
Definition binned (b : aggregate.buckets N) (value : N) : aggregate.buckets N :=
  aggregate.Buckets (aggregate.counts b)
    (uint64_incr (aggregate.count b))
    (add (aggregate.sum b) value)
    (if lt value (aggregate.min b) then value else aggregate.min b)
    (if lt value (aggregate.min b) then aggregate.max b
     else if gt value (aggregate.max b) then value else aggregate.max b).

(** The frame of [Aggregate]: what the call leaves alone. *)
Definition Aggregate_frame (s : aggregate.histValues N attribute_Set) (h : heap)
    (a : attribute_Set) (s' : aggregate.histValues N attribute_Set) (h' : heap) : Prop :=
  aggregate.bounds s' = aggregate.bounds s ∧
  f64s h' = f64s h ∧
  dom (aggregate.values s') = {[a]} ∪ dom (aggregate.values s) ∧
  (∀ a', a' ≠ a → aggregate.values s' !! a' = aggregate.values s !! a') ∧
  (∃ p, (∀ b', aggregate.values s' !! a = Some b' → aggregate.counts b' = p) ∧
        (match aggregate.values s !! a with
         | Some b => aggregate.counts b = p
         | None => u64s h !! p = None
         end) ∧
        ∀ q, q ≠ p → u64s h' !! q = u64s h !! q).

(** [b.min] and [b.max] are extrema of the observed values [seen]: both
    were observed, no observed value is less than [b.min], and [b.max] is
    less than no observed value. *)
Definition extrema_of (seen : list N) (b : aggregate.buckets N) : Prop :=
  aggregate.min b ∈ seen ∧ aggregate.max b ∈ seen ∧
  ∀ x, x ∈ seen → lt x (aggregate.min b) = false ∧ lt (aggregate.max b) x = false.

(** The total count and the sum accumulated for [attr] so far; the zero
    values when there is no accumulator. *)
Definition accumulated (s : aggregate.histValues N attribute_Set) (attr : attribute_Set)
  : uint64 * N :=
  match aggregate.values s !! attr with
  | Some b => (aggregate.count b, aggregate.sum b)
  | None => (0, zero)
  end.

(** The attribute set [attr] appears in one of the snapshots [outs]. *)
Definition appears (attr : attribute_Set)
    (outs : list (option (metricdata.Histogram N attribute_Set))) : Prop :=
  ∃ hist dp, Some hist ∈ outs ∧ dp ∈ metricdata.DataPoints hist ∧
             metricdata.Attributes dp = attr.

(** The slices [pu] (of counts) and [pf] (of bounds) exist and are not
    used by the aggregator [g]. *)
Definition independent_of (g : aggregator) (h : heap) (pu pf : loc) : Prop :=
  is_Some (u64s h !! pu) ∧ is_Some (f64s h !! pf) ∧
  pf ≠ aggregate.bounds (aggregator_histValues g) ∧
  ∀ a b, aggregate.values (aggregator_histValues g) !! a = Some b →
         aggregate.counts b ≠ pu.

(** A data point reports the accumulator [ab.2] of the attribute set
    [ab.1] for the window from [start] to [now], with the bounds slice [q];
    its extrema are present unless [noMinMax]. *)
Definition reports (start : Time) (noMinMax : bool) (now : Time) (q : loc)
    (dp : metricdata.HistogramDataPoint N attribute_Set)
    (ab : attribute_Set * aggregate.buckets N) : Prop :=
  metricdata.Attributes dp = ab.1 ∧
  metricdata.StartTime dp = start ∧
  metricdata.Time_ dp = now ∧
  metricdata.Count dp = aggregate.count ab.2 ∧
  metricdata.Bounds dp = q ∧
  metricdata.Sum dp = aggregate.sum ab.2 ∧
  metricdata.Min dp = (if noMinMax then None else Some (aggregate.min ab.2)) ∧
  metricdata.Max dp = (if noMinMax then None else Some (aggregate.max ab.2)).

End clients.

Arguments aggregator N attribute_Set {_ _}.
Arguments call : clear implicits.

(** ** Observing the calls of an instrument *)

(** The measure [m], registered at position [i], made to log each of its
    invocations: the position, the value and the attribute set it was
    called with. *)
Definition traced {W N attribute_Set} (i : nat)
    (m : aggregate.Measure W N attribute_Set)
  : aggregate.Measure (W * list (nat * N * attribute_Set)) N attribute_Set :=
  fun ctx val s wl => (m ctx val s wl.1, wl.2 ++ [(i, val, s)]).

(** The log of one invocation of each of [n] measures, in registration
    order, with the same value and attribute set. *)
Definition each_once {N attribute_Set} (n : nat) (val : N) (s : attribute_Set)
  : list (nat * N * attribute_Set) :=
  map (fun i => (i, val, s)) (seq 0 n).

(** The text that [%q] produces for a string without special characters:
    the string between double quotes. *)
Definition plain_Quote (s : string) : string :=
  String (Ascii.ascii_of_nat 34) (s +:+ String (Ascii.ascii_of_nat 34) EmptyString).

(** ** Concrete values used in the examples *)

(** The binary64 values nearest to the decimal constants of the examples. *)
Definition f64_m1 : float64 := Eval vm_compute in Prim2SF (-0x1p+0)%float.    (* -1 *)
Definition f64_0 : float64 := Eval vm_compute in Prim2SF 0x0p+0%float.        (* 0 *)
Definition f64_0_1 : float64 := Eval vm_compute in Prim2SF 0x1.999999999999ap-4%float. (* 0.1 *)
Definition f64_5 : float64 := Eval vm_compute in Prim2SF 0x1.4p+2%float.      (* 5 *)
Definition f64_5_1 : float64 := Eval vm_compute in Prim2SF 0x1.4666666666666p+2%float. (* 5.1 *)
Definition f64_10 : float64 := Eval vm_compute in Prim2SF 0x1.4p+3%float.     (* 10 *)
Definition f64_11 : float64 := Eval vm_compute in Prim2SF 0x1.6p+3%float.     (* 11 *)
Definition f64_1 : float64 := Eval vm_compute in Prim2SF 0x1p+0%float.        (* 1 *)
Definition f64_2p53 : float64 := Eval vm_compute in Prim2SF 0x1p+53%float.    (* 2^53 *)
Definition f64_NaN : float64 := S754_nan.

(** A caller's boundary slice [[0, 5, 10]] at reference 1, and the
    configuration that refers to it. *)
Definition example_boundaries : list float64 := [f64_0; f64_5; f64_10].
Definition example_heap : heap := Heap ∅ {[ 1%positive := example_boundaries ]}.
Definition example_cfg : aggregation.ExplicitBucketHistogram :=
  {| aggregation.Boundaries := 1%positive; aggregation.NoMinMax := false |}.

(** Two scopes, and observables created under the first one: one without
    measures and one with a measure that does nothing. *)
Definition scope_a : instrumentation.Scope :=
  {| instrumentation.Name := "meter-a"; instrumentation.Version := EmptyString;
     instrumentation.SchemaURL := EmptyString |}.
Definition scope_b : instrumentation.Scope :=
  {| instrumentation.Name := "meter-b"; instrumentation.Version := EmptyString;
     instrumentation.SchemaURL := EmptyString |}.
Definition observable_without_measures : metric.observable unit string int64 :=
  metric.newObservable scope_a metric.InstrumentKindObservableGauge
    "gauge" EmptyString EmptyString [].
Definition observable_with_measure : metric.observable unit string int64 :=
  metric.newObservable scope_a metric.InstrumentKindObservableGauge
    "gauge" EmptyString EmptyString [fun _ _ _ w => w].

(** Instruments for the examples: criteria that only fix the name, and
    an instrument with every field set. *)
Definition scope_full : instrumentation.Scope :=
  {| instrumentation.Name := "meter"; instrumentation.Version := "v1";
     instrumentation.SchemaURL := "https://example.com/schema" |}.
Definition instrument_zero : metric.Instrument.t :=
  {| metric.Instrument.Name := EmptyString;
     metric.Instrument.Description := EmptyString;
     metric.Instrument.Kind := metric.zeroInstrumentKind;
     metric.Instrument.Unit := EmptyString;
     metric.Instrument.Scope := metric.zeroScope |}.
Definition instrument_named : metric.Instrument.t :=
  {| metric.Instrument.Name := "requests";
     metric.Instrument.Description := EmptyString;
     metric.Instrument.Kind := metric.zeroInstrumentKind;
     metric.Instrument.Unit := EmptyString;
     metric.Instrument.Scope := metric.zeroScope |}.
Definition instrument_full : metric.Instrument.t :=
  {| metric.Instrument.Name := "requests";
     metric.Instrument.Description := "number of requests";
     metric.Instrument.Kind := metric.InstrumentKindCounter;
     metric.Instrument.Unit := "1";
     metric.Instrument.Scope := scope_full |}.

(** The memory after the caller of a constructor has overwritten the
    slice [p] of boundaries that it passed in the configuration. *)
Definition caller_writes (p : loc) (bs : list float64) (h : heap) : heap :=
  Heap (u64s h) (<[p := bs]> (f64s h)).

(** ** The history of an aggregator *)

Section history.
Context {N : Type} `{Number N}.
Context {attribute_Set : Type} `{Countable attribute_Set}.

Definition aggregator_noMinMax (g : aggregator N attribute_Set) : bool :=
  match g with
  | Delta s => aggregate.deltaHistogram.noMinMax s
  | Cumulative s => aggregate.cumulativeHistogram.noMinMax s
  end.

(** The values that [calls] leave recorded for [attr], oldest first, when
    [seen] were recorded before: [Aggregate] for [attr] appends its value,
    and a snapshot of a delta histogram starts afresh. *)
Fixpoint observed (delta : bool) (attr : attribute_Set)
    (calls : list (call N attribute_Set)) (seen : list N) : list N :=
  match calls with
  | [] => seen
  | CallAggregate value a :: calls' =>
      observed delta attr calls' (if decide (a = attr) then seen ++ [value] else seen)
  | CallAggregation _ :: calls' =>
      observed delta attr calls' (if delta then [] else seen)
  end.

(** The index that [Aggregate] computes for [value]. *)
Definition bucket_of (boundaries : list float64) (value : N) : nat :=
  sort.SearchFloat64s (sort.Float64s boundaries) (toFloat64 value).

(** The number of the values [vs] whose index is [k], as a [uint64]. *)
Definition tally (boundaries : list float64) (vs : list N) (k : nat) : uint64 :=
  Z.of_nat (length (filter (fun v => bucket_of boundaries v = k) vs)) mod 2 ^ 64.

(** The accumulator [ob] of an attribute set (there is none when [ob] is
    [None]) summarises the values [vs]: there is an accumulator exactly
    when there are values; its count is their number, its sum is their sum
    in the order of recording, starting from zero, and its per-bucket
    counts are their tally. *)
Definition summarises (boundaries : list float64) (h : heap) (vs : list N)
    (ob : option (aggregate.buckets N)) : Prop :=
  match ob with
  | None => vs = []
  | Some b =>
      vs ≠ [] ∧
      aggregate.count b = Z.of_nat (length vs) mod 2 ^ 64 ∧
      aggregate.sum b = foldl add zero vs ∧
      ∃ cs, u64s h !! aggregate.counts b = Some cs ∧
            length cs = S (length boundaries) ∧
            ∀ k, (k ≤ length boundaries)%nat → cs !! k = Some (tally boundaries vs k)
  end.

(** The reported windows are chained: the data points of each snapshot
    share one window, which starts at [start] for the first snapshot and
    at the end of the previous window for every other one. *)
Fixpoint chained (start : Time)
    (reported : list (metricdata.Histogram N attribute_Set)) : Prop :=
  match reported with
  | [] => True
  | hist :: rest =>
      match metricdata.DataPoints hist with
      | [] => False
      | dp :: _ =>
          Forall (fun dp' => metricdata.StartTime dp' = start ∧
                             metricdata.Time_ dp' = metricdata.Time_ dp)
                 (metricdata.DataPoints hist) ∧
          chained (metricdata.Time_ dp) rest
      end
  end.

End history.

(** * Properties *)

(** ** Order of [float64] *)

Lemma SFcompare_key (x y : float64) :
  isNaN x = false → isNaN y = false →
  SFcompare x y = Some (match float64_key x, float64_key y with
                        | (a1, a2, a3), (b1, b2, b3) =>
                            match a1 ?= b1 with
                            | Eq => match a2 ?= b2 with Eq => a3 ?= b3 | c => c end
                            | c => c
                            end
                        end).
Proof.
  destruct x as [[]|[]| |[] mx ex], y as [[]|[]| |[] my ey]; simpl; try done.
  intros _ _. rewrite Z.compare_opp, (Z.compare_antisym ex ey).
  by destruct (ex ?= ey).
Qed.

Lemma SFcompare_NaN (x y : float64) :
  isNaN x = true ∨ isNaN y = true → SFcompare x y = None.
Proof. destruct x as [[]|[]| |[] ? ?], y as [[]|[]| |[] ? ?]; simpl; naive_solver. Qed.

Lemma float64_lt_key (x y : float64) :
  float64_lt x y = true ↔
  isNaN x = false ∧ isNaN y = false ∧ key_lt (float64_key x) (float64_key y).
Proof.
  unfold float64_lt, SFltb.
  destruct (isNaN x) eqn:Hx; [rewrite SFcompare_NaN by auto; naive_solver|].
  destruct (isNaN y) eqn:Hy; [rewrite SFcompare_NaN by auto; naive_solver|].
  rewrite SFcompare_key by done.
  destruct (float64_key x) as [[a1 a2] a3], (float64_key y) as [[b1 b2] b3].
  unfold key_lt; simpl.
  destruct (Z.compare_spec a1 b1), (Z.compare_spec a2 b2), (Z.compare_spec a3 b3);
    split; try done; try lia; intros (_ & _ & ?); lia.
Qed.

Lemma float64_le_key (x y : float64) :
  float64_le x y = true ↔
  isNaN x = false ∧ isNaN y = false ∧ key_le (float64_key x) (float64_key y).
Proof.
  unfold float64_le, SFleb.
  destruct (isNaN x) eqn:Hx; [rewrite SFcompare_NaN by auto; naive_solver|].
  destruct (isNaN y) eqn:Hy; [rewrite SFcompare_NaN by auto; naive_solver|].
  rewrite SFcompare_key by done.
  destruct (float64_key x) as [[a1 a2] a3], (float64_key y) as [[b1 b2] b3].
  unfold key_le; simpl.
  destruct (Z.compare_spec a1 b1), (Z.compare_spec a2 b2), (Z.compare_spec a3 b3);
    split; try done; try lia; intros (_ & _ & ?); lia.
Qed.

Lemma float64_key_NaN (x : float64) :
  isNaN x = true ↔ (float64_key x).1.1 = -3.
Proof. destruct x as [[]|[]| |[] ? ?]; simpl; split; done. Qed.

Lemma float64_key_not_NaN (x : float64) :
  isNaN x = false ↔ -3 < (float64_key x).1.1.
Proof. destruct x as [[]|[]| |[] ? ?]; simpl; split; (done || lia). Qed.

Lemma float64_key_NaN_eq (x : float64) :
  isNaN x = true → float64_key x = (-3, 0, 0).
Proof. by destruct x as [[]|[]| |[] ? ?]. Qed.

(** [Less] is the strict order of the keys. *)
Lemma Less_key (x y : float64) :
  sort.Float64Slice_Less x y = true ↔ key_lt (float64_key x) (float64_key y).
Proof.
  unfold sort.Float64Slice_Less.
  rewrite orb_true_iff, andb_true_iff, negb_true_iff, float64_lt_key.
  destruct (isNaN x) eqn:Hx, (isNaN y) eqn:Hy.
  - rewrite !float64_key_NaN_eq by done. unfold key_lt; simpl. split; [naive_solver | lia].
  - apply float64_key_not_NaN in Hy. rewrite (float64_key_NaN_eq x) by done.
    unfold key_lt; simpl. split; [lia | naive_solver].
  - apply float64_key_not_NaN in Hx. rewrite (float64_key_NaN_eq y) by done.
    unfold key_lt; simpl. split; [naive_solver | lia].
  - naive_solver.
Qed.

Lemma Less_false_key (x y : float64) :
  sort.Float64Slice_Less x y = false ↔ key_le (float64_key y) (float64_key x).
Proof.
  rewrite <- not_true_iff_false, Less_key. unfold key_lt, key_le. lia.
Qed.

(** ** Binary search and sorting *)

Section search.
Local Open Scope nat_scope.

(** The loop invariant of sort.Search: for a predicate that is false on a
    prefix and true afterwards, the result separates the two. *)
Lemma Search_loop_spec (n : nat) (f : nat → bool) (fuel i j : nat) :
  j - i ≤ fuel → i ≤ j ≤ n →
  (∀ k l, k ≤ l < n → f k = true → f l = true) →
  (∀ k, k < i → f k = false) →
  (∀ k, j ≤ k < n → f k = true) →
  i ≤ sort.Search_loop fuel f i j ≤ j ∧
  (∀ k, k < sort.Search_loop fuel f i j → f k = false) ∧
  (∀ k, sort.Search_loop fuel f i j ≤ k < n → f k = true).
Proof.
  intros Hfuel Hij Hmono. revert i j Hfuel Hij.
  induction fuel as [|fuel IH]; intros i j Hfuel Hij Hlo Hhi;
    cbn [sort.Search_loop].
  { assert (i = j) as -> by lia. eauto with lia. }
  destruct (decide (i < j)) as [Hlt|Hge].
  2:{ assert (i = j) as -> by lia. eauto with lia. }
  assert (i ≤ (i + j) / 2 < j) as Hh.
  { split; [apply Nat.div_le_lower_bound | apply Nat.Div0.div_lt_upper_bound]; lia. }
  cbv zeta. set (h := (i + j) / 2) in *.
  destruct (f h) eqn:Hf; cbn [negb].
  - destruct (IH i h) as (? & ? & ?); [lia | lia | done | |].
    + intros k Hk. destruct (decide (k < j)); [|apply Hhi; lia].
      apply (Hmono h); [lia | done].
    + split; [lia | done].
  - destruct (IH (h + 1) j) as (? & ? & ?); [lia | lia | | done |].
    + intros k Hk. destruct (f k) eqn:Hfk; [|done].
      rewrite (Hmono k h) in Hf; [done | lia | done].
    + split; [lia | done].
Qed.

(** sort.Search only evaluates its predicate inside [[0, n)]. *)
Lemma Search_loop_ext (n : nat) (f g : nat → bool) (fuel i j : nat) :
  (∀ k, k < n → f k = g k) → j ≤ n →
  sort.Search_loop fuel f i j = sort.Search_loop fuel g i j.
Proof.
  intros Hfg. revert i j. induction fuel as [|fuel IH]; intros i j Hj; [done|].
  cbn [sort.Search_loop]. destruct (decide (i < j)) as [Hlt|]; [|done].
  assert ((i + j) / 2 < j) by (apply Nat.Div0.div_lt_upper_bound; lia).
  cbv zeta. set (h := (i + j) / 2) in *.
  rewrite <- Hfg by lia. destruct (f h); cbn [negb]; apply IH; lia.
Qed.

Lemma Search_ext (n : nat) (f g : nat → bool) :
  (∀ k, k < n → f k = g k) → sort.Search n f = sort.Search n g.
Proof. intros. by apply (Search_loop_ext n). Qed.

Lemma Search_spec (n : nat) (f : nat → bool) :
  (∀ k l, k ≤ l < n → f k = true → f l = true) →
  sort.Search n f ≤ n ∧
  (∀ k, k < sort.Search n f → f k = false) ∧
  (∀ k, sort.Search n f ≤ k < n → f k = true).
Proof.
  intros Hmono.
  destruct (Search_loop_spec n f n 0 n) as ((_ & ?) & ? & ?); (done || lia).
Qed.

(** A predicate that holds exactly on the first [r] elements of a list
    holds on [r] elements. *)
Lemma filter_length_prefix {A} (p : A → bool) (l : list A) (r : nat) :
  r ≤ length l →
  (∀ k x, l !! k = Some x → k < r → p x = true) →
  (∀ k x, l !! k = Some x → r ≤ k → p x = false) →
  length (List.filter p l) = r.
Proof.
  revert r. induction l as [|y l IH]; intros r Hr Hlo Hhi; simpl in *; [lia|].
  destruct r as [|r].
  - rewrite (Hhi 0 y) by (done || lia).
    apply IH; [lia | intros; lia |]. intros k x Hk _. apply (Hhi (S k)); [done | lia].
  - rewrite (Hlo 0 y) by (done || lia). simpl. f_equal.
    apply IH; [lia | |].
    + intros k x Hk ?. apply (Hlo (S k)); [done | lia].
    + intros k x Hk ?. apply (Hhi (S k)); [done | lia].
Qed.

Lemma filter_length_Permutation {A} (p : A → bool) (l1 l2 : list A) :
  l1 ≡ₚ l2 → length (List.filter p l1) = length (List.filter p l2).
Proof.
  induction 1 as [|x l1 l2 _ IH|x y l|l1 l2 l3 _ IH1 _ IH2]; simpl; try done.
  - destruct (p x); simpl; congruence.
  - destruct (p x), (p y); done.
  - congruence.
Qed.

End search.

(** The order in which sort.Float64s leaves a slice: no element is [Less]
    than an earlier one. *)
Lemma sift_Permutation (x : float64) (before : list float64) :
  sort.sift x before ≡ₚ x :: before.
Proof.
  induction before as [|y l IH]; simpl; [done|].
  destruct (sort.Float64Slice_Less x y); [|done].
  rewrite IH. apply Permutation_swap.
Qed.

(** The inner loop keeps the elements in front of it ordered (seen from the
    back: no element is [Less] than a later one of [before]). *)
Lemma sift_sorted (x : float64) (before : list float64) :
  StronglySorted (flip not_after) before →
  StronglySorted (flip not_after) (sort.sift x before).
Proof.
  induction 1 as [|y l Hs IH Hy]; simpl.
  { repeat constructor. }
  destruct (sort.Float64Slice_Less x y) eqn:Hless.
  - apply Less_key in Hless. constructor; [done|].
    rewrite sift_Permutation. constructor; [|done].
    unfold flip, not_after, key_lt, key_le in *. lia.
  - apply Less_false_key in Hless. constructor; [by constructor|].
    constructor; [done|].
    eapply Forall_impl; [exact Hy|]. intros z Hz. simpl in Hz.
    unfold flip, not_after, key_lt, key_le in *. lia.
Qed.

Lemma insertion_loop_Permutation (a before : list float64) :
  foldl (fun before x => sort.sift x before) before a ≡ₚ a ++ before.
Proof.
  revert before. induction a as [|x a IH]; intros before; simpl; [done|].
  rewrite IH, sift_Permutation. by rewrite Permutation_middle.
Qed.

Lemma insertion_loop_sorted (a before : list float64) :
  StronglySorted (flip not_after) before →
  StronglySorted (flip not_after) (foldl (fun before x => sort.sift x before) before a).
Proof.
  revert before. induction a as [|x a IH]; intros before Hs; simpl; [done|].
  by apply IH, sift_sorted.
Qed.

Lemma StronglySorted_reverse {A} (R : relation A) (l : list A) :
  StronglySorted (flip R) l → StronglySorted R (reverse l).
Proof.
  induction 1 as [|x l Hs IH Hx]; [constructor|].
  rewrite reverse_cons. apply StronglySorted_app. split_and!; [|done|repeat constructor].
  intros y z Hy ->%list_elem_of_singleton.
  rewrite Forall_forall in Hx. apply (Hx y). by apply elem_of_reverse.
Qed.

Lemma Float64s_Permutation (a : list float64) : sort.Float64s a ≡ₚ a.
Proof.
  unfold sort.Float64s, sort.insertionSort.
  by rewrite reverse_Permutation, insertion_loop_Permutation, app_nil_r.
Qed.

Lemma Float64s_sorted (a : list float64) :
  StronglySorted not_after (sort.Float64s a).
Proof. apply StronglySorted_reverse, insertion_loop_sorted. constructor. Qed.

(** Sorting by insertion keeps the order of +0 and -0, neither of which is
    [Less] than the other. *)
Lemma Float64s_zeros :
  sort.Float64s [S754_zero false; S754_zero true] = [S754_zero false; S754_zero true] ∧
  sort.Float64s [S754_zero true; S754_zero false] = [S754_zero true; S754_zero false].
Proof. by vm_compute. Qed.

Lemma StronglySorted_lookup_le {A} (R : relation A) (l : list A) (k1 k2 : nat) (x y : A) :
  StronglySorted R l → (k1 < k2)%nat → l !! k1 = Some x → l !! k2 = Some y → R x y.
Proof.
  intros Hs. revert k1 k2. induction Hs as [|z l Hs IH Hz]; intros k1 k2 Hk H1 H2; [done|].
  destruct k1 as [|k1], k2 as [|k2]; simpl in *; try lia.
  - injection H1 as ->. rewrite Forall_forall in Hz. apply Hz.
    by eapply list_elem_of_lookup_2.
  - apply (IH k1 k2); (done || lia).
Qed.

(** On a slice ordered by [Less], sort.SearchFloat64s counts the elements
    [b] for which [b >= x] does not hold. *)
Lemma SearchFloat64s_sorted (a : list float64) (x : float64) :
  StronglySorted not_after a →
  sort.SearchFloat64s a x = count_not_ge a x.
Proof.
  intros Hs. unfold sort.SearchFloat64s, count_not_ge.
  set (f := fun i : nat => match a !! i with Some y => float64_ge y x | None => false end).
  destruct (Search_spec (length a) f) as (Hle & Hlo & Hhi).
  - intros k l [Hkl Hl]. unfold f.
    destruct (a !! k) as [y|] eqn:Hk; [|done].
    destruct (lookup_lt_is_Some_2 a l Hl) as [z Hz]. rewrite Hz.
    destruct (decide (k = l)) as [->|]; [naive_solver|].
    assert (not_after y z) as Hyz.
    { eapply (StronglySorted_lookup_le _ a k l); (done || lia). }
    unfold not_after in Hyz.
    unfold float64_ge. fold (float64_le x y). fold (float64_le x z).
    rewrite !float64_le_key. rewrite !float64_key_not_NaN.
    unfold key_le in *. lia.
  - symmetry. apply filter_length_prefix; [done| |].
    + intros k y Hk Hlt. specialize (Hlo k Hlt). unfold f in Hlo. rewrite Hk in Hlo.
      by rewrite Hlo.
    + intros k y Hk Hge. assert (f k = true) as Hf.
      { apply Hhi. split; [done|]. by eapply lookup_lt_Some. }
      unfold f in Hf. rewrite Hk in Hf. by rewrite Hf.
Qed.

(** The bucket index that the histogram computes from the boundaries it
    was constructed with. *)
Lemma SearchFloat64s_Float64s (boundaries : list float64) (x : float64) :
  sort.SearchFloat64s (sort.Float64s boundaries) x = count_not_ge boundaries x.
Proof.
  rewrite SearchFloat64s_sorted by apply Float64s_sorted.
  apply filter_length_Permutation, Float64s_Permutation.
Qed.

(** For values that are ordered (no NaN involved), [b >= v] fails exactly
    when [b < v]. *)
Lemma count_not_ge_less (boundaries : list float64) (v : float64) :
  isNaN v = false → Forall (fun b => isNaN b = false) boundaries →
  count_not_ge boundaries v = count_less boundaries v.
Proof.
  intros Hv Hbs. unfold count_not_ge, count_less.
  induction Hbs as [|b bs Hb _ IH]; simpl; [done|].
  assert (negb (float64_ge b v) = float64_lt b v) as ->.
  { unfold float64_ge. fold (float64_le v b).
    assert (H1 := float64_le_key v b). assert (H2 := float64_lt_key b v).
    destruct (float64_le v b), (float64_lt b v); simpl; try done.
    - exfalso. destruct H1 as [H1 _], H2 as [H2 _].
      destruct H1 as (_ & _ & H1); [done|]. destruct H2 as (_ & _ & H2); [done|].
      unfold key_lt, key_le in *. lia.
    - exfalso. destruct H1 as [_ H1], H2 as [_ H2].
      assert (¬ key_le (float64_key v) (float64_key b)) by (intros ?; by discriminate H1).
      assert (¬ key_lt (float64_key b) (float64_key v)) by (intros ?; by discriminate H2).
      unfold key_lt, key_le in *. lia. }
  destruct (float64_lt b v); simpl; congruence.
Qed.

(** ** Arithmetic of the counters *)

Lemma sum_uint64_replicate (n : nat) : sum_uint64 (replicate n 0) = 0.
Proof. induction n as [|n IH]; simpl; [done|]. by rewrite IH. Qed.

Lemma uint64_add_incr_l (c s : Z) :
  uint64_add (uint64_incr c) s = uint64_incr (uint64_add c s).
Proof.
  unfold uint64_add, uint64_incr.
  rewrite Z.add_mod_idemp_l, Z.add_mod_idemp_l by done. f_equal. lia.
Qed.

Lemma uint64_add_incr_r (c s : Z) :
  uint64_add c (uint64_incr s) = uint64_incr (uint64_add c s).
Proof.
  unfold uint64_add, uint64_incr.
  rewrite Z.add_mod_idemp_r, Z.add_mod_idemp_l by done. f_equal. lia.
Qed.

(** Incrementing one bucket increments the sum of the buckets. *)
Lemma sum_uint64_incr (cs : list uint64) (i : nat) (c : uint64) :
  cs !! i = Some c →
  sum_uint64 (<[i := uint64_incr c]> cs) = uint64_incr (sum_uint64 cs).
Proof.
  revert i. induction cs as [|c0 cs IH]; intros i Hi; [done|].
  destruct i as [|i]; simpl in *.
  - injection Hi as ->. apply uint64_add_incr_l.
  - rewrite (IH i Hi). apply uint64_add_incr_r.
Qed.

(** ** The value store *)

Lemma copy_list_same_length {A} (dst src : list A) :
  length dst = length src → copy_list dst src = src.
Proof.
  intros Hlen. unfold copy_list.
  rewrite Hlen, firstn_all, drop_ge by lia. apply app_nil_r.
Qed.

Lemma bind_load_u64 {A} (p : loc) (k : list uint64 → M A) (h : heap) :
  (do l <- load_u64 p; k l) h =
  match u64s h !! p with Some l => k l h | None => None end.
Proof. unfold bind, load_u64. by destruct (u64s h !! p). Qed.

Lemma bind_load_f64 {A} (p : loc) (k : list float64 → M A) (h : heap) :
  (do l <- load_f64 p; k l) h =
  match f64s h !! p with Some l => k l h | None => None end.
Proof. unfold bind, load_f64. by destruct (f64s h !! p). Qed.

Lemma fresh_u64s (h : heap) : u64s h !! fresh (dom (u64s h)) = None.
Proof. apply not_elem_of_dom, is_fresh. Qed.

Lemma fresh_f64s (h : heap) : f64s h !! fresh (dom (f64s h)) = None.
Proof. apply not_elem_of_dom, is_fresh. Qed.

(** [b := make([]float64, len(src)); copy(b, src)] yields a new slice with
    the contents of [src]. *)
Lemma make_copy_f64 {A} (p : loc) (src : list float64) (k : loc → M A) (h : heap) :
  f64s h !! p = Some src →
  (do b <- make_f64 (length src); copy_f64 b p ;; k b) h =
  k (fresh (dom (f64s h)))
    (Heap (u64s h) (<[fresh (dom (f64s h)) := src]> (f64s h))).
Proof.
  intros Hp. assert (Hq := fresh_f64s h).
  unfold bind, make_f64, copy_f64, bind, load_f64, store_f64. simpl.
  rewrite lookup_insert_eq. simpl.
  rewrite lookup_insert_ne by congruence. rewrite Hp. simpl.
  rewrite insert_insert_eq.
  by rewrite copy_list_same_length by by rewrite length_replicate.
Qed.

Lemma make_copy_u64 {A} (p : loc) (src : list uint64) (k : loc → M A) (h : heap) :
  u64s h !! p = Some src →
  (do b <- make_u64 (length src); copy_u64 b p ;; k b) h =
  k (fresh (dom (u64s h)))
    (Heap (<[fresh (dom (u64s h)) := src]> (u64s h)) (f64s h)).
Proof.
  intros Hp. assert (Hq := fresh_u64s h).
  unfold bind, make_u64, copy_u64, bind, load_u64, store_u64. simpl.
  rewrite lookup_insert_eq. simpl.
  rewrite lookup_insert_ne by congruence. rewrite Hp. simpl.
  rewrite insert_insert_eq.
  by rewrite copy_list_same_length by by rewrite length_replicate.
Qed.

Section store.
Context {N : Type} `{Number N}.
Context {attribute_Set : Type} `{Countable attribute_Set}.

Implicit Types (s : aggregate.histValues N attribute_Set) (h : heap).
Implicit Types (b : aggregate.buckets N) (v : N) (a : attribute_Set).

(** The constructor copies and sorts the boundaries; the store is empty. *)
Lemma newHistValues_spec (p : loc) (boundaries : list float64) h :
  f64s h !! p = Some boundaries →
  aggregate.newHistValues (N:=N) (attribute_Set:=attribute_Set) p h =
  Some (aggregate.HistValues (fresh (dom (f64s h))) ∅,
        Heap (u64s h) (<[fresh (dom (f64s h)) := sort.Float64s boundaries]> (f64s h))).
Proof.
  intros Hp. assert (Hq := fresh_f64s h).
  unfold aggregate.newHistValues.
  unfold bind, make_f64, copy_f64, bind, load_f64, store_f64, ret. simpl.
  rewrite Hp. simpl. rewrite lookup_insert_eq. simpl.
  rewrite lookup_insert_ne by congruence. rewrite Hp. simpl.
  rewrite lookup_insert_eq. simpl. rewrite !insert_insert_eq.
  by rewrite copy_list_same_length by by rewrite length_replicate.
Qed.

Lemma newHistValues_store_ok (boundaries : list float64) h :
  store_ok boundaries
    (aggregate.HistValues (N:=N) (attribute_Set:=attribute_Set) (fresh (dom (f64s h))) ∅)
    (Heap (u64s h) (<[fresh (dom (f64s h)) := sort.Float64s boundaries]> (f64s h))).
Proof.
  split_and!; simpl.
  - apply lookup_insert_eq.
  - intros a b Hb. by rewrite lookup_empty in Hb.
  - intros a1 a2 b1 b2 Hb. by rewrite lookup_empty in Hb.
Qed.

(** [bin] increments the chosen bucket and updates the running fields. *)
Lemma bin_spec b (idx : nat) v h (cs : list uint64) (c : uint64) :
  u64s h !! aggregate.counts b = Some cs → cs !! idx = Some c →
  aggregate.bin b idx v h =
  Some (binned b v,
        Heap (<[aggregate.counts b := <[idx := uint64_incr c]> cs]> (u64s h)) (f64s h)).
Proof.
  intros Hcs Hc. unfold aggregate.bin, incr_u64, bind, load_u64, store_u64, ret, binned, gt.
  rewrite Hcs, Hc.
  by destruct (lt v (aggregate.min b)), (lt (aggregate.max b) v).
Qed.

(** [bin] panics when the index is out of range. *)
Lemma bin_out_of_range b (idx : nat) v h (cs : list uint64) :
  u64s h !! aggregate.counts b = Some cs → (length cs ≤ idx)%nat →
  aggregate.bin b idx v h = None.
Proof.
  intros Hcs Hc. unfold aggregate.bin, incr_u64, bind, load_u64, panic.
  by rewrite Hcs, lookup_ge_None_2.
Qed.

Lemma count_not_ge_le (boundaries : list float64) (x : float64) :
  (count_not_ge boundaries x ≤ length boundaries)%nat.
Proof. apply List.filter_length_le. Qed.

(** Aggregate on an attribute set that has an accumulator. *)
Lemma Aggregate_existing (boundaries : list float64) s h v a b (cs : list uint64) :
  store_ok boundaries s h →
  aggregate.values s !! a = Some b → u64s h !! aggregate.counts b = Some cs →
  ∃ c, cs !! count_not_ge boundaries (toFloat64 v) = Some c ∧
  aggregate.Aggregate s v a h =
  Some (aggregate.HistValues (aggregate.bounds s) (<[a := binned b v]> (aggregate.values s)),
        Heap (<[aggregate.counts b :=
                 <[count_not_ge boundaries (toFloat64 v) := uint64_incr c]> cs]> (u64s h))
             (f64s h)).
Proof.
  intros (Hbs & Hvals & _) Hb Hcs.
  destruct (Hvals a b Hb) as (cs' & Hcs' & Hlen & _).
  assert (cs' = cs) as -> by congruence.
  destruct (lookup_lt_is_Some_2 cs (count_not_ge boundaries (toFloat64 v))) as [c Hc].
  { pose proof (count_not_ge_le boundaries (toFloat64 v)). lia. }
  exists c. split; [done|].
  unfold aggregate.Aggregate, bind at 1, load_f64. rewrite Hbs.
  rewrite SearchFloat64s_Float64s, Hb.
  unfold bind at 1, ret at 1. unfold bind.
  by rewrite (bin_spec b _ v h cs c Hcs Hc).
Qed.

(** Aggregate on an attribute set that has no accumulator yet: a new one
    is made, with [min] and [max] set to the value. *)
Lemma Aggregate_new (boundaries : list float64) s h v a :
  store_ok boundaries s h →
  aggregate.values s !! a = None →
  aggregate.Aggregate s v a h =
  Some (aggregate.HistValues (aggregate.bounds s)
          (<[a := aggregate.Buckets (fresh (dom (u64s h))) 1 (add zero v) v v]>
             (aggregate.values s)),
        Heap (<[fresh (dom (u64s h)) :=
                 <[count_not_ge boundaries (toFloat64 v) := 1]>
                   (replicate (S (length boundaries)) 0)]> (u64s h))
             (f64s h)).
Proof.
  intros (Hbs & _ & _) Hb.
  unfold aggregate.Aggregate, bind at 1, load_f64. rewrite Hbs.
  rewrite SearchFloat64s_Float64s, Hb.
  assert (length (sort.Float64s boundaries) = length boundaries) as ->.
  { apply Permutation_length, Float64s_Permutation. }
  unfold aggregate.newBuckets, bind, make_u64, ret. simpl.
  set (p := fresh (dom (u64s h))).
  set (k := count_not_ge boundaries (toFloat64 v)).
  assert (replicate (length boundaries + 1) 0 !! k = Some 0) as Hk.
  { apply lookup_replicate. split; [done|].
    pose proof (count_not_ge_le boundaries (toFloat64 v)). unfold k. lia. }
  erewrite bin_spec; [|simpl; apply lookup_insert_eq|exact Hk].
  simpl. rewrite insert_insert_eq. unfold binned, gt. simpl.
  replace (length boundaries + 1)%nat with (S (length boundaries)) by lia.
by destruct (lt v v).
Qed.

(** [Aggregate] never panics on a store in a good state, and leaves it in
    a good state. *)
Lemma Aggregate_store_ok (boundaries : list float64) s h v a :
  store_ok boundaries s h →
  ∃ s' h', aggregate.Aggregate s v a h = Some (s', h') ∧
           store_ok boundaries s' h' ∧ Aggregate_frame s h a s' h'.
Proof.
  intros Hok. assert (Hok' := Hok). destruct Hok' as (Hbs & Hvals & Hinj).
  destruct (aggregate.values s !! a) as [b|] eqn:Hb.
  - destruct (Hvals a b Hb) as (cs & Hcs & Hlen & Hcount).
    destruct (Aggregate_existing boundaries s h v a b cs Hok Hb Hcs) as (c & Hc & ->).
    eexists _, _. split; [done|]. split; [split_and!|]; simpl.
    + done.
    + intros a' b'. destruct (decide (a' = a)) as [->|Hne].
      * rewrite lookup_insert_eq. intros [= <-]. simpl.
        rewrite lookup_insert_eq. eexists. split; [done|].
        rewrite length_insert, (sum_uint64_incr _ _ _ Hc). by rewrite Hcount.
      * rewrite lookup_insert_ne by done. intros Hb'.
        rewrite lookup_insert_ne; [by apply (Hvals a')|].
        intros Heq. apply Hne. by apply (Hinj a' a b' b).
    + intros a1 a2 b1 b2.
      destruct (decide (a1 = a)) as [->|Hne1], (decide (a2 = a)) as [->|Hne2];
        rewrite ?lookup_insert_eq, ?lookup_insert_ne by done; try done.
      * intros [= <-] Hb2 Heq. simpl in Heq. symmetry. by apply (Hinj a2 a b2 b).
      * intros Hb1 [= <-] Heq. simpl in Heq. by apply (Hinj a1 a b1 b).
      * apply Hinj.
    + split_and!; simpl; try done.
      * rewrite dom_insert_L. done.
      * intros a' Hne. by rewrite lookup_insert_ne.
      * exists (aggregate.counts b). split_and!; [|by rewrite Hb|].
        -- intros b'. rewrite lookup_insert_eq. by intros [= <-].
        -- intros q Hq. by rewrite lookup_insert_ne.
  - rewrite (Aggregate_new boundaries s h v a Hok Hb).
    assert (Hfresh := fresh_u64s h).
    assert (∀ a' b', aggregate.values s !! a' = Some b' →
                     aggregate.counts b' ≠ fresh (dom (u64s h))) as Hold.
    { intros a' b' Hb' Heq. destruct (Hvals a' b' Hb') as (cs & Hcs & _). congruence. }
    eexists _, _. split; [done|]. split; [split_and!|]; simpl.
    + done.
    + intros a' b'. destruct (decide (a' = a)) as [->|Hne].
      * rewrite lookup_insert_eq. intros [= <-]. simpl.
        rewrite lookup_insert_eq. eexists. split; [done|].
        rewrite length_insert. split; [by rewrite length_cons, length_replicate|].
        change 1 with (uint64_incr 0) at 2.
        change (0 :: replicate (length boundaries) 0)
          with (replicate (S (length boundaries)) (0 : uint64)).
        rewrite (sum_uint64_incr _ _ 0).
        -- by rewrite sum_uint64_replicate.
        -- apply lookup_replicate_2.
           pose proof (count_not_ge_le boundaries (toFloat64 v)). lia.
      * rewrite lookup_insert_ne by done. intros Hb'.
        rewrite lookup_insert_ne; [by apply (Hvals a')|].
        intros Heq. by apply (Hold a' b').
    + intros a1 a2 b1 b2.
      destruct (decide (a1 = a)) as [->|Hne1], (decide (a2 = a)) as [->|Hne2];
        rewrite ?lookup_insert_eq, ?lookup_insert_ne by done; try done.
      * intros [= <-] Hb2 Heq. simpl in Heq. by destruct (Hold a2 b2).
      * intros Hb1 [= <-] Heq. simpl in Heq. by destruct (Hold a1 b1).
      * apply Hinj.
    + split_and!; simpl; try done.
      * rewrite dom_insert_L. done.
      * intros a' Hne. by rewrite lookup_insert_ne.
      * exists (fresh (dom (u64s h))). split_and!; [|by rewrite Hb|].
        -- intros b'. rewrite lookup_insert_eq. by intros [= <-].
        -- intros q Hq. by rewrite lookup_insert_ne.
Qed.

End store.

(** ** Snapshots *)

Section snapshots.
Context {N : Type} `{Number N}.
Context {attribute_Set : Type} `{Countable attribute_Set}.

Implicit Types (h : heap) (now : Time) (q : loc).
Implicit Types (vals : gmap attribute_Set (aggregate.buckets N)).
Implicit Types (dps : list (metricdata.HistogramDataPoint N attribute_Set)).

Lemma size_zero_empty vals : size vals = 0%nat ↔ vals = ∅.
Proof. apply map_size_empty_iff. Qed.

(** The loop of the delta snapshot: one data point per entry, in order,
    each referring to the counts of its accumulator; every visited entry
    is deleted. *)
Lemma delta_range_spec (s : aggregate.deltaHistogram.t N attribute_Set) now q
    (l : list (attribute_Set * aggregate.buckets N)) dps0 vals0 :
  ∃ dps vals,
    foldl (aggregate.deltaHistogram.range_body s now q) (dps0, vals0) l
      = (dps0 ++ dps, vals) ∧
    Forall2 (fun dp ab =>
               reports (aggregate.deltaHistogram.start s)
                 (aggregate.deltaHistogram.noMinMax s) now q dp ab ∧
               metricdata.BucketCounts dp = aggregate.counts ab.2) dps l ∧
    ∀ k, vals !! k = if decide (k ∈ l.*1) then None else vals0 !! k.
Proof.
  revert dps0 vals0. induction l as [|[a b] l IH]; intros dps0 vals0.
  { exists [], vals0. rewrite app_nil_r. split_and!; [done|constructor|].
    intros k. by rewrite decide_False by apply not_elem_of_nil. }
  cbn [foldl]. unfold aggregate.deltaHistogram.range_body at 2.
  match goal with
  | |- context [foldl _ (?d ++ [?x], _) l] =>
      destruct (IH (d ++ [x]) (delete a vals0)) as (dps & vals & -> & Hdps & Hvals);
      exists (x :: dps), vals
  end.
  rewrite <- app_assoc. split_and!; [done| |].
  - constructor; [|done]. by repeat split.
  - intros k. rewrite Hvals. rewrite fmap_cons. cbn [fst].
    destruct (decide (k ∈ l.*1)) as [Hin|Hnin].
    + by rewrite decide_True by set_solver.
    + destruct (decide (k = a)) as [->|Hne].
      * rewrite lookup_delete_eq. by rewrite decide_True by set_solver.
      * rewrite lookup_delete_ne by done. by rewrite decide_False by set_solver.
Qed.

(** The delta snapshot of a store with data. *)
Lemma delta_Aggregation_spec (boundaries : list float64)
    (s : aggregate.deltaHistogram.t N attribute_Set) now h :
  store_ok boundaries (aggregate.deltaHistogram.histValues s) h →
  aggregate.values (aggregate.deltaHistogram.histValues s) ≠ ∅ →
  ∃ dps,
    aggregate.deltaHistogram.Aggregation s now h =
    Some ((Some {| metricdata.DataPoints := dps;
                   metricdata.Temporality_ := metricdata.DeltaTemporality |},
           aggregate.deltaHistogram.Make
             (aggregate.HistValues
                (aggregate.bounds (aggregate.deltaHistogram.histValues s)) ∅)
             (aggregate.deltaHistogram.noMinMax s) now),
          Heap (u64s h)
               (<[fresh (dom (f64s h)) := sort.Float64s boundaries]> (f64s h))) ∧
    Forall2 (fun dp ab =>
               reports (aggregate.deltaHistogram.start s)
                 (aggregate.deltaHistogram.noMinMax s) now
                 (fresh (dom (f64s h))) dp ab ∧
               metricdata.BucketCounts dp = aggregate.counts ab.2)
            dps (map_to_list (aggregate.values (aggregate.deltaHistogram.histValues s))).
Proof.
  intros (Hbs & _ & _) Hne.
  unfold aggregate.deltaHistogram.Aggregation.
  rewrite decide_False by by rewrite size_zero_empty.
  unfold bind at 1, load_f64. rewrite Hbs.
  rewrite (make_copy_f64 _ _ _ h Hbs).
  destruct (delta_range_spec s now (fresh (dom (f64s h)))
              (map_to_list (aggregate.values (aggregate.deltaHistogram.histValues s)))
              [] (aggregate.values (aggregate.deltaHistogram.histValues s)))
    as (dps & vals & -> & Hdps & Hvals).
  exists dps. split; [|done]. simpl. unfold ret. do 5 f_equal.
  apply map_eq. intros k. rewrite Hvals, lookup_empty.
  case_decide as Hk; [done|].
  apply not_elem_of_dom. intros Hdom. apply Hk.
  apply elem_of_dom in Hdom as [b Hb].
  apply list_elem_of_fmap. exists (k, b). split; [done|]. by apply elem_of_map_to_list.
Qed.

(** A snapshot of a store without data is the nil aggregation, and nothing
    changes. *)
Lemma delta_Aggregation_empty (s : aggregate.deltaHistogram.t N attribute_Set) now h :
  aggregate.values (aggregate.deltaHistogram.histValues s) = ∅ →
  aggregate.deltaHistogram.Aggregation s now h = Some ((None, s), h).
Proof.
  intros Hempty. unfold aggregate.deltaHistogram.Aggregation.
  by rewrite decide_True by by rewrite size_zero_empty.
Qed.

Lemma cumulative_Aggregation_empty
    (s : aggregate.cumulativeHistogram.t N attribute_Set) now h :
  aggregate.values (aggregate.cumulativeHistogram.histValues s) = ∅ →
  aggregate.cumulativeHistogram.Aggregation s now h = Some ((None, s), h).
Proof.
  intros Hempty. unfold aggregate.cumulativeHistogram.Aggregation.
  by rewrite decide_True by by rewrite size_zero_empty.
Qed.

(** The loop of the cumulative snapshot: one data point per entry, in
    order, each with a new slice that holds a copy of the counts of its
    accumulator; the slices that existed before are not written. *)
Lemma cumulative_range_spec (s : aggregate.cumulativeHistogram.t N attribute_Set) now q
    (l : list (attribute_Set * aggregate.buckets N)) dps0 h :
  (∀ ab, ab ∈ l → is_Some (u64s h !! aggregate.counts ab.2)) →
  ∃ dps h',
    foldM (aggregate.cumulativeHistogram.range_body s now q) dps0 l h
      = Some (dps0 ++ dps, h') ∧
    f64s h' = f64s h ∧
    (∀ p, is_Some (u64s h !! p) → u64s h' !! p = u64s h !! p) ∧
    Forall2 (fun dp ab =>
               reports (aggregate.cumulativeHistogram.start s)
                 (aggregate.cumulativeHistogram.noMinMax s) now q dp ab ∧
               u64s h !! metricdata.BucketCounts dp = None ∧
               u64s h' !! metricdata.BucketCounts dp
                 = u64s h !! aggregate.counts ab.2) dps l ∧
    NoDup (metricdata.BucketCounts <$> dps).
Proof.
  revert dps0 h. induction l as [|[a b] l IH]; intros dps0 h Hl.
  { exists [], h. rewrite app_nil_r. split_and!; try done; constructor. }
  destruct (Hl (a, b)) as [cs Hcs]; [by left|]. simpl in Hcs.
  cbn [foldM]. unfold bind at 1.
  unfold aggregate.cumulativeHistogram.range_body at 1.
  unfold bind at 1, load_u64 at 1. rewrite Hcs.
  rewrite (make_copy_u64 _ _ _ h Hcs). unfold ret at 1.
  set (p := fresh (dom (u64s h))).
  assert (u64s h !! p = None) as Hp by apply fresh_u64s.
  match goal with
  | |- context [foldM _ (?d ++ [?x]) l ?h1] =>
      destruct (IH (d ++ [x]) h1) as (dps & h' & -> & Hf & Hold & Hdps & Hnodup);
      [|exists (x :: dps), h']
  end.
  { intros ab Hab. simpl. destruct (Hl ab) as [cs' Hcs']; [by right|].
    rewrite lookup_insert_ne; [by eexists|]. congruence. }
  simpl in Hf, Hold.
  rewrite <- app_assoc. split_and!; [done|done| | |].
  - intros r [cr Hr]. rewrite Hold.
    + rewrite lookup_insert_ne; [done|congruence].
    + rewrite lookup_insert_ne; [by eexists|congruence].
  - constructor.
    + split; [by repeat split|]. simpl. split; [done|].
      rewrite Hold by (rewrite lookup_insert_eq; by eexists).
      by rewrite lookup_insert_eq.
    + apply Forall2_same_length_lookup. split; [by eapply Forall2_length|].
      intros i dp [a' b'] Hi1 Hi2.
      destruct (Forall2_lookup_lr _ _ _ _ _ _ Hdps Hi1 Hi2) as (Hrep & Hnew & Hcopy).
      simpl in *.
      assert (metricdata.BucketCounts dp ≠ p) as Hne.
      { intros Heq. by rewrite Heq, lookup_insert_eq in Hnew. }
      rewrite lookup_insert_ne in Hnew by done.
      split_and!; [done|done|]. rewrite Hcopy.
      destruct (Hl (a', b')) as [cs' Hcs'].
      { right. by eapply list_elem_of_lookup_2. }
      simpl in Hcs'. rewrite lookup_insert_ne; [done|congruence].
  - simpl. constructor; [|done]. intros Hin.
    apply list_elem_of_fmap in Hin as (dp & Hdp & Hin).
    apply list_elem_of_lookup in Hin as [i Hi].
    destruct (Forall2_lookup_l _ _ _ _ _ Hdps Hi) as (ab & _ & _ & Hnew & _).
    simpl in Hnew. by rewrite <- Hdp, lookup_insert_eq in Hnew.
Qed.

(** The cumulative snapshot of a store with data: the aggregator itself
    is unchanged. *)
Lemma cumulative_Aggregation_spec (boundaries : list float64)
    (s : aggregate.cumulativeHistogram.t N attribute_Set) now h :
  store_ok boundaries (aggregate.cumulativeHistogram.histValues s) h →
  aggregate.values (aggregate.cumulativeHistogram.histValues s) ≠ ∅ →
  ∃ dps h',
    aggregate.cumulativeHistogram.Aggregation s now h =
    Some ((Some {| metricdata.DataPoints := dps;
                   metricdata.Temporality_ := metricdata.CumulativeTemporality |}, s),
          h') ∧
    f64s h' = <[fresh (dom (f64s h)) := sort.Float64s boundaries]> (f64s h) ∧
    (∀ p, is_Some (u64s h !! p) → u64s h' !! p = u64s h !! p) ∧
    Forall2 (fun dp ab =>
               reports (aggregate.cumulativeHistogram.start s)
                 (aggregate.cumulativeHistogram.noMinMax s) now
                 (fresh (dom (f64s h))) dp ab ∧
               u64s h !! metricdata.BucketCounts dp = None ∧
               u64s h' !! metricdata.BucketCounts dp
                 = u64s h !! aggregate.counts ab.2)
            dps (map_to_list (aggregate.values (aggregate.cumulativeHistogram.histValues s))) ∧
    NoDup (metricdata.BucketCounts <$> dps).
Proof.
  intros (Hbs & Hvals & _) Hne.
  unfold aggregate.cumulativeHistogram.Aggregation.
  rewrite decide_False by by rewrite size_zero_empty.
  unfold bind at 1, load_f64. rewrite Hbs.
  rewrite (make_copy_f64 _ _ _ h Hbs).
  unfold bind at 1.
  edestruct (cumulative_range_spec s now (fresh (dom (f64s h)))
              (map_to_list (aggregate.values (aggregate.cumulativeHistogram.histValues s)))
              []) as (dps & h' & -> & Hf & Hold & Hdps & Hnodup).
  { intros [a b] Hab. apply elem_of_map_to_list in Hab. simpl.
    destruct (Hvals a b Hab) as (cs & Hcs & _). by eexists. }
  exists dps, h'. split_and!; done.
Qed.

End snapshots.

(** ** Aggregators under arbitrary sequences of calls *)

Section aggregators.
Context {N : Type} `{Number N}.
Context {attribute_Set : Type} `{Countable attribute_Set}.

Implicit Types (g : aggregator N attribute_Set) (h : heap) (now : Time).
Implicit Types (v : N) (a : attribute_Set).

Lemma newAggregator_spec (delta : bool) (cfg : aggregation.ExplicitBucketHistogram)
    now h (boundaries : list float64) :
  f64s h !! aggregation.Boundaries cfg = Some boundaries →
  ∃ g h', newAggregator delta cfg now h = Some (g, h') ∧
          store_ok boundaries (aggregator_histValues g) h' ∧
          aggregate.values (aggregator_histValues g) = ∅ ∧
          aggregator_start g = now ∧
          aggregator_is_delta g = delta ∧
          u64s h' = u64s h.
Proof.
  intros Hp. unfold newAggregator.
  destruct delta;
    unfold aggregate.newDeltaHistogram, aggregate.newCumulativeHistogram, bind;
    rewrite (newHistValues_spec _ _ _ Hp); unfold ret;
    (eexists _, _; split; [done|]; split_and!; try done;
     apply newHistValues_store_ok).
Qed.

Lemma aggregator_Aggregate_spec g v a h :
  aggregator_Aggregate g v a h =
  match aggregate.Aggregate (aggregator_histValues g) v a h with
  | Some (hv, h') =>
      Some (match g with
            | Delta s =>
                Delta (aggregate.deltaHistogram.Make hv
                         (aggregate.deltaHistogram.noMinMax s)
                         (aggregate.deltaHistogram.start s))
            | Cumulative s =>
                Cumulative (aggregate.cumulativeHistogram.Make hv
                              (aggregate.cumulativeHistogram.noMinMax s)
                              (aggregate.cumulativeHistogram.start s))
            end, h')
  | None => None
  end.
Proof.
  destruct g as [s|s]; simpl; unfold bind, ret;
    by destruct (aggregate.Aggregate _ v a h) as [[hv h']|].
Qed.

(** Recording a measurement never panics and keeps the store in a good
    state. *)
Lemma aggregator_Aggregate_ok (boundaries : list float64) g v a h :
  store_ok boundaries (aggregator_histValues g) h →
  ∃ g' h', aggregator_Aggregate g v a h = Some (g', h') ∧
           aggregate.Aggregate (aggregator_histValues g) v a h
             = Some (aggregator_histValues g', h') ∧
           store_ok boundaries (aggregator_histValues g') h' ∧
           aggregator_start g' = aggregator_start g ∧
           aggregator_is_delta g' = aggregator_is_delta g.
Proof.
  intros Hok.
  destruct (Aggregate_store_ok boundaries _ h v a Hok) as (s' & h' & Hagg & Hok' & _).
  rewrite aggregator_Aggregate_spec, Hagg.
  eexists _, h'. split; [done|]. by destruct g.
Qed.

(** A snapshot never panics and keeps the store in a good state. *)
Lemma aggregator_Aggregation_ok (boundaries : list float64) g now h :
  store_ok boundaries (aggregator_histValues g) h →
  ∃ r g' h', aggregator_Aggregation g now h = Some ((r, g'), h') ∧
             store_ok boundaries (aggregator_histValues g') h' ∧
             aggregator_is_delta g' = aggregator_is_delta g.
Proof.
  intros Hok. assert (Hok' := Hok). destruct Hok' as (Hbs & Hvals & Hinj).
  assert (aggregate.bounds (aggregator_histValues g) ≠ fresh (dom (f64s h))) as Hq.
  { intros Heq. rewrite Heq, fresh_f64s in Hbs. done. }
  destruct g as [s|s]; simpl in *; unfold bind.
  - destruct (decide (aggregate.values (aggregate.deltaHistogram.histValues s) = ∅))
      as [Hempty|Hne].
    + rewrite delta_Aggregation_empty by done. by eexists _, _, _.
    + destruct (delta_Aggregation_spec boundaries s now h Hok Hne) as (dps & -> & _).
      eexists _, _, _. split; [done|]. split; [|done]. split_and!; simpl.
      * by rewrite lookup_insert_ne.
      * intros a b Hb. by rewrite lookup_empty in Hb.
      * intros a1 a2 b1 b2 Hb. by rewrite lookup_empty in Hb.
  - destruct (decide (aggregate.values (aggregate.cumulativeHistogram.histValues s) = ∅))
      as [Hempty|Hne].
    + rewrite cumulative_Aggregation_empty by done. by eexists _, _, _.
    + destruct (cumulative_Aggregation_spec boundaries s now h Hok Hne)
        as (dps & h' & -> & Hf & Hold & _).
      eexists _, _, _. split; [done|]. split; [|done]. split_and!; simpl.
      * rewrite Hf. by rewrite lookup_insert_ne.
      * intros a b Hb. destruct (Hvals a b Hb) as (cs & Hcs & ?).
        exists cs. split; [|done]. rewrite Hold; [done|by eexists].
      * done.
Qed.

(** Any sequence of calls runs to completion. *)
Lemma run_ok (boundaries : list float64)
    (calls : list (call N attribute_Set)) g h :
  store_ok boundaries (aggregator_histValues g) h →
  ∃ outs g' h', run g calls h = Some ((outs, g'), h') ∧
                store_ok boundaries (aggregator_histValues g') h' ∧
                aggregator_is_delta g' = aggregator_is_delta g.
Proof.
  revert g h. induction calls as [|[v a|now] calls IH]; intros g h Hok; simpl.
  - by eexists _, _, _.
  - destruct (aggregator_Aggregate_ok boundaries g v a h Hok)
      as (g1 & h1 & Hagg & _ & Hok1 & _ & Hd1).
    unfold bind. rewrite Hagg.
    destruct (IH g1 h1 Hok1) as (outs & g' & h' & -> & Hok' & Hd').
    eexists _, _, _. split; [done|]. split; [done|congruence].
  - destruct (aggregator_Aggregation_ok boundaries g now h Hok)
      as (r & g1 & h1 & Hagg & Hok1 & Hd1).
    unfold bind. rewrite Hagg. simpl.
    destruct (IH g1 h1 Hok1) as (outs & g' & h' & -> & Hok' & Hd').
    exists (r :: outs), g', h'. split; [done|]. split; [done|congruence].
Qed.

(** An aggregator that was constructed for [boundaries] and then used in
    any way is in a good state. *)
Lemma constructed_ok (delta : bool) (cfg : aggregation.ExplicitBucketHistogram)
    (now0 : Time) (boundaries : list float64)
    (calls : list (call N attribute_Set)) h :
  f64s h !! aggregation.Boundaries cfg = Some boundaries →
  ∃ outs g h',
    (do g0 <- newAggregator delta cfg now0; run g0 calls) h = Some ((outs, g), h') ∧
    store_ok boundaries (aggregator_histValues g) h' ∧
    aggregator_is_delta g = delta.
Proof.
  intros Hp.
  destruct (newAggregator_spec delta cfg now0 h boundaries Hp)
    as (g0 & h0 & Hnew & Hok0 & _ & _ & Hd0 & _).
  unfold bind. rewrite Hnew.
  destruct (run_ok boundaries calls g0 h0 Hok0) as (outs & g & h' & -> & Hok & Hd).
  eexists _, _, _. split; [done|]. split; [done|congruence].
Qed.

End aggregators.

(** ** Bucket assignment *)

Section bucket_assignment.
Context {N : Type} `{Number N}.
Context {attribute_Set : Type} `{Countable attribute_Set}.

(** What one [Aggregate] does to the per-bucket counts of its attribute
    set: the bucket whose index is the number of boundaries [b] that do not
    satisfy [b >= float64(value)] is incremented; the counts start at zero
    for a new accumulator. *)
Lemma Aggregate_bucket_counts (boundaries : list float64)
    (s s' : aggregate.histValues N attribute_Set) (h h' : heap) (v : N) (a : attribute_Set) :
  store_ok boundaries s h →
  aggregate.Aggregate s v a h = Some (s', h') →
  ∃ c, default (replicate (S (length boundaries)) 0) (bucket_counts s h a)
         !! count_not_ge boundaries (toFloat64 v) = Some c ∧
       bucket_counts s' h' a =
       Some (<[count_not_ge boundaries (toFloat64 v) := uint64_incr c]>
               (default (replicate (S (length boundaries)) 0) (bucket_counts s h a))).
Proof.
  intros Hok Hagg. unfold bucket_counts at 1 3.
  destruct (aggregate.values s !! a) as [b|] eqn:Hb.
  - destruct Hok as (Hbs & Hvals & Hinj).
    destruct (Hvals a b Hb) as (cs & Hcs & _).
    destruct (Aggregate_existing boundaries s h v a b cs) as (c & Hc & Heq);
      [by split_and!|done|done|].
    rewrite Heq in Hagg. injection Hagg as <- <-.
    exists c. rewrite Hcs. simpl. split; [done|].
    unfold bucket_counts. simpl. rewrite lookup_insert_eq. simpl.
    by rewrite lookup_insert_eq.
  - rewrite (Aggregate_new boundaries s h v a Hok Hb) in Hagg.
    injection Hagg as <- <-.
    exists 0. simpl. split.
    + apply (lookup_replicate_2 (S (length boundaries))).
      pose proof (count_not_ge_le boundaries (toFloat64 v)). lia.
    + unfold bucket_counts. simpl. rewrite lookup_insert_eq. simpl.
      by rewrite lookup_insert_eq.
Qed.

(** C1 (as amended). For a histogram aggregator of either temporality that
    was constructed with the boundary sequence [boundaries] and then used
    in any way, [Aggregate] of [v] increments, in the counts of the
    attribute set, the bucket whose index is the number of boundaries [b]
    for which [b >= float64(v)] does not hold, where [float64(v)] is the
    conversion of the measured value to float64 ([toFloat64]: the value
    itself for a float64 instrument, and the nearest float64 for an int64
    instrument). When neither [float64(v)] nor a boundary is NaN, that
    index is the number of boundaries strictly less than [float64(v)] (a
    converted value equal to a boundary falls in the lower bucket). For
    the boundaries [0, 5, 10], the float64 values -1, 0, 0.1, 5, 5.1, 10,
    11 have the indices 0, 0, 1, 1, 2, 2, 3. *)
Theorem C1_bucket_index (delta : bool) (cfg : aggregation.ExplicitBucketHistogram)
    (now0 : Time) (h : heap) (boundaries : list float64)
    (calls : list (call N attribute_Set)) (v : N) (a : attribute_Set) :
  f64s h !! aggregation.Boundaries cfg = Some boundaries →
  ∃ outs g h1 g' h',
    (do g0 <- newAggregator delta cfg now0; run g0 calls) h = Some ((outs, g), h1) ∧
    aggregator_Aggregate g v a h1 = Some (g', h') ∧
    (∃ c, default (replicate (S (length boundaries)) 0)
                  (bucket_counts (aggregator_histValues g) h1 a)
            !! count_not_ge boundaries (toFloat64 v) = Some c ∧
          bucket_counts (aggregator_histValues g') h' a =
          Some (<[count_not_ge boundaries (toFloat64 v) := uint64_incr c]>
                  (default (replicate (S (length boundaries)) 0)
                           (bucket_counts (aggregator_histValues g) h1 a)))) ∧
    (isNaN (toFloat64 v) = false →
     Forall (fun b => isNaN b = false) boundaries →
     count_not_ge boundaries (toFloat64 v) = count_less boundaries (toFloat64 v)) ∧
    map (sort.SearchFloat64s (sort.Float64s example_boundaries))
        [f64_m1; f64_0; f64_0_1; f64_5; f64_5_1; f64_10; f64_11]
      = [0; 0; 1; 1; 2; 2; 3]%nat.
Proof.
  intros Hp.
  destruct (constructed_ok delta cfg now0 boundaries calls h Hp)
    as (outs & g & h1 & Hrun & Hok & _).
  destruct (aggregator_Aggregate_ok boundaries g v a h1 Hok)
    as (g' & h' & Hagg & Hagg' & _).
  exists outs, g, h1, g', h'. split_and!; [done|done| | |].
  - by apply (Aggregate_bucket_counts boundaries _ _ _ _ _ _ Hok Hagg').
  - apply count_not_ge_less.
  - by vm_compute.
Qed.

End bucket_assignment.

(** Witness of C1: a delta histogram over [0, 5, 10], the value 5.1 for the
    attribute set "a". *)
Lemma C1_bucket_index_witness :
  f64s example_heap !! aggregation.Boundaries example_cfg = Some example_boundaries ∧
  ∃ outs g h1 g' h',
    (do g0 <- newAggregator true example_cfg 0; run g0 []) example_heap
      = Some ((outs, g), h1) ∧
    aggregator_Aggregate (N:=float64) g f64_5_1 "a"%string h1 = Some (g', h') ∧
    (∃ c, default (replicate (S (length example_boundaries)) 0)
                  (bucket_counts (aggregator_histValues g) h1 "a"%string)
            !! count_not_ge example_boundaries (toFloat64 f64_5_1) = Some c ∧
          bucket_counts (aggregator_histValues g') h' "a"%string =
          Some (<[count_not_ge example_boundaries (toFloat64 f64_5_1) := uint64_incr c]>
                  (default (replicate (S (length example_boundaries)) 0)
                           (bucket_counts (aggregator_histValues g) h1 "a"%string)))) ∧
    (isNaN (toFloat64 f64_5_1) = false →
     Forall (fun b => isNaN b = false) example_boundaries →
     count_not_ge example_boundaries (toFloat64 f64_5_1)
       = count_less example_boundaries (toFloat64 f64_5_1)) ∧
    map (sort.SearchFloat64s (sort.Float64s example_boundaries))
        [f64_m1; f64_0; f64_0_1; f64_5; f64_5_1; f64_10; f64_11]
      = [0; 0; 1; 1; 2; 2; 3]%nat.
Proof.
  split; [reflexivity|].
  apply (C1_bucket_index true example_cfg 0 example_heap example_boundaries
           [] f64_5_1 "a"%string).
  reflexivity.
Defined.

(** Counterexample to C1 as stated: NaN is a float64 value that can be
    measured. On a new histogram over [0, 5, 10], [Aggregate] of NaN
    increments the last bucket (index 3), although no boundary is strictly
    less than NaN (count 0). *)
Lemma C1_counterexample_NaN :
  count_less example_boundaries f64_NaN = 0%nat ∧
  ∃ g h',
    (do g0 <- newAggregator (N:=float64) true example_cfg 0;
     aggregator_Aggregate g0 f64_NaN "a"%string) example_heap = Some (g, h') ∧
    bucket_counts (aggregator_histValues g) h' "a"%string = Some [0; 0; 0; 1] ∧
    bucket_counts (aggregator_histValues g) h' "a"%string
      ≠ Some (<[count_less example_boundaries f64_NaN := 1]> (replicate 4 0)).
Proof.
  split; [reflexivity|].
  eexists _, _. split; [by vm_compute|]. split; [by vm_compute|].
  vm_compute. discriminate.
Qed.

(** The comparison is made after the conversion to float64, which rounds
    an int64 of magnitude above 2^53: 2^53 + 1 is converted to 2^53, as
    2^53 is, so on a histogram with the one boundary 2^53 the int64 value
    2^53 + 1 is counted in bucket 0, with 2^53, although it is greater
    than the boundary. *)
Lemma int64_is_compared_after_conversion :
  int64_to_float64 (2 ^ 53) = f64_2p53 ∧
  int64_to_float64 (2 ^ 53 + 1) = f64_2p53 ∧
  count_less [f64_2p53] (toFloat64 (2 ^ 53 + 1 : int64)) = 0%nat ∧
  ∃ g h',
    (do g0 <- newAggregator (N:=int64) true
                {| aggregation.Boundaries := 1%positive; aggregation.NoMinMax := false |} 0;
     aggregator_Aggregate g0 (2 ^ 53 + 1) "a"%string)
      (Heap ∅ {[ 1%positive := [f64_2p53] ]}) = Some (g, h') ∧
    bucket_counts (aggregator_histValues g) h' "a"%string = Some [1; 0].
Proof.
  split; [by vm_compute|]. split; [by vm_compute|]. split; [by vm_compute|].
  eexists _, _. split; by vm_compute.
Qed.

(** ** The count invariant *)

Section count_invariant.
Context {N : Type} `{Number N}.
Context {attribute_Set : Type} `{Countable attribute_Set}.

(** C6. After any sequence of calls on a histogram aggregator (so after
    every single [Aggregate] call of the sequence), the total count of
    every bucket accumulator in the store equals the sum of its per-bucket
    counts, in uint64 arithmetic. *)
Theorem C6_count_is_sum_of_bucket_counts (delta : bool)
    (cfg : aggregation.ExplicitBucketHistogram) (now0 : Time) (h : heap)
    (boundaries : list float64) (calls : list (call N attribute_Set)) :
  f64s h !! aggregation.Boundaries cfg = Some boundaries →
  ∃ outs g h',
    (do g0 <- newAggregator delta cfg now0; run g0 calls) h = Some ((outs, g), h') ∧
    ∀ a b, aggregate.values (aggregator_histValues g) !! a = Some b →
      ∃ cs, u64s h' !! aggregate.counts b = Some cs ∧
            aggregate.count b = sum_uint64 cs.
Proof.
  intros Hp.
  destruct (constructed_ok delta cfg now0 boundaries calls h Hp)
    as (outs & g & h' & Hrun & (_ & Hvals & _) & _).
  exists outs, g, h'. split; [done|].
  intros a b Hb. destruct (Hvals a b Hb) as (cs & ? & _ & ?). by exists cs.
Qed.

End count_invariant.

(** Witness of C6: five measurements for one attribute set on a cumulative
    histogram over [0, 5, 10]. *)
Lemma C6_count_is_sum_of_bucket_counts_witness :
  f64s example_heap !! aggregation.Boundaries example_cfg = Some example_boundaries ∧
  ∃ outs g h',
    (do g0 <- newAggregator (N:=int64) false example_cfg 0;
     run g0 (map (fun v => CallAggregate v "a"%string) [3; 1; 4; 1; 5]))
      example_heap = Some ((outs, g), h') ∧
    ∀ a b, aggregate.values (aggregator_histValues g) !! a = Some b →
      ∃ cs, u64s h' !! aggregate.counts b = Some cs ∧
            aggregate.count b = sum_uint64 cs.
Proof.
  split; [reflexivity|].
  apply (C6_count_is_sum_of_bucket_counts false example_cfg 0 example_heap
           example_boundaries).
  reflexivity.
Defined.

(** ** Extrema *)

#[export] Instance int64_NumberOrder : NumberOrder int64.
Proof.
  split; simpl.
  - intros x. apply Z.ltb_irrefl.
  - intros x y z. rewrite !Z.ltb_lt. lia.
Qed.

#[export] Instance float64_NumberOrder : NumberOrder float64.
Proof.
  split; simpl.
  - intros x. apply not_true_iff_false. rewrite float64_lt_key.
    unfold key_lt. lia.
  - intros x y z. rewrite !float64_lt_key. unfold key_lt.
    intros (? & ? & ?) (? & ? & ?). split_and!; [done|done|lia].
Qed.

Section extrema.
Context {N : Type} `{NumberOrder N}.
Context {attribute_Set : Type} `{Countable attribute_Set}.

Implicit Types (b : aggregate.buckets N) (v : N) (seen : list N).

Lemma extrema_of_first (p : loc) (c : uint64) (sm v : N) :
  extrema_of [v] (aggregate.Buckets p c sm v v).
Proof.
  unfold extrema_of. simpl. split_and!; [by left|by left|].
  intros x ->%list_elem_of_singleton. by rewrite lt_irrefl.
Qed.

(** [bin] keeps [min] and [max] extrema of what was observed. *)
Lemma extrema_of_binned seen b v :
  seen ≠ [] → extrema_of seen b → extrema_of (seen ++ [v]) (binned b v).
Proof.
  intros Hne (Hmin & Hmax & Hall).
  destruct (Hall _ Hmin) as [_ Hmm].
  unfold extrema_of, binned, gt. simpl.
  destruct (lt v (aggregate.min b)) eqn:Hlt; [|destruct (lt (aggregate.max b) v) eqn:Hgt].
  - assert (lt (aggregate.max b) v = false) as Hmv.
    { apply not_true_iff_false. intros Hc.
      by rewrite (lt_trans _ _ _ Hc Hlt) in Hmm. }
    split_and!; [set_solver|set_solver|].
    intros x [Hx| ->%list_elem_of_singleton]%elem_of_app.
    + destruct (Hall x Hx) as [Hx1 Hx2]. split; [|done].
      apply not_true_iff_false. intros Hc.
      by rewrite (lt_trans _ _ _ Hc Hlt) in Hx1.
    + by rewrite lt_irrefl.
  - split_and!; [set_solver|set_solver|].
    intros x [Hx| ->%list_elem_of_singleton]%elem_of_app.
    + destruct (Hall x Hx) as [Hx1 Hx2]. split; [done|].
      apply not_true_iff_false. intros Hc.
      by rewrite (lt_trans _ _ _ Hgt Hc) in Hx2.
    + by rewrite lt_irrefl.
  - split_and!; [set_solver|set_solver|].
    intros x [Hx| ->%list_elem_of_singleton]%elem_of_app; [by apply Hall|done].
Qed.

(** Further measurements for an attribute set that has an accumulator. *)
Lemma run_Aggregate_extrema (boundaries : list float64) (a : attribute_Set)
    (vs : list N) (g : aggregator N attribute_Set) (h : heap) seen b :
  store_ok boundaries (aggregator_histValues g) h →
  aggregate.values (aggregator_histValues g) !! a = Some b →
  seen ≠ [] → extrema_of seen b →
  ∃ g' h' b',
    run g (map (fun v => CallAggregate v a) vs) h = Some (([], g'), h') ∧
    aggregate.values (aggregator_histValues g') !! a = Some b' ∧
    extrema_of (seen ++ vs) b'.
Proof.
  revert g h seen b. induction vs as [|v vs IH]; intros g h seen b Hok Hb Hne Hex; simpl.
  { exists g, h, b. by rewrite app_nil_r. }
  destruct (aggregator_Aggregate_ok boundaries g v a h Hok)
    as (g1 & h1 & Hagg & Hagg' & Hok1 & _).
  unfold bind. rewrite Hagg.
  assert (Hok' := Hok). destruct Hok' as (_ & Hvals & _).
  destruct (Hvals a b Hb) as (cs & Hcs & _).
  destruct (Aggregate_existing boundaries _ h v a b cs Hok Hb Hcs) as (c & _ & Heq).
  rewrite Heq in Hagg'. injection Hagg' as Hg1 _.
  destruct (IH g1 h1 (seen ++ [v]) (binned b v)) as (g' & h' & b' & -> & Hb' & Hex').
  - done.
  - rewrite <- Hg1. simpl. by rewrite lookup_insert_eq.
  - by destruct seen.
  - by apply extrema_of_binned.
  - exists g', h', b'. by rewrite <- app_assoc in Hex'.
Qed.

(** C7 (as amended). On a histogram aggregator in any reachable state in
    which the attribute set has no accumulator (it was never observed, or
    a delta snapshot removed it), aggregating the non-empty sequence
    [v0 :: vs] under that attribute set leaves an accumulator whose [min]
    and [max] are observed values such that no observed value is less than
    [min] or greater than [max], whatever the order of the sequence. When
    the observed values are totally ordered by [<] (always for int64, and
    for float64 when none is NaN) these are the minimum and the maximum.
    They start at the first value, not at zero: for a single value,
    [min = max = v0]. *)
Theorem C7_min_max (delta : bool) (cfg : aggregation.ExplicitBucketHistogram)
    (now0 : Time) (h : heap) (boundaries : list float64)
    (calls : list (call N attribute_Set)) (a : attribute_Set) (v0 : N) (vs : list N) :
  f64s h !! aggregation.Boundaries cfg = Some boundaries →
  ∃ outs g h1,
    (do g0 <- newAggregator delta cfg now0; run g0 calls) h = Some ((outs, g), h1) ∧
    (aggregate.values (aggregator_histValues g) !! a = None →
     ∃ g' h' b,
       run g (map (fun v => CallAggregate v a) (v0 :: vs)) h1 = Some (([], g'), h') ∧
       aggregate.values (aggregator_histValues g') !! a = Some b ∧
       aggregate.min b ∈ v0 :: vs ∧ aggregate.max b ∈ v0 :: vs ∧
       (∀ x, x ∈ v0 :: vs →
             lt x (aggregate.min b) = false ∧ gt x (aggregate.max b) = false) ∧
       (vs = [] → aggregate.min b = v0 ∧ aggregate.max b = v0)).
Proof.
  intros Hp.
  destruct (constructed_ok delta cfg now0 boundaries calls h Hp)
    as (outs & g & h1 & Hrun & Hok & _).
  exists outs, g, h1. split; [done|]. intros Hnone.
  destruct (aggregator_Aggregate_ok boundaries g v0 a h1 Hok)
    as (g1 & h2 & Hagg & Hagg' & Hok1 & _).
  rewrite (Aggregate_new boundaries _ h1 v0 a Hok Hnone) in Hagg'.
  injection Hagg' as Hg1 _.
  cbn [map run]. unfold bind at 1. rewrite Hagg.
  destruct (run_Aggregate_extrema boundaries a vs g1 h2 [v0]
              (aggregate.Buckets (fresh (dom (u64s h1))) 1 (add zero v0) v0 v0))
    as (g' & h' & b & Hrun' & Hb & Hex); [done| |done|apply extrema_of_first|].
  { rewrite <- Hg1. simpl. by rewrite lookup_insert_eq. }
  exists g', h', b. split; [done|]. split; [done|].
  destruct Hex as (Hmin & Hmax & Hall). split_and!; [done|done|done|].
  intros ->. simpl in Hrun'. injection Hrun' as <- _.
  rewrite <- Hg1 in Hb. simpl in Hb. rewrite lookup_insert_eq in Hb.
  by injection Hb as <-.
Qed.

End extrema.

(** For int64, the extrema are the least and the greatest observed value. *)
Lemma extrema_of_int64 (seen : list int64) (b : aggregate.buckets int64) (x : int64) :
  extrema_of seen b → x ∈ seen → aggregate.min b ≤ x ≤ aggregate.max b.
Proof.
  intros (_ & _ & Hall) Hx. destruct (Hall x Hx) as [H1 H2]. simpl in *.
  apply Z.ltb_ge in H1, H2. lia.
Qed.

(** Witness of C7: the values 3, 1, 4, 1, 5 on a new delta histogram give
    [min = 1] and [max = 5]. *)
Lemma C7_min_max_witness :
  f64s example_heap !! aggregation.Boundaries example_cfg = Some example_boundaries ∧
  ∃ outs (g : aggregator int64 string) h1 g' h' b,
    (do g0 <- newAggregator true example_cfg 0; run g0 []) example_heap
      = Some ((outs, g), h1) ∧
    run g (map (fun v => CallAggregate v "a"%string) [3; 1; 4; 1; 5]) h1
      = Some (([], g'), h') ∧
    aggregate.values (aggregator_histValues g') !! "a"%string = Some b ∧
    aggregate.min b = 1 ∧ aggregate.max b = 5.
Proof.
  split; [reflexivity|].
  destruct (C7_min_max (N:=int64) true example_cfg 0 example_heap example_boundaries
              [] "a"%string 3 [1; 4; 1; 5] eq_refl)
    as (outs & g & h1 & Hrun & Himp).
  destruct Himp as (g' & h' & b & Hrun' & Hb & Hmin & Hmax & Hall & _).
  { vm_compute in Hrun. injection Hrun as _ <- _. reflexivity. }
  exists outs, g, h1, g', h', b. split_and!; try done.
  - assert (aggregate.min b ≤ 1 ≤ aggregate.max b) as H1.
    { apply (extrema_of_int64 [3; 1; 4; 1; 5]); [by split_and!|set_solver]. }
    set_solver by lia.
  - assert (aggregate.min b ≤ 5 ≤ aggregate.max b) as H5.
    { apply (extrema_of_int64 [3; 1; 4; 1; 5]); [by split_and!|set_solver]. }
    set_solver by lia.
Defined.

(** Counterexample to C7 as stated: NaN is not comparable with any value,
    so for the float64 values NaN and 1 the extrema depend on the order of
    the measurements. With NaN first, [min] and [max] stay NaN; with 1
    first, they stay 1. *)
Lemma C7_counterexample_NaN_order :
  let extrema (vs : list float64) :=
    match (do g0 <- newAggregator true example_cfg 0;
           run g0 (map (fun v => CallAggregate v "a"%string) vs)) example_heap with
    | Some (_, g, _) =>
        match aggregate.values (aggregator_histValues g) !! "a"%string with
        | Some b => Some (aggregate.min b, aggregate.max b)
        | None => None
        end
    | None => None
    end in
  extrema [f64_NaN; f64_1] = Some (f64_NaN, f64_NaN) ∧
  extrema [f64_1; f64_NaN] = Some (f64_1, f64_1) ∧
  extrema [f64_NaN; f64_1] ≠ extrema [f64_1; f64_NaN].
Proof. split_and!; [by vm_compute|by vm_compute|vm_compute; discriminate]. Qed.

(** The extrema do not depend on the order of the measurements, and a
    single measurement is both extrema, also when it is negative. *)
Lemma min_max_examples :
  let extrema (vs : list int64) :=
    match (do g0 <- newAggregator true example_cfg 0;
           run g0 (map (fun v => CallAggregate v "a"%string) vs)) example_heap with
    | Some (_, g, _) =>
        match aggregate.values (aggregator_histValues g) !! "a"%string with
        | Some b => Some (aggregate.min b, aggregate.max b)
        | None => None
        end
    | None => None
    end in
  extrema [3; 1; 4; 1; 5] = Some (1, 5) ∧
  extrema [5; 4; 3; 1; 1] = Some (1, 5) ∧
  extrema [1; 1; 3; 4; 5] = Some (1, 5) ∧
  extrema [1; 5; 1; 4; 3] = Some (1, 5) ∧
  extrema [-7] = Some (-7, -7) ∧
  extrema [7] = Some (7, 7).
Proof. by vm_compute. Qed.

(** ** Snapshots and temporality *)

Section temporality.
Context {N : Type} `{Number N}.
Context {attribute_Set : Type} `{Countable attribute_Set}.

Implicit Types (g : aggregator N attribute_Set) (h : heap) (now : Time).
Implicit Types (v : N) (a : attribute_Set).

(** A snapshot of an aggregator without data. *)
Lemma aggregator_Aggregation_empty g now h :
  aggregate.values (aggregator_histValues g) = ∅ →
  aggregator_Aggregation g now h = Some ((None, g), h).
Proof.
  intros Hempty. destruct g as [s|s]; simpl in *; unfold bind.
  - by rewrite delta_Aggregation_empty.
  - by rewrite cumulative_Aggregation_empty.
Qed.

(** A snapshot reports exactly the entries of the store, each once, with
    the window from the start time of the aggregator to [now]. *)
Lemma aggregator_Aggregation_reports (boundaries : list float64) g now h :
  store_ok boundaries (aggregator_histValues g) h →
  aggregate.values (aggregator_histValues g) ≠ ∅ →
  ∃ hist g' h' q noMinMax,
    aggregator_Aggregation g now h = Some ((Some hist, g'), h') ∧
    Forall2 (reports (aggregator_start g) noMinMax now q)
            (metricdata.DataPoints hist)
            (map_to_list (aggregate.values (aggregator_histValues g))) ∧
    (if aggregator_is_delta g
     then aggregate.values (aggregator_histValues g') = ∅ ∧ aggregator_start g' = now
     else g' = g).
Proof.
  intros Hok Hne. destruct g as [s|s]; simpl in *; unfold bind.
  - destruct (delta_Aggregation_spec boundaries s now h Hok Hne) as (dps & -> & Hdps).
    eexists _, _, _, _, _. split; [done|]. simpl. split; [|done].
    eapply Forall2_impl; [exact Hdps|]. by intros dp ab [? _].
  - destruct (cumulative_Aggregation_spec boundaries s now h Hok Hne)
      as (dps & h' & -> & _ & _ & Hdps & _).
    eexists _, _, _, _, _. split; [done|]. simpl. split; [|done].
    eapply Forall2_impl; [exact Hdps|]. by intros dp ab [? _].
Qed.

(** Only attribute sets that are in the store appear in a snapshot. *)
Lemma aggregator_Aggregation_attributes (boundaries : list float64) g now h r g' h' :
  store_ok boundaries (aggregator_histValues g) h →
  aggregator_Aggregation g now h = Some ((r, g'), h') →
  (∀ hist dp, r = Some hist → dp ∈ metricdata.DataPoints hist →
     is_Some (aggregate.values (aggregator_histValues g) !! metricdata.Attributes dp) ∧
     metricdata.StartTime dp = aggregator_start g) ∧
  (∀ a, aggregate.values (aggregator_histValues g) !! a = None →
        aggregate.values (aggregator_histValues g') !! a = None).
Proof.
  intros Hok Hagg.
  destruct (decide (aggregate.values (aggregator_histValues g) = ∅)) as [Hempty|Hne].
  - rewrite aggregator_Aggregation_empty in Hagg by done.
    injection Hagg as <- <- <-. split; [done|done].
  - destruct (aggregator_Aggregation_reports boundaries g now h Hok Hne)
      as (hist & g1 & h1 & q & nmm & Heq & Hdps & Hg1).
    rewrite Heq in Hagg. injection Hagg as <- <- <-. split.
    + intros hist' dp [= <-] Hdp.
      apply list_elem_of_lookup in Hdp as [i Hi].
      destruct (Forall2_lookup_l _ _ _ _ _ Hdps Hi) as ([a b] & Hab & Hrep).
      destruct Hrep as (-> & -> & _). split; [|done].
      exists b. apply elem_of_map_to_list. by eapply list_elem_of_lookup_2.
    + intros a Ha. destruct (aggregator_is_delta g).
      * destruct Hg1 as [-> _]. apply lookup_empty.
      * by subst.
Qed.

(** An attribute set without accumulator that is not observed does not
    appear in any snapshot. *)
Lemma run_not_observed (boundaries : list float64) a
    (calls : list (call N attribute_Set)) g h outs g' h' :
  store_ok boundaries (aggregator_histValues g) h →
  aggregate.values (aggregator_histValues g) !! a = None →
  (∀ v, CallAggregate v a ∉ calls) →
  run g calls h = Some ((outs, g'), h') →
  ¬ appears a outs ∧ aggregate.values (aggregator_histValues g') !! a = None.
Proof.
  revert g h outs. induction calls as [|[v a'|now] calls IH];
    intros g h outs Hok Ha Hcalls Hrun; simpl in Hrun.
  - injection Hrun as <- <- <-. split; [|done].
    intros (hist & dp & Hin & _). by apply elem_of_nil in Hin.
  - destruct (aggregator_Aggregate_ok boundaries g v a' h Hok)
      as (g1 & h1 & Hagg & Hagg' & Hok1 & _).
    unfold bind in Hrun. rewrite Hagg in Hrun.
    destruct (Aggregate_store_ok boundaries _ h v a' Hok)
      as (s' & h1' & Heq & _ & (_ & _ & _ & Hother & _)).
    rewrite Heq in Hagg'. injection Hagg' as -> ->.
    apply (IH g1 h1 outs); [done| |set_solver|done].
    rewrite Hother; [done|]. intros ->. apply (Hcalls v). by left.
  - destruct (aggregator_Aggregation_ok boundaries g now h Hok)
      as (r & g1 & h1 & Hagg & Hok1 & _).
    unfold bind in Hrun. rewrite Hagg in Hrun. simpl in Hrun.
    destruct (aggregator_Aggregation_attributes boundaries g now h r g1 h1 Hok Hagg)
      as [Hattrs Hkeep].
    destruct (run g1 calls h1) as [[[outs1 g2] h2]|] eqn:Hrun1; [|done].
    simpl in Hrun. injection Hrun as <- <- <-.
    destruct (IH g1 h1 outs1) as [Hno Hnone]; [done|by apply Hkeep|set_solver|done|].
    split; [|done].
    intros (hist & dp & Hin & Hdp & Hattr).
    apply elem_of_cons in Hin as [Hr|Hin].
    + destruct (Hattrs hist dp) as [[b Hb] _]; [done|done|]. congruence.
    + apply Hno. by exists hist, dp.
Qed.

(** C2 (as amended). A snapshot of a delta or cumulative histogram
    aggregator whose value store holds no data returns the nil
    aggregation, not an empty collection; it does not fail, and it leaves
    the aggregator and the memory as they were. *)
Theorem C2_empty_snapshot_is_nil g now h :
  aggregate.values (aggregator_histValues g) = ∅ →
  aggregator_Aggregation g now h = Some ((None, g), h).
Proof. apply aggregator_Aggregation_empty. Qed.

End temporality.

(** Witness of C2: a cumulative histogram without data. *)
Lemma C2_empty_snapshot_is_nil_witness :
  let g : aggregator int64 string :=
    Cumulative (aggregate.cumulativeHistogram.Make
                  (aggregate.HistValues 1%positive ∅) false 0) in
  aggregate.values (aggregator_histValues g) = ∅ ∧
  aggregator_Aggregation g 7 example_heap = Some ((None, g), example_heap).
Proof.
  split; [reflexivity|].
  apply (C2_empty_snapshot_is_nil (N:=int64) (attribute_Set:=string)).
  reflexivity.
Defined.

(** Counterexample to C2 as stated: the snapshot of a new delta histogram
    and of a new cumulative histogram is nil; it is not a histogram with
    an empty collection of data points. *)
Lemma C2_counterexample_nil_snapshot :
  (∃ g h', (do g0 <- newAggregator (N:=int64) (attribute_Set:=string) true example_cfg 0;
            aggregator_Aggregation g0 7) example_heap = Some ((None, g), h')) ∧
  (∃ g h', (do g0 <- newAggregator (N:=int64) (attribute_Set:=string) false example_cfg 0;
            aggregator_Aggregation g0 7) example_heap = Some ((None, g), h')) ∧
  ¬ (∃ hist g h',
       (do g0 <- newAggregator (N:=int64) (attribute_Set:=string) true example_cfg 0;
        aggregator_Aggregation g0 7) example_heap = Some ((Some hist, g), h') ∧
       metricdata.DataPoints hist = []) ∧
  ¬ (∃ hist g h',
       (do g0 <- newAggregator (N:=int64) (attribute_Set:=string) false example_cfg 0;
        aggregator_Aggregation g0 7) example_heap = Some ((Some hist, g), h') ∧
       metricdata.DataPoints hist = []).
Proof.
  split_and!.
  - eexists _, _. by vm_compute.
  - eexists _, _. by vm_compute.
  - intros (hist & g & h' & Heq & _). vm_compute in Heq. discriminate.
  - intros (hist & g & h' & Heq & _). vm_compute in Heq. discriminate.
Qed.

Section cumulative.
Context {N : Type} `{Number N}.
Context {attribute_Set : Type} `{Countable attribute_Set}.

Implicit Types (g : aggregator N attribute_Set) (h : heap) (now : Time).
Implicit Types (v : N) (a : attribute_Set).

(** [Aggregate] adds one to the count and the value to the sum of its
    attribute set. *)
Lemma Aggregate_accumulated (boundaries : list float64)
    (s s' : aggregate.histValues N attribute_Set) h h' v a :
  store_ok boundaries s h →
  aggregate.Aggregate s v a h = Some (s', h') →
  is_Some (aggregate.values s' !! a) ∧
  accumulated s' a = (uint64_incr (accumulated s a).1, add (accumulated s a).2 v).
Proof.
  intros Hok Hagg. unfold accumulated.
  destruct (aggregate.values s !! a) as [b|] eqn:Hb.
  - assert (Hok' := Hok). destruct Hok' as (_ & Hvals & _).
    destruct (Hvals a b Hb) as (cs & Hcs & _).
    destruct (Aggregate_existing boundaries s h v a b cs Hok Hb Hcs) as (c & _ & Heq).
    rewrite Heq in Hagg. injection Hagg as <- <-. simpl.
    rewrite lookup_insert_eq. by split; [eexists|].
  - rewrite (Aggregate_new boundaries s h v a Hok Hb) in Hagg.
    injection Hagg as <- <-. simpl.
    rewrite lookup_insert_eq. by split; [eexists|].
Qed.

(** Recording a measurement and then taking a snapshot: the snapshot has a
    data point for the attribute set, with the count and the sum
    accumulated so far. *)
Lemma record_then_snapshot (boundaries : list float64) g h v a now :
  store_ok boundaries (aggregator_histValues g) h →
  ∃ g1 h1 hist g2 h2 dp,
    aggregator_Aggregate g v a h = Some (g1, h1) ∧
    aggregator_Aggregation g1 now h1 = Some ((Some hist, g2), h2) ∧
    store_ok boundaries (aggregator_histValues g2) h2 ∧
    aggregator_is_delta g2 = aggregator_is_delta g ∧
    (aggregator_is_delta g = false → g2 = g1) ∧
    aggregator_start g1 = aggregator_start g ∧
    accumulated (aggregator_histValues g1) a
      = (uint64_incr (accumulated (aggregator_histValues g) a).1,
         add (accumulated (aggregator_histValues g) a).2 v) ∧
    dp ∈ metricdata.DataPoints hist ∧
    metricdata.Attributes dp = a ∧
    metricdata.StartTime dp = aggregator_start g ∧
    metricdata.Time_ dp = now ∧
    (metricdata.Count dp, metricdata.Sum dp)
      = accumulated (aggregator_histValues g1) a.
Proof.
  intros Hok.
  destruct (aggregator_Aggregate_ok boundaries g v a h Hok)
    as (g1 & h1 & Hagg & Hagg' & Hok1 & Hstart1 & Hd1).
  destruct (Aggregate_accumulated boundaries _ _ h h1 v a Hok Hagg') as [[b1 Hb1] Hacc].
  assert (aggregate.values (aggregator_histValues g1) ≠ ∅) as Hne.
  { intros Hempty. by rewrite Hempty, lookup_empty in Hb1. }
  destruct (aggregator_Aggregation_reports boundaries g1 now h1 Hok1 Hne)
    as (hist & g2 & h2 & q & nmm & Hsnap & Hdps & Hg2).
  destruct (aggregator_Aggregation_ok boundaries g1 now h1 Hok1)
    as (r' & g2' & h2' & Hsnap' & Hok2 & Hd2).
  rewrite Hsnap in Hsnap'. injection Hsnap' as <- <- <-.
  apply elem_of_map_to_list, list_elem_of_lookup in Hb1 as [i Hi].
  destruct (Forall2_lookup_r _ _ _ _ _ Hdps Hi) as (dp & Hdp & Hrep).
  destruct Hrep as (Hattr & Hst & Htime & Hcount & _ & Hsum & _). simpl in *.
  exists g1, h1, hist, g2, h2, dp. split_and!; try done.
  - congruence.
  - intros Hcum. rewrite Hd1, Hcum in Hg2. done.
  - by eapply list_elem_of_lookup_2.
  - congruence.
  - unfold accumulated.
    apply list_elem_of_lookup_2, elem_of_map_to_list in Hi. rewrite Hi.
    by rewrite Hcount, Hsum.
Qed.

(** A cumulative aggregator keeps its start time and its entries, and
    every window it reports begins at that start time. *)
Lemma run_cumulative (boundaries : list float64)
    (calls : list (call N attribute_Set)) g h outs g' h' :
  store_ok boundaries (aggregator_histValues g) h →
  aggregator_is_delta g = false →
  run g calls h = Some ((outs, g'), h') →
  aggregator_start g' = aggregator_start g ∧
  dom (aggregate.values (aggregator_histValues g))
    ⊆ dom (aggregate.values (aggregator_histValues g')) ∧
  ∀ hist dp, Some hist ∈ outs → dp ∈ metricdata.DataPoints hist →
             metricdata.StartTime dp = aggregator_start g.
Proof.
  revert g h outs. induction calls as [|[v a|now] calls IH];
    intros g h outs Hok Hcum Hrun; simpl in Hrun.
  - injection Hrun as <- <- <-. split_and!; [done|done|].
    intros hist dp Hin. by apply elem_of_nil in Hin.
  - destruct (aggregator_Aggregate_ok boundaries g v a h Hok)
      as (g1 & h1 & Hagg & Hagg' & Hok1 & Hstart1 & Hd1).
    unfold bind in Hrun. rewrite Hagg in Hrun.
    destruct (Aggregate_store_ok boundaries _ h v a Hok)
      as (s' & h1' & Heq & _ & (_ & _ & Hdom & _)).
    rewrite Heq in Hagg'. injection Hagg' as -> ->.
    destruct (IH g1 h1 outs) as (Hs & Hsub & Hall); [done|congruence|done|].
    rewrite Hstart1 in Hs, Hall. split_and!; [done| |done].
    rewrite Hdom in Hsub. set_solver.
  - destruct (aggregator_Aggregation_ok boundaries g now h Hok)
      as (r & g1 & h1 & Hagg & Hok1 & Hd1).
    unfold bind in Hrun. rewrite Hagg in Hrun. simpl in Hrun.
    destruct (aggregator_Aggregation_attributes boundaries g now h r g1 h1 Hok Hagg)
      as [Hattrs _].
    assert (g1 = g) as ->.
    { destruct (decide (aggregate.values (aggregator_histValues g) = ∅)) as [Hempty|Hne].
      - rewrite aggregator_Aggregation_empty in Hagg by done. by injection Hagg.
      - destruct (aggregator_Aggregation_reports boundaries g now h Hok Hne)
          as (hist & g2 & h2 & q & nmm & Heq & _ & Hg2).
        rewrite Hcum in Hg2. rewrite Heq in Hagg. injection Hagg as <- <- <-. done. }
    destruct (run g calls h1) as [[[outs1 g2] h2]|] eqn:Hrun1; [|done].
    simpl in Hrun. injection Hrun as <- <- <-.
    destruct (IH g h1 outs1) as (Hs & Hsub & Hall); [done|done|done|].
    split_and!; [done|done|].
    intros hist dp [Hr|Hin]%elem_of_cons Hdp.
    + by apply (Hattrs hist dp).
    + by apply (Hall hist dp).
Qed.

(** C5. A cumulative histogram aggregator that was constructed at time
    [now0] and used in any way still has the start time [now0]; every
    window it has reported starts at [now0]; a snapshot returns the
    aggregator unchanged, so no entry of the value store is removed; and
    aggregating [v1], snapshotting, aggregating [v2] under the same
    attribute set and snapshotting again gives a second snapshot with a
    data point for that attribute set whose count and sum include both
    values. *)
Theorem C5_cumulative_persistence (cfg : aggregation.ExplicitBucketHistogram)
    (now0 : Time) (h : heap) (boundaries : list float64)
    (calls : list (call N attribute_Set)) (now t1 t2 : Time) (v1 v2 : N)
    (a : attribute_Set) :
  f64s h !! aggregation.Boundaries cfg = Some boundaries →
  ∃ outs g h1,
    (do g0 <- newAggregator false cfg now0; run g0 calls) h = Some ((outs, g), h1) ∧
    aggregator_start g = now0 ∧
    (∀ hist dp, Some hist ∈ outs → dp ∈ metricdata.DataPoints hist →
                metricdata.StartTime dp = now0) ∧
    (∃ r h2, aggregator_Aggregation g now h1 = Some ((r, g), h2)) ∧
    ∃ r1 hist2 g' h' dp,
      run g [CallAggregate v1 a; CallAggregation t1;
             CallAggregate v2 a; CallAggregation t2] h1
        = Some (([r1; Some hist2], g'), h') ∧
      dp ∈ metricdata.DataPoints hist2 ∧
      metricdata.Attributes dp = a ∧
      metricdata.StartTime dp = now0 ∧
      metricdata.Count dp
        = uint64_incr (uint64_incr (accumulated (aggregator_histValues g) a).1) ∧
      metricdata.Sum dp
        = add (add (accumulated (aggregator_histValues g) a).2 v1) v2.
Proof.
  intros Hp.
  destruct (newAggregator_spec (N:=N) (attribute_Set:=attribute_Set)
              false cfg now0 h boundaries Hp)
    as (g0 & h0 & Hnew & Hok0 & _ & Hstart0 & Hd0 & _).
  destruct (run_ok boundaries calls g0 h0 Hok0) as (outs & g & h1 & Hrun & Hok & Hd).
  destruct (run_cumulative boundaries calls g0 h0 outs g h1 Hok0 Hd0 Hrun)
    as (Hstart & _ & Hall).
  rewrite Hd0 in Hd. rewrite Hstart0 in Hstart, Hall.
  exists outs, g, h1. split_and!; [|done|done| |].
  - unfold bind. by rewrite Hnew.
  - destruct (aggregator_Aggregation_ok boundaries g now h1 Hok)
      as (r & g1 & h2 & Hsnap & Hok2 & _).
    exists r, h2. rewrite Hsnap. do 3 f_equal.
    destruct (decide (aggregate.values (aggregator_histValues g) = ∅)) as [Hempty|Hne].
    + rewrite aggregator_Aggregation_empty in Hsnap by done. by injection Hsnap.
    + destruct (aggregator_Aggregation_reports boundaries g now h1 Hok Hne)
        as (hist & g2 & h3 & q & nmm & Heq & _ & Hg2).
      rewrite Hd in Hg2. rewrite Heq in Hsnap. by injection Hsnap as <- <- <-.
  - destruct (record_then_snapshot boundaries g h1 v1 a t1 Hok)
      as (g1 & h2 & hist1 & g2 & h3 & dp1 & Hagg1 & Hsnap1 & Hok2 & Hd2 & Hsame1
          & Hstart1 & Hacc1 & _).
    rewrite (Hsame1 Hd) in *.
    destruct (record_then_snapshot boundaries g1 h3 v2 a t2 Hok2)
      as (g3 & h4 & hist2 & g4 & h5 & dp & Hagg2 & Hsnap2 & _ & _ & _
          & Hstart2 & Hacc2 & Hdp & Hattr & Hst & _ & Hcs).
    exists (Some hist1), hist2, g4, h5, dp.
    cbn [run]. unfold bind. rewrite Hagg1, Hsnap1. cbn [fst snd].
    rewrite Hagg2, Hsnap2. cbn [fst snd]. unfold ret.
    rewrite Hacc2, Hacc1 in Hcs. simpl in Hcs. injection Hcs as Hc Hs.
    split_and!; try done. congruence.
Qed.

End cumulative.

(** Witness of C5: the values 3 and 4 on a new cumulative histogram. *)
Lemma C5_cumulative_persistence_witness :
  f64s example_heap !! aggregation.Boundaries example_cfg = Some example_boundaries ∧
  ∃ outs (g : aggregator int64 string) h1,
    (do g0 <- newAggregator false example_cfg 0; run g0 []) example_heap
      = Some ((outs, g), h1) ∧
    aggregator_start g = 0 ∧
    (∀ hist dp, Some hist ∈ outs → dp ∈ metricdata.DataPoints hist →
                metricdata.StartTime dp = 0) ∧
    (∃ r h2, aggregator_Aggregation g 9 h1 = Some ((r, g), h2)) ∧
    ∃ r1 hist2 g' h' dp,
      run g [CallAggregate 3 "a"%string; CallAggregation 1;
             CallAggregate 4 "a"%string; CallAggregation 2] h1
        = Some (([r1; Some hist2], g'), h') ∧
      dp ∈ metricdata.DataPoints hist2 ∧
      metricdata.Attributes dp = "a"%string ∧
      metricdata.StartTime dp = 0 ∧
      metricdata.Count dp
        = uint64_incr (uint64_incr (accumulated (aggregator_histValues g) "a"%string).1) ∧
      metricdata.Sum dp
        = add (add (accumulated (aggregator_histValues g) "a"%string).2 3) 4.
Proof.
  split; [reflexivity|].
  apply (C5_cumulative_persistence (N:=int64) (attribute_Set:=string)
           example_cfg 0 example_heap example_boundaries [] 9 1 2 3 4 "a"%string).
  reflexivity.
Defined.

Section delta.
Context {N : Type} `{Number N}.
Context {attribute_Set : Type} `{Countable attribute_Set}.

(** C4 (as amended). For a delta histogram aggregator in any reachable
    state whose value store holds data, a snapshot at time [now] reports
    every entry of the store once (in some order), with the window from
    the start time to [now]; it leaves the store empty and sets the start
    time to [now]. A
    second immediate snapshot returns the nil aggregation (not an empty
    collection, and not an error) and changes nothing. An attribute set
    that is not observed again does not appear in any later snapshot. *)
Theorem C4_delta_reset (cfg : aggregation.ExplicitBucketHistogram)
    (now0 : Time) (h : heap) (boundaries : list float64)
    (calls calls' : list (call N attribute_Set)) (now now2 : Time) (a : attribute_Set) :
  f64s h !! aggregation.Boundaries cfg = Some boundaries →
  ∃ outs g h1,
    (do g0 <- newAggregator true cfg now0; run g0 calls) h = Some ((outs, g), h1) ∧
    (aggregate.values (aggregator_histValues g) ≠ ∅ →
     ∃ hist g' h2 q noMinMax entries,
       aggregator_Aggregation g now h1 = Some ((Some hist, g'), h2) ∧
       entries ≡ₚ map_to_list (aggregate.values (aggregator_histValues g)) ∧
       Forall2 (reports (aggregator_start g) noMinMax now q)
               (metricdata.DataPoints hist) entries ∧
       aggregate.values (aggregator_histValues g') = ∅ ∧
       aggregator_start g' = now ∧
       aggregator_Aggregation g' now2 h2 = Some ((None, g'), h2) ∧
       ((∀ v, CallAggregate v a ∉ calls') →
        ∃ outs' g'' h3, run g' calls' h2 = Some ((outs', g''), h3) ∧
                        ¬ appears a outs')).
Proof.
  intros Hp.
  destruct (constructed_ok true cfg now0 boundaries calls h Hp)
    as (outs & g & h1 & Hrun & Hok & Hd).
  exists outs, g, h1. split; [done|]. intros Hne.
  destruct (aggregator_Aggregation_reports boundaries g now h1 Hok Hne)
    as (hist & g' & h2 & q & nmm & Hsnap & Hdps & Hg').
  rewrite Hd in Hg'. destruct Hg' as [Hempty Hstart].
  destruct (aggregator_Aggregation_ok boundaries g now h1 Hok)
    as (r' & g2 & h2' & Hsnap' & Hok2 & _).
  rewrite Hsnap in Hsnap'. injection Hsnap' as <- <- <-.
  exists hist, g', h2, q, nmm,
    (map_to_list (aggregate.values (aggregator_histValues g))).
  split_and!; try done.
  - by apply aggregator_Aggregation_empty.
  - intros Hcalls.
    destruct (run_ok boundaries calls' g' h2 Hok2) as (outs' & g'' & h3 & Hrun' & _).
    exists outs', g'', h3. split; [done|].
    eapply (run_not_observed boundaries a calls' g' h2); try done.
    by rewrite Hempty, lookup_empty.
Qed.

End delta.

(** Witness of C4: one measurement for "a" on a new delta histogram, a
    snapshot, a second snapshot, and then a measurement for "b" and a third
    snapshot. *)
Lemma C4_delta_reset_witness :
  f64s example_heap !! aggregation.Boundaries example_cfg = Some example_boundaries ∧
  ∃ outs (g : aggregator int64 string) h1 hist g' h2 outs' g'' h3,
    (do g0 <- newAggregator true example_cfg 0;
     run g0 [CallAggregate 3 "a"%string]) example_heap = Some ((outs, g), h1) ∧
    aggregator_Aggregation g 1 h1 = Some ((Some hist, g'), h2) ∧
    aggregate.values (aggregator_histValues g') = ∅ ∧
    aggregator_start g' = 1 ∧
    aggregator_Aggregation g' 2 h2 = Some ((None, g'), h2) ∧
    run g' [CallAggregate 4 "b"%string; CallAggregation 3] h2
      = Some ((outs', g''), h3) ∧
    ¬ appears "a"%string outs'.
Proof.
  split; [reflexivity|].
  destruct (C4_delta_reset (N:=int64) (attribute_Set:=string) example_cfg 0 example_heap
              example_boundaries [CallAggregate 3 "a"%string]
              [CallAggregate 4 "b"%string; CallAggregation 3] 1 2 "a"%string eq_refl)
    as (outs & g & h1 & Hrun & Himp).
  destruct Himp
    as (hist & g' & h2 & q & nmm & l & Hsnap & _ & _ & Hempty & Hstart & Hnil & Hlater).
  { vm_compute in Hrun. injection Hrun as _ <- _. vm_compute. discriminate. }
  destruct Hlater as (outs' & g'' & h3 & Hrun' & Hno).
  { intros v Hin. apply elem_of_cons in Hin as [Heq|Hin]; [discriminate|].
    apply elem_of_cons in Hin as [Heq|Hin]; [discriminate|]. by apply elem_of_nil in Hin. }
  by exists outs, g, h1, hist, g', h2, outs', g'', h3.
Defined.

(** Counterexample to C4 as stated: after one measurement and a snapshot
    on a new delta histogram, a second immediate snapshot returns the nil
    aggregation; it does not return a histogram with an empty collection
    of data points. *)
Lemma C4_counterexample_second_snapshot :
  (∃ hist1 g h',
     (do g0 <- newAggregator (N:=int64) (attribute_Set:=string) true example_cfg 0;
      run g0 [CallAggregate 3 "a"%string; CallAggregation 1; CallAggregation 2])
       example_heap = Some (([Some hist1; None], g), h')) ∧
  ¬ (∃ r1 hist2 g h',
       (do g0 <- newAggregator (N:=int64) (attribute_Set:=string) true example_cfg 0;
        run g0 [CallAggregate 3 "a"%string; CallAggregation 1; CallAggregation 2])
         example_heap = Some (([r1; Some hist2], g), h') ∧
       metricdata.DataPoints hist2 = []).
Proof.
  split.
  - eexists _, _, _. by vm_compute.
  - intros (r1 & hist2 & g & h' & Heq & _). vm_compute in Heq. discriminate.
Qed.

(** ** Independence of the returned data points *)

Lemma overwrite_spec (pu : loc) (cs : list uint64) (pf : loc) (bs : list float64)
    (h : heap) :
  overwrite pu cs pf bs h = Some (tt, overwritten pu cs pf bs h).
Proof. done. Qed.

Lemma dom_insert_existing {V} (m : gmap loc V) (p : loc) (x : V) :
  is_Some (m !! p) → dom (<[p := x]> m) = dom m.
Proof.
  intros Hp. rewrite dom_insert_L. apply elem_of_dom in Hp. set_solver.
Qed.

Section independence.
Context {N : Type} `{Number N}.
Context {attribute_Set : Type} `{Countable attribute_Set}.

Implicit Types (g : aggregator N attribute_Set) (h : heap) (now : Time).
Implicit Types (v : N) (a : attribute_Set).

(** One iteration of the loop of the cumulative snapshot does not read or
    write slices that the store does not own: overwriting such a slice
    beforehand or afterwards is the same. *)
Lemma cumulative_range_body_frame (s : aggregate.cumulativeHistogram.t N attribute_Set)
    now (q pu pf : loc) (cs : list uint64) (bs : list float64)
    (dps0 : list (metricdata.HistogramDataPoint N attribute_Set))
    (ab : attribute_Set * aggregate.buckets N) h :
  is_Some (u64s h !! pu) → aggregate.counts ab.2 ≠ pu →
  aggregate.cumulativeHistogram.range_body s now q dps0 ab (overwritten pu cs pf bs h) =
    match aggregate.cumulativeHistogram.range_body s now q dps0 ab h with
    | Some (dps, h') => Some (dps, overwritten pu cs pf bs h')
    | None => None
    end ∧
  ∀ dps h', aggregate.cumulativeHistogram.range_body s now q dps0 ab h = Some (dps, h') →
            is_Some (u64s h' !! pu).
Proof.
  destruct ab as [a b]. intros Hpu Hb. simpl in Hb.
  assert (fresh (dom (u64s h)) ≠ pu) as Hfresh.
  { intros Heq. destruct Hpu as [x Hx]. by rewrite <- Heq, fresh_u64s in Hx. }
  unfold aggregate.cumulativeHistogram.range_body.
  rewrite !bind_load_u64. cbn [overwritten u64s].
  rewrite lookup_insert_ne by done.
  destruct (u64s h !! aggregate.counts b) as [src|] eqn:Hsrc; [|done].
  rewrite !(make_copy_u64 _ _ _ h Hsrc).
  rewrite (make_copy_u64 _ _ _ (overwritten pu cs pf bs h));
    [|by cbn; rewrite lookup_insert_ne].
  unfold ret. cbn [overwritten u64s f64s].
  rewrite dom_insert_existing by done.
  rewrite (insert_insert_ne _ (fresh (dom (u64s h))) pu) by done.
  split; [done|]. intros dps h' [= _ <-]. cbn. by rewrite lookup_insert_ne.
Qed.

(** A loop whose iterations do not depend on a slice does not depend on
    it. *)
Lemma foldM_frame {A B} (f : A → B → M A) (P : B → Prop)
    (pu pf : loc) (cs : list uint64) (bs : list float64) :
  (∀ acc x h, P x → is_Some (u64s h !! pu) →
     f acc x (overwritten pu cs pf bs h) =
       match f acc x h with
       | Some (r, h') => Some (r, overwritten pu cs pf bs h')
       | None => None
       end ∧
     ∀ r h', f acc x h = Some (r, h') → is_Some (u64s h' !! pu)) →
  ∀ l acc h, Forall P l → is_Some (u64s h !! pu) →
    foldM f acc l (overwritten pu cs pf bs h) =
    match foldM f acc l h with
    | Some (r, h') => Some (r, overwritten pu cs pf bs h')
    | None => None
    end.
Proof.
  intros Hf l. induction l as [|x l IH]; intros acc h Hl Hpu; [done|].
  apply Forall_cons in Hl as [Hx Hl].
  destruct (Hf acc x h Hx Hpu) as [Heq Hsome].
  cbn [foldM]. unfold bind. rewrite Heq.
  destruct (f acc x h) as [[r h1]|]; [|done].
  apply IH; [done|]. by apply (Hsome r h1).
Qed.

(** The snapshot of an aggregator does not depend on slices that the
    aggregator does not own. *)
Lemma delta_Aggregation_frame (boundaries : list float64)
    (s : aggregate.deltaHistogram.t N attribute_Set) now h
    (pu pf : loc) (cs : list uint64) (bs : list float64) :
  f64s h !! aggregate.bounds (aggregate.deltaHistogram.histValues s)
    = Some (sort.Float64s boundaries) →
  is_Some (f64s h !! pf) →
  pf ≠ aggregate.bounds (aggregate.deltaHistogram.histValues s) →
  aggregate.deltaHistogram.Aggregation s now (overwritten pu cs pf bs h) =
  match aggregate.deltaHistogram.Aggregation s now h with
  | Some (r, h') => Some (r, overwritten pu cs pf bs h')
  | None => None
  end.
Proof.
  intros Hbs Hpf Hne.
  assert (fresh (dom (f64s h)) ≠ pf) as Hfresh.
  { intros Heq. destruct Hpf as [x Hx]. by rewrite <- Heq, fresh_f64s in Hx. }
  unfold aggregate.deltaHistogram.Aggregation.
  destruct (decide (size (aggregate.values (aggregate.deltaHistogram.histValues s)) = 0%nat));
    [done|].
  rewrite !bind_load_f64. cbn [overwritten f64s].
  rewrite lookup_insert_ne by done. rewrite Hbs.
  rewrite (make_copy_f64 _ _ _ h Hbs).
  rewrite (make_copy_f64 _ _ _ (overwritten pu cs pf bs h));
    [|by cbn; rewrite lookup_insert_ne].
  cbn [overwritten u64s f64s]. rewrite dom_insert_existing by done.
  destruct (foldl _ _ _) as [dps vals]. unfold ret.
  by rewrite (insert_insert_ne _ (fresh (dom (f64s h))) pf).
Qed.

Lemma cumulative_Aggregation_frame (boundaries : list float64)
    (s : aggregate.cumulativeHistogram.t N attribute_Set) now h
    (pu pf : loc) (cs : list uint64) (bs : list float64) :
  f64s h !! aggregate.bounds (aggregate.cumulativeHistogram.histValues s)
    = Some (sort.Float64s boundaries) →
  is_Some (u64s h !! pu) → is_Some (f64s h !! pf) →
  pf ≠ aggregate.bounds (aggregate.cumulativeHistogram.histValues s) →
  (∀ a b, aggregate.values (aggregate.cumulativeHistogram.histValues s) !! a = Some b →
          aggregate.counts b ≠ pu) →
  aggregate.cumulativeHistogram.Aggregation s now (overwritten pu cs pf bs h) =
  match aggregate.cumulativeHistogram.Aggregation s now h with
  | Some (r, h') => Some (r, overwritten pu cs pf bs h')
  | None => None
  end.
Proof.
  intros Hbs Hpu Hpf Hne Hcounts.
  assert (fresh (dom (f64s h)) ≠ pf) as Hfresh.
  { intros Heq. destruct Hpf as [x Hx]. by rewrite <- Heq, fresh_f64s in Hx. }
  unfold aggregate.cumulativeHistogram.Aggregation.
  destruct (decide (size (aggregate.values (aggregate.cumulativeHistogram.histValues s)) = 0%nat));
    [done|].
  rewrite !bind_load_f64. cbn [overwritten f64s].
  rewrite lookup_insert_ne by done. rewrite Hbs.
  rewrite (make_copy_f64 _ _ _ h Hbs).
  rewrite (make_copy_f64 _ _ _ (overwritten pu cs pf bs h));
    [|by cbn; rewrite lookup_insert_ne].
  cbn [overwritten u64s f64s]. rewrite dom_insert_existing by done.
  rewrite (insert_insert_ne _ (fresh (dom (f64s h))) pf) by done.
  unfold bind.
  match goal with
  | |- context [foldM ?f ?d ?l (Heap (<[pu:=cs]> ?u) (<[pf:=bs]> ?f'))] =>
      change (Heap (<[pu:=cs]> u) (<[pf:=bs]> f'))
        with (overwritten pu cs pf bs (Heap u f'));
      rewrite (foldM_frame f (fun ab => aggregate.counts ab.2 ≠ pu) pu pf cs bs)
  end.
  - by destruct (foldM _ _ _ _) as [[dps h']|].
  - intros acc ab h0 Hab Hpu0. by apply cumulative_range_body_frame.
  - apply Forall_forall. intros [a b] Hab.
    apply elem_of_map_to_list in Hab. by apply (Hcounts a).
  - done.
Qed.

Lemma aggregator_Aggregation_frame (boundaries : list float64) g now h
    (pu pf : loc) (cs : list uint64) (bs : list float64) :
  store_ok boundaries (aggregator_histValues g) h →
  is_Some (u64s h !! pu) → is_Some (f64s h !! pf) →
  pf ≠ aggregate.bounds (aggregator_histValues g) →
  (∀ a b, aggregate.values (aggregator_histValues g) !! a = Some b →
          aggregate.counts b ≠ pu) →
  aggregator_Aggregation g now (overwritten pu cs pf bs h) =
  match aggregator_Aggregation g now h with
  | Some (r, h') => Some (r, overwritten pu cs pf bs h')
  | None => None
  end.
Proof.
  intros (Hbs & _ & _) Hpu Hpf Hne Hcounts.
  destruct g as [s|s]; simpl in *; unfold bind.
  - rewrite (delta_Aggregation_frame boundaries) by done.
    by destruct (aggregate.deltaHistogram.Aggregation s now h) as [[r h']|].
  - rewrite (cumulative_Aggregation_frame boundaries) by done.
    by destruct (aggregate.cumulativeHistogram.Aggregation s now h) as [[r h']|].
Qed.

(** What a snapshot returns: every data point holds the counts that its
    accumulator had and the sorted boundaries, in slices that the
    aggregator does not use afterwards. The cumulative snapshot makes new
    slices for the counts; the delta snapshot hands over the slices of the
    accumulators, which it removes. *)
Lemma snapshot_points (boundaries : list float64) g now h r g' h' :
  store_ok boundaries (aggregator_histValues g) h →
  aggregator_Aggregation g now h = Some ((r, g'), h') →
  ∀ hist dp, r = Some hist → dp ∈ metricdata.DataPoints hist →
    (∃ b cs, aggregate.values (aggregator_histValues g) !! metricdata.Attributes dp = Some b ∧
             u64s h !! aggregate.counts b = Some cs ∧
             u64s h' !! metricdata.BucketCounts dp = Some cs ∧
             (if aggregator_is_delta g
              then metricdata.BucketCounts dp = aggregate.counts b ∧ u64s h' = u64s h
              else u64s h !! metricdata.BucketCounts dp = None)) ∧
    f64s h !! metricdata.Bounds dp = None ∧
    f64s h' !! metricdata.Bounds dp = Some (sort.Float64s boundaries) ∧
    independent_of g' h' (metricdata.BucketCounts dp) (metricdata.Bounds dp).
Proof.
  intros Hok Hsnap hist dp -> Hdp.
  assert (Hok' := Hok). destruct Hok' as (Hbs & Hvals & Hinj).
  assert (aggregate.bounds (aggregator_histValues g) ≠ fresh (dom (f64s h))) as Hq.
  { intros Heq. by rewrite Heq, fresh_f64s in Hbs. }
  destruct (decide (aggregate.values (aggregator_histValues g) = ∅)) as [Hempty|Hne].
  { rewrite aggregator_Aggregation_empty in Hsnap by done. by injection Hsnap. }
  apply list_elem_of_lookup in Hdp as [i Hi].
  destruct g as [s|s]; simpl in *; unfold bind in Hsnap.
  - destruct (delta_Aggregation_spec boundaries s now h Hok Hne) as (dps & Heq & Hdps).
    rewrite Heq in Hsnap. simpl in Hsnap. injection Hsnap as <- <- <-. simpl in *.
    destruct (Forall2_lookup_l _ _ _ _ _ Hdps Hi) as ([a b] & Hab & Hrep & Hbc).
    destruct Hrep as (Hattr & _ & _ & _ & Hbounds & _). simpl in *.
    apply list_elem_of_lookup_2, elem_of_map_to_list in Hab.
    destruct (Hvals a b Hab) as (cs & Hcs & _).
    rewrite Hattr, Hbounds, Hbc. split_and!.
    + by exists b, cs.
    + apply fresh_f64s.
    + apply lookup_insert_eq.
    + split_and!; simpl; [by eexists|rewrite lookup_insert_eq; by eexists|done|].
      intros a' b' Hb'. by rewrite lookup_empty in Hb'.
  - destruct (cumulative_Aggregation_spec boundaries s now h Hok Hne)
      as (dps & h1 & Heq & Hf & Hold & Hdps & _).
    rewrite Heq in Hsnap. simpl in Hsnap. injection Hsnap as <- <- <-. simpl in *.
    destruct (Forall2_lookup_l _ _ _ _ _ Hdps Hi) as ([a b] & Hab & Hrep & Hnew & Hcopy).
    destruct Hrep as (Hattr & _ & _ & _ & Hbounds & _). simpl in *.
    apply list_elem_of_lookup_2, elem_of_map_to_list in Hab.
    destruct (Hvals a b Hab) as (cs & Hcs & _).
    rewrite Hattr, Hbounds. split_and!.
    + exists b, cs. split_and!; [done|done| |done]. by rewrite Hcopy.
    + apply fresh_f64s.
    + rewrite Hf. apply lookup_insert_eq.
    + split_and!; simpl.
      * rewrite Hcopy. by eexists.
      * rewrite Hf, lookup_insert_eq. by eexists.
      * done.
      * intros a' b' Hb' Heq'. destruct (Hvals a' b' Hb') as (cs' & Hcs' & _).
        rewrite Heq' in Hcs'. congruence.
Qed.

(** Recording a measurement does not touch slices that the aggregator
    does not use. *)
Lemma aggregator_Aggregate_independent (boundaries : list float64) g h v a g1 h1
    (pu pf : loc) :
  store_ok boundaries (aggregator_histValues g) h →
  independent_of g h pu pf →
  aggregator_Aggregate g v a h = Some (g1, h1) →
  independent_of g1 h1 pu pf ∧
  u64s h1 !! pu = u64s h !! pu ∧ f64s h1 !! pf = f64s h !! pf.
Proof.
  intros Hok (Hpu & Hpf & Hne & Hcounts) Hagg.
  destruct (aggregator_Aggregate_ok boundaries g v a h Hok)
    as (g1' & h1' & Hagg' & Hagg'' & _).
  rewrite Hagg in Hagg'. injection Hagg' as <- <-.
  destruct (Aggregate_store_ok boundaries _ h v a Hok)
    as (s' & h1' & Heq & _ & (Hb & Hf & _ & Hother & (p & Hp1 & Hp2 & Hp3))).
  rewrite Heq in Hagg''. injection Hagg'' as -> ->.
  assert (pu ≠ p) as Hpup.
  { intros ->. destruct (aggregate.values (aggregator_histValues g) !! a) as [b|] eqn:Hab.
    - by apply (Hcounts a b).
    - destruct Hpu as [x Hx]. congruence. }
  split_and!.
  - split_and!.
    + by rewrite Hp3.
    + by rewrite Hf.
    + by rewrite Hb.
    + intros a' b' Hb'. destruct (decide (a' = a)) as [->|Hne'].
      * rewrite (Hp1 b' Hb'). done.
      * rewrite Hother in Hb' by done. by apply (Hcounts a').
  - by apply Hp3.
  - by rewrite Hf.
Qed.

(** A snapshot does not touch slices that the aggregator does not use. *)
Lemma aggregator_Aggregation_independent (boundaries : list float64) g now h r g1 h1
    (pu pf : loc) :
  store_ok boundaries (aggregator_histValues g) h →
  independent_of g h pu pf →
  aggregator_Aggregation g now h = Some ((r, g1), h1) →
  independent_of g1 h1 pu pf ∧
  u64s h1 !! pu = u64s h !! pu ∧ f64s h1 !! pf = f64s h !! pf.
Proof.
  intros Hok (Hpu & Hpf & Hne & Hcounts) Hsnap.
  assert (Hok' := Hok). destruct Hok' as (Hbs & Hvals & Hinj).
  assert (fresh (dom (f64s h)) ≠ pf) as Hfresh.
  { intros Heq. destruct Hpf as [x Hx]. by rewrite <- Heq, fresh_f64s in Hx. }
  destruct (decide (aggregate.values (aggregator_histValues g) = ∅)) as [Hempty|Hnempty].
  { rewrite aggregator_Aggregation_empty in Hsnap by done.
    injection Hsnap as <- <- <-. by split_and!. }
  destruct g as [s|s]; simpl in *; unfold bind in Hsnap.
  - destruct (delta_Aggregation_spec boundaries s now h Hok Hnempty) as (dps & Heq & _).
    rewrite Heq in Hsnap. simpl in Hsnap. injection Hsnap as <- <- <-.
    unfold independent_of. simpl.
    split_and!; rewrite ?lookup_insert_ne by done; done.
  - destruct (cumulative_Aggregation_spec boundaries s now h Hok Hnempty)
      as (dps & h' & Heq & Hf & Hold & _).
    rewrite Heq in Hsnap. simpl in Hsnap. injection Hsnap as <- <- <-.
    unfold independent_of. simpl.
    split_and!; rewrite ?Hf, ?lookup_insert_ne, ?Hold by done; done.
Qed.

(** No later use of the aggregator touches such slices. *)
Lemma run_independent (boundaries : list float64)
    (calls : list (call N attribute_Set)) g h outs g' h' (pu pf : loc) :
  store_ok boundaries (aggregator_histValues g) h →
  independent_of g h pu pf →
  run g calls h = Some ((outs, g'), h') →
  u64s h' !! pu = u64s h !! pu ∧ f64s h' !! pf = f64s h !! pf.
Proof.
  revert g h outs. induction calls as [|[v a|now] calls IH];
    intros g h outs Hok Hind Hrun; simpl in Hrun.
  - by injection Hrun as <- <- <-.
  - destruct (aggregator_Aggregate_ok boundaries g v a h Hok)
      as (g1 & h1 & Hagg & _ & Hok1 & _).
    unfold bind in Hrun. rewrite Hagg in Hrun.
    destruct (aggregator_Aggregate_independent boundaries g h v a g1 h1 pu pf
                Hok Hind Hagg) as (Hind1 & <- & <-).
    by apply (IH g1 h1 outs).
  - destruct (aggregator_Aggregation_ok boundaries g now h Hok)
      as (r & g1 & h1 & Hagg & Hok1 & _).
    unfold bind in Hrun. rewrite Hagg in Hrun. simpl in Hrun.
    destruct (aggregator_Aggregation_independent boundaries g now h r g1 h1 pu pf
                Hok Hind Hagg) as (Hind1 & <- & <-).
    destruct (run g1 calls h1) as [[[outs1 g2] h2]|] eqn:Hrun1; [|done].
    simpl in Hrun. injection Hrun as <- <- <-.
    by apply (IH g1 h1 outs1).
Qed.

(** C3 (as amended). Take a snapshot of a delta or cumulative histogram
    aggregator in any reachable state. Every returned data point holds, in
    its bucket counts, the counts that its accumulator had, and in its
    bounds, what the slice of boundaries of the aggregator holds: a
    permutation of the configured boundaries in which no element is [Less]
    than an earlier one. Neither slice is used by the aggregator after the
    snapshot: the bounds are always a new slice; the counts are a new
    slice for a cumulative snapshot, which leaves the accumulator in the
    store, and for a delta snapshot they are the slice of the accumulator
    itself, which is removed from the store.
    Consequently, when the client overwrites both slices, a subsequent
    snapshot returns what it would have returned and its data points hold
    what they would have held; and whatever is done with the aggregator
    afterwards leaves the contents of both slices as they are. *)
Theorem C3_returned_points_independent (delta : bool)
    (cfg : aggregation.ExplicitBucketHistogram) (now0 : Time) (h : heap)
    (boundaries : list float64) (calls calls' : list (call N attribute_Set))
    (now now' : Time) (cs' : list uint64) (bs' : list float64) :
  f64s h !! aggregation.Boundaries cfg = Some boundaries →
  ∃ outs g h1 r g' h2,
    (do g0 <- newAggregator delta cfg now0; run g0 calls) h = Some ((outs, g), h1) ∧
    aggregator_Aggregation g now h1 = Some ((r, g'), h2) ∧
    ∀ hist dp, r = Some hist → dp ∈ metricdata.DataPoints hist →
      (∃ b cs,
         aggregate.values (aggregator_histValues g) !! metricdata.Attributes dp = Some b ∧
         u64s h1 !! aggregate.counts b = Some cs ∧
         u64s h2 !! metricdata.BucketCounts dp = Some cs ∧
         if delta
         then metricdata.BucketCounts dp = aggregate.counts b ∧
              aggregate.values (aggregator_histValues g') !! metricdata.Attributes dp = None
         else u64s h1 !! metricdata.BucketCounts dp = None ∧
              aggregate.values (aggregator_histValues g') !! metricdata.Attributes dp
                = Some b) ∧
      (∃ bs,
         f64s h2 !! metricdata.Bounds dp = Some bs ∧
         f64s h1 !! aggregate.bounds (aggregator_histValues g) = Some bs ∧
         f64s h2 !! aggregate.bounds (aggregator_histValues g') = Some bs ∧
         bs ≡ₚ boundaries ∧
         ∀ i j x y, (i < j)%nat → bs !! i = Some x → bs !! j = Some y →
                    sort.Float64Slice_Less y x = false) ∧
      f64s h1 !! metricdata.Bounds dp = None ∧
      (delta = false → u64s h1 !! metricdata.BucketCounts dp = None) ∧
      independent_of g' h2 (metricdata.BucketCounts dp) (metricdata.Bounds dp) ∧
      (∃ r2 g2 h3,
         aggregator_Aggregation g' now' h2 = Some ((r2, g2), h3) ∧
         (overwrite (metricdata.BucketCounts dp) cs' (metricdata.Bounds dp) bs' ;;
          aggregator_Aggregation g' now') h2
           = Some ((r2, g2),
                   overwritten (metricdata.BucketCounts dp) cs'
                               (metricdata.Bounds dp) bs' h3) ∧
         ∀ hist2 dp2, r2 = Some hist2 → dp2 ∈ metricdata.DataPoints hist2 →
           u64s (overwritten (metricdata.BucketCounts dp) cs'
                             (metricdata.Bounds dp) bs' h3)
             !! metricdata.BucketCounts dp2
             = u64s h3 !! metricdata.BucketCounts dp2 ∧
           f64s (overwritten (metricdata.BucketCounts dp) cs'
                             (metricdata.Bounds dp) bs' h3)
             !! metricdata.Bounds dp2
             = f64s h3 !! metricdata.Bounds dp2) ∧
      (∃ outs' g'' h3,
         run g' calls' h2 = Some ((outs', g''), h3) ∧
         u64s h3 !! metricdata.BucketCounts dp = u64s h2 !! metricdata.BucketCounts dp ∧
         f64s h3 !! metricdata.Bounds dp = f64s h2 !! metricdata.Bounds dp).
Proof.
  intros Hp.
  destruct (constructed_ok delta cfg now0 boundaries calls h Hp)
    as (outs & g & h1 & Hrun & Hok & Hd).
  destruct (aggregator_Aggregation_ok boundaries g now h1 Hok)
    as (r & g' & h2 & Hsnap & Hok2 & Hd2).
  exists outs, g, h1, r, g', h2. split; [done|]. split; [done|].
  intros hist dp Hr Hdp.
  destruct (snapshot_points boundaries g now h1 r g' h2 Hok Hsnap hist dp Hr Hdp)
    as ((b & cs & Hb & Hcs & Hcs2 & Hkind) & Hfresh & Hbounds & Hind).
  assert (aggregate.values (aggregator_histValues g) ≠ ∅) as Hne.
  { intros Hempty. by rewrite Hempty, lookup_empty in Hb. }
  destruct (aggregator_Aggregation_reports boundaries g now h1 Hok Hne)
    as (hist' & g1 & h1' & q & nmm & Heq & _ & Hg1).
  rewrite Heq in Hsnap. injection Hsnap as <- <- <-.
  rewrite Hd in Hkind, Hg1.
  split_and!; try done.
  - exists b, cs. split_and!; [done|done|done|].
    destruct delta.
    + destruct Hkind as [Hbc _], Hg1 as [Hempty _].
      split; [done|]. by rewrite Hempty, lookup_empty.
    + by subst g1.
  - exists (sort.Float64s boundaries).
    destruct Hok as (Hbs & _), Hok2 as (Hbs2 & _).
    split_and!; [done|done|done|apply Float64s_Permutation|].
    intros i j x y Hij Hx Hy. apply Less_false_key. change (not_after x y).
    by eapply (StronglySorted_lookup_le not_after (sort.Float64s boundaries) i j);
      [apply Float64s_sorted| | |].
  - intros ->. done.
  - destruct (aggregator_Aggregation_ok boundaries g1 now' h1' Hok2)
      as (r2 & g2 & h3 & Hsnap2 & _).
    exists r2, g2, h3. split; [done|]. split.
    + unfold bind at 1. rewrite overwrite_spec.
      destruct Hind as (Hpu & Hpf & Hne' & Hcounts).
      rewrite (aggregator_Aggregation_frame boundaries) by done.
      by rewrite Hsnap2.
    + intros hist2 dp2 Hr2 Hdp2.
      destruct (snapshot_points boundaries g1 now' h1' r2 g2 h3 Hok2 Hsnap2 hist2 dp2
                  Hr2 Hdp2) as ((b2 & cs2 & Hb2 & Hcs2' & _ & Hkind2) & Hfresh2 & _).
      destruct Hind as (Hpu & Hpf & Hne' & Hcounts). cbn [overwritten u64s f64s].
      split; rewrite lookup_insert_ne; try done.
      * destruct (aggregator_is_delta g1).
        -- destruct Hkind2 as [-> _]. intros Heq'. by apply (Hcounts _ b2 Hb2).
        -- intros Heq'. destruct Hpu as [x Hx]. congruence.
      * intros Heq'. destruct Hpf as [x Hx]. congruence.
  - destruct (run_ok boundaries calls' g1 h1' Hok2) as (outs' & g'' & h3 & Hrun' & _).
    exists outs', g'', h3. split; [done|].
    by apply (run_independent boundaries calls' g1 h1' outs' g'' h3).
Qed.

End independence.

(** Witness of C3: a cumulative histogram with one measurement. *)
Lemma C3_returned_points_independent_witness :
  f64s example_heap !! aggregation.Boundaries example_cfg = Some example_boundaries ∧
  ∃ outs (g : aggregator int64 string) h1 r g' h2,
    (do g0 <- newAggregator false example_cfg 0; run g0 [CallAggregate 3 "a"%string])
      example_heap = Some ((outs, g), h1) ∧
    aggregator_Aggregation g 1 h1 = Some ((r, g'), h2) ∧
    ∀ hist dp, r = Some hist → dp ∈ metricdata.DataPoints hist →
      (∃ b cs,
         aggregate.values (aggregator_histValues g) !! metricdata.Attributes dp = Some b ∧
         u64s h1 !! aggregate.counts b = Some cs ∧
         u64s h2 !! metricdata.BucketCounts dp = Some cs ∧
         u64s h1 !! metricdata.BucketCounts dp = None ∧
         aggregate.values (aggregator_histValues g') !! metricdata.Attributes dp
           = Some b) ∧
      (∃ bs,
         f64s h2 !! metricdata.Bounds dp = Some bs ∧
         f64s h1 !! aggregate.bounds (aggregator_histValues g) = Some bs ∧
         f64s h2 !! aggregate.bounds (aggregator_histValues g') = Some bs ∧
         bs ≡ₚ example_boundaries ∧
         ∀ i j x y, (i < j)%nat → bs !! i = Some x → bs !! j = Some y →
                    sort.Float64Slice_Less y x = false) ∧
      f64s h1 !! metricdata.Bounds dp = None ∧
      (false = false → u64s h1 !! metricdata.BucketCounts dp = None) ∧
      independent_of g' h2 (metricdata.BucketCounts dp) (metricdata.Bounds dp) ∧
      (∃ r2 g2 h3,
         aggregator_Aggregation g' 2 h2 = Some ((r2, g2), h3) ∧
         (overwrite (metricdata.BucketCounts dp) [9; 9; 9; 9] (metricdata.Bounds dp) [] ;;
          aggregator_Aggregation g' 2) h2
           = Some ((r2, g2),
                   overwritten (metricdata.BucketCounts dp) [9; 9; 9; 9]
                               (metricdata.Bounds dp) [] h3) ∧
         ∀ hist2 dp2, r2 = Some hist2 → dp2 ∈ metricdata.DataPoints hist2 →
           u64s (overwritten (metricdata.BucketCounts dp) [9; 9; 9; 9]
                             (metricdata.Bounds dp) [] h3)
             !! metricdata.BucketCounts dp2
             = u64s h3 !! metricdata.BucketCounts dp2 ∧
           f64s (overwritten (metricdata.BucketCounts dp) [9; 9; 9; 9]
                             (metricdata.Bounds dp) [] h3)
             !! metricdata.Bounds dp2
             = f64s h3 !! metricdata.Bounds dp2) ∧
      (∃ outs' g'' h3,
         run g' [CallAggregate 4 "a"%string] h2 = Some ((outs', g''), h3) ∧
         u64s h3 !! metricdata.BucketCounts dp = u64s h2 !! metricdata.BucketCounts dp ∧
         f64s h3 !! metricdata.Bounds dp = f64s h2 !! metricdata.Bounds dp).
Proof.
  split; [reflexivity|].
  apply (C3_returned_points_independent (N:=int64) (attribute_Set:=string)
           false example_cfg 0 example_heap example_boundaries
           [CallAggregate 3 "a"%string] [CallAggregate 4 "a"%string]
           1 2 [9; 9; 9; 9] []).
  reflexivity.
Defined.

(** Counterexample to C3 as stated: the bucket counts of a data point of a
    delta snapshot are not a duplicate. They are the very slice that the
    accumulator used (which the snapshot removes from the store), and the
    snapshot makes no new slice of counts. *)
Lemma C3_counterexample_delta_hands_over :
  ∃ (g : aggregator int64 string) h1 b hist g' h2 dp,
    (do g0 <- newAggregator true example_cfg 0;
     aggregator_Aggregate g0 3 "a"%string) example_heap = Some (g, h1) ∧
    aggregate.values (aggregator_histValues g) !! "a"%string = Some b ∧
    aggregator_Aggregation g 1 h1 = Some ((Some hist, g'), h2) ∧
    metricdata.DataPoints hist = [dp] ∧
    metricdata.BucketCounts dp = aggregate.counts b ∧
    u64s h2 = u64s h1.
Proof.
  eexists _, _, _, _, _, _, _. split; [by vm_compute|].
  split; [by vm_compute|]. split; [by vm_compute|].
  split; [reflexivity|]. split; reflexivity.
Qed.

(** ** Instruments *)

Section instrument_calls.
Context {W attribute_Set AddOption RecordOption : Type}.
Context (NewAddConfig_Attributes : list AddOption → attribute_Set).
Context (NewRecordConfig_Attributes : list RecordOption → attribute_Set).

(** Running the traced measures runs the measures in order and logs one
    call of each, in order. *)
Lemma range_measures_traced {N} (ms : list (aggregate.Measure W N attribute_Set))
    (ctx : context.Context) (val : N) (s : attribute_Set) (n : nat) (w : W)
    (log : list (nat * N * attribute_Set)) :
  metric.range_measures (imap (fun i => traced (n + i)) ms) ctx val s (w, log) =
  (metric.range_measures ms ctx val s w,
   log ++ map (fun i => (i, val, s)) (seq n (length ms))).
Proof.
  unfold metric.range_measures.
  revert n w log. induction ms as [|m ms IH]; intros n w log.
  { simpl. by rewrite app_nil_r. }
  cbn [imap foldl length seq map].
  rewrite (imap_ext _ (fun i => traced (S n + i)))
    by (intros i x _; simpl; f_equal; lia).
  unfold traced at 1. cbn [fst snd].
  rewrite IH, <- app_assoc. by replace (n + 0)%nat with n by lia.
Qed.

(** C8. Add and Record on the int64 and on the float64 instrument: when
    the context is already canceled or past its deadline ([ctx.Err()] is
    not nil), nothing changes and no measure is invoked; otherwise every
    registered measure is invoked exactly once, in registration order,
    with the recorded value and the attribute set of the options, and the
    effect is that of running the measures one after the other. *)
Theorem C8_instrument_fan_out
    (mi : list (aggregate.Measure W int64 attribute_Set))
    (mf : list (aggregate.Measure W float64 attribute_Set))
    (ctx : context.Context) (vi : int64) (vf : float64)
    (aopts : list AddOption) (ropts : list RecordOption) (w : W) :
  let i := {| metric.int64Inst_measures := imap traced mi |} in
  let f := {| metric.float64Inst_measures := imap traced mf |} in
  let sa := NewAddConfig_Attributes aopts in
  let sr := NewRecordConfig_Attributes ropts in
  metric.int64Inst_Add NewAddConfig_Attributes i ctx vi aopts (w, []) =
    match context.Err ctx with
    | Some _ => (w, [])
    | None => (metric.range_measures mi ctx vi sa w, each_once (length mi) vi sa)
    end ∧
  metric.int64Inst_Record NewRecordConfig_Attributes i ctx vi ropts (w, []) =
    match context.Err ctx with
    | Some _ => (w, [])
    | None => (metric.range_measures mi ctx vi sr w, each_once (length mi) vi sr)
    end ∧
  metric.float64Inst_Add NewAddConfig_Attributes f ctx vf aopts (w, []) =
    match context.Err ctx with
    | Some _ => (w, [])
    | None => (metric.range_measures mf ctx vf sa w, each_once (length mf) vf sa)
    end ∧
  metric.float64Inst_Record NewRecordConfig_Attributes f ctx vf ropts (w, []) =
    match context.Err ctx with
    | Some _ => (w, [])
    | None => (metric.range_measures mf ctx vf sr w, each_once (length mf) vf sr)
    end.
Proof.
  unfold metric.int64Inst_Add, metric.int64Inst_Record, metric.float64Inst_Add,
    metric.float64Inst_Record, metric.int64Inst_aggregate, metric.float64Inst_aggregate,
    each_once.
  simpl. destruct (context.Err ctx); [done|].
  split_and!.
  - exact (range_measures_traced mi ctx vi _ 0 w []).
  - exact (range_measures_traced mi ctx vi _ 0 w []).
  - exact (range_measures_traced mf ctx vf _ 0 w []).
  - exact (range_measures_traced mf ctx vf _ 0 w []).
Qed.

End instrument_calls.

Section registration.
Context {W attribute_Set : Type}.
Context (strconv_Quote : string → string).

(** C9. [registerable] makes two checks, in this order. It fails with the
    no-aggregators error when the observable has no measure, whatever the
    scope. When it has at least one measure and the registering scope
    differs from the scope it was created under, it fails with an error
    whose message names the observable, the name of the creation scope and
    the name of the registering scope. When it has at least one measure
    and the scopes are equal, it returns nil. *)
Theorem C9_registerable {N} (o : metric.observable W attribute_Set N)
    (s : instrumentation.Scope) :
  (length (metric.observable_measures o) = 0%nat →
   metric.registerable strconv_Quote o s = Some metric.errEmptyAgg) ∧
  (length (metric.observable_measures o) ≠ 0%nat →
   s ≠ metric.scope (metric.observable_observablID o) →
   metric.registerable strconv_Quote o s =
   Some (metric.fmt_Errorf
           ("invalid registration: observable "
              +:+ strconv_Quote (metric.name (metric.observable_observablID o))
              +:+ " from Meter "
              +:+ strconv_Quote (instrumentation.Name
                                   (metric.scope (metric.observable_observablID o)))
              +:+ ", registered with Meter "
              +:+ strconv_Quote (instrumentation.Name s)))) ∧
  (length (metric.observable_measures o) ≠ 0%nat →
   s = metric.scope (metric.observable_observablID o) →
   metric.registerable strconv_Quote o s = None).
Proof.
  unfold metric.registerable. split_and!.
  - intros Hlen. by rewrite decide_True.
  - intros Hlen Hs. by rewrite decide_False, decide_True.
  - intros Hlen Hs. rewrite decide_False by done. by rewrite decide_False by naive_solver.
Qed.

End registration.

(** Witness of C9: the three outcomes of [registerable]. *)
Lemma C9_registerable_witness :
  metric.registerable plain_Quote observable_without_measures scope_a
    = Some metric.errEmptyAgg ∧
  metric.registerable plain_Quote observable_with_measure scope_b
    = Some (metric.fmt_Errorf
              ("invalid registration: observable " +:+ plain_Quote "gauge"
                 +:+ " from Meter " +:+ plain_Quote "meter-a"
                 +:+ ", registered with Meter " +:+ plain_Quote "meter-b")) ∧
  metric.registerable plain_Quote observable_with_measure scope_a = None.
Proof.
  split_and!.
  - apply (C9_registerable plain_Quote observable_without_measures scope_a).
    reflexivity.
  - apply (C9_registerable plain_Quote observable_with_measure scope_b);
      [discriminate|discriminate].
  - apply (C9_registerable plain_Quote observable_with_measure scope_a);
      [discriminate|reflexivity].
Defined.

(** Witness of C8: an int64 instrument with two measures that count their
    calls. A live context reaches both, in order; a canceled context and
    one past its deadline reach neither. *)
Lemma C8_instrument_fan_out_witness :
  let count_calls : aggregate.Measure nat int64 string := fun _ _ _ n => S n in
  let i := {| metric.int64Inst_measures := imap traced [count_calls; count_calls] |} in
  let attrs (_ : list unit) : string := "a"%string in
  metric.int64Inst_Add attrs i {| context.Err := None |} 7 [] (0%nat, [])
    = (2%nat, [(0%nat, 7, "a"%string); (1%nat, 7, "a"%string)]) ∧
  metric.int64Inst_Add attrs i {| context.Err := Some context.Canceled |} 7 []
    (0%nat, []) = (0%nat, []) ∧
  metric.int64Inst_Add attrs i {| context.Err := Some context.DeadlineExceeded |} 7 []
    (0%nat, []) = (0%nat, []).
Proof.
  intros count_calls i attrs. split_and!.
  - exact (proj1 (C8_instrument_fan_out attrs attrs [count_calls; count_calls] []
                    {| context.Err := None |} 7 f64_0 [] [] 0%nat)).
  - exact (proj1 (C8_instrument_fan_out attrs attrs [count_calls; count_calls] []
                    {| context.Err := Some context.Canceled |} 7 f64_0 [] [] 0%nat)).
  - exact (proj1 (C8_instrument_fan_out attrs attrs [count_calls; count_calls] []
                    {| context.Err := Some context.DeadlineExceeded |} 7 f64_0 [] [] 0%nat)).
Defined.

(** * Further properties of the code *)

(** ** Instrument matching *)

Lemma Instrument_matches_spec (i other : metric.Instrument.t) :
  metric.Instrument.matches i other = true ↔
  (metric.Instrument.Name i = EmptyString
   ∨ metric.Instrument.Name i = metric.Instrument.Name other) ∧
  (metric.Instrument.Description i = EmptyString
   ∨ metric.Instrument.Description i = metric.Instrument.Description other) ∧
  (metric.Instrument.Kind i = metric.zeroInstrumentKind
   ∨ metric.Instrument.Kind i = metric.Instrument.Kind other) ∧
  (metric.Instrument.Unit i = EmptyString
   ∨ metric.Instrument.Unit i = metric.Instrument.Unit other) ∧
  (instrumentation.Name (metric.Instrument.Scope i) = EmptyString
   ∨ instrumentation.Name (metric.Instrument.Scope i)
     = instrumentation.Name (metric.Instrument.Scope other)) ∧
  (instrumentation.Version (metric.Instrument.Scope i) = EmptyString
   ∨ instrumentation.Version (metric.Instrument.Scope i)
     = instrumentation.Version (metric.Instrument.Scope other)) ∧
  (instrumentation.SchemaURL (metric.Instrument.Scope i) = EmptyString
   ∨ instrumentation.SchemaURL (metric.Instrument.Scope i)
     = instrumentation.SchemaURL (metric.Instrument.Scope other)).
Proof.
  unfold metric.Instrument.matches, metric.Instrument.matchesName,
    metric.Instrument.matchesDescription, metric.Instrument.matchesKind,
    metric.Instrument.matchesUnit, metric.Instrument.matchesScope.
  rewrite !andb_true_iff, !orb_true_iff, !bool_decide_eq_true. tauto.
Qed.

Lemma Instrument_empty_spec (i : metric.Instrument.t) :
  metric.Instrument.empty i = true ↔
  metric.Instrument.Name i = EmptyString ∧
  metric.Instrument.Description i = EmptyString ∧
  metric.Instrument.Kind i = metric.zeroInstrumentKind ∧
  metric.Instrument.Unit i = EmptyString ∧
  metric.Instrument.Scope i = metric.zeroScope.
Proof.
  unfold metric.Instrument.empty.
  rewrite !andb_true_iff, !bool_decide_eq_true. tauto.
Qed.

Lemma String_cons_ne (c : Ascii.ascii) (s : string) : String c s ≠ s.
Proof.
  intros Heq. apply (f_equal String.length) in Heq. simpl in Heq. lia.
Qed.

Lemma Scope_eq (s1 s2 : instrumentation.Scope) :
  instrumentation.Name s1 = instrumentation.Name s2 →
  instrumentation.Version s1 = instrumentation.Version s2 →
  instrumentation.SchemaURL s1 = instrumentation.SchemaURL s2 →
  s1 = s2.
Proof. destruct s1, s2. simpl. by intros -> -> ->. Qed.

Lemma Instrument_eq (i j : metric.Instrument.t) :
  metric.Instrument.Name i = metric.Instrument.Name j →
  metric.Instrument.Description i = metric.Instrument.Description j →
  metric.Instrument.Kind i = metric.Instrument.Kind j →
  metric.Instrument.Unit i = metric.Instrument.Unit j →
  metric.Instrument.Scope i = metric.Instrument.Scope j →
  i = j.
Proof. destruct i, j. simpl. by intros -> -> -> -> ->. Qed.

(** X1. An instrument matches every instrument exactly when it is empty:
    the empty instrument is the only wildcard. *)
Theorem Instrument_empty_iff_matches_all (i : metric.Instrument.t) :
  metric.Instrument.empty i = true ↔
  ∀ other, metric.Instrument.matches i other = true.
Proof.
  rewrite Instrument_empty_spec. split.
  - intros (Hn & Hd & Hk & Hu & Hs) other. apply Instrument_matches_spec.
    rewrite Hs. simpl. tauto.
  - intros Hall.
    pose (other := {|
      metric.Instrument.Name := String (Ascii.ascii_of_nat 120) (metric.Instrument.Name i);
      metric.Instrument.Description := String (Ascii.ascii_of_nat 120) (metric.Instrument.Description i);
      metric.Instrument.Kind :=
        if decide (metric.Instrument.Kind i = metric.InstrumentKindCounter)
        then metric.InstrumentKindHistogram else metric.InstrumentKindCounter;
      metric.Instrument.Unit := String (Ascii.ascii_of_nat 120) (metric.Instrument.Unit i);
      metric.Instrument.Scope := {|
        instrumentation.Name :=
          String (Ascii.ascii_of_nat 120) (instrumentation.Name (metric.Instrument.Scope i));
        instrumentation.Version :=
          String (Ascii.ascii_of_nat 120) (instrumentation.Version (metric.Instrument.Scope i));
        instrumentation.SchemaURL :=
          String (Ascii.ascii_of_nat 120) (instrumentation.SchemaURL (metric.Instrument.Scope i)) |} |}).
    specialize (Hall other). apply Instrument_matches_spec in Hall. simpl in Hall.
    destruct Hall as (Hn & Hd & Hk & Hu & Hsn & Hsv & Hsu).
    split_and!.
    + destruct Hn as [?|Hn]; [done|]. symmetry in Hn. by apply String_cons_ne in Hn.
    + destruct Hd as [?|Hd]; [done|]. symmetry in Hd. by apply String_cons_ne in Hd.
    + destruct Hk as [?|Hk]; [done|]. by case_decide; congruence.
    + destruct Hu as [?|Hu]; [done|]. symmetry in Hu. by apply String_cons_ne in Hu.
    + apply Scope_eq; simpl.
      * destruct Hsn as [?|Hx]; [done|]. symmetry in Hx. by apply String_cons_ne in Hx.
      * destruct Hsv as [?|Hx]; [done|]. symmetry in Hx. by apply String_cons_ne in Hx.
      * destruct Hsu as [?|Hx]; [done|]. symmetry in Hx. by apply String_cons_ne in Hx.
Qed.

Lemma or_eq_trans {A} (z x y w : A) :
  x = z ∨ x = y → y = z ∨ y = w → x = z ∨ x = w.
Proof. intros [Hx|Hx] [Hy|Hy]; [left|left|left|right]; congruence. Qed.

Lemma or_eq_antisym {A} (z x y : A) :
  x = z ∨ x = y → y = z ∨ y = x → x = y.
Proof. intros [Hx|Hx] [Hy|Hy]; congruence. Qed.

(** Every instrument matches itself. *)
Lemma Instrument_matches_refl (i : metric.Instrument.t) :
  metric.Instrument.matches i i = true.
Proof. apply Instrument_matches_spec. repeat split; by right. Qed.

(** X2. Matching is transitive: criteria that match criteria that match an
    instrument match that instrument. *)
Theorem Instrument_matches_transitive (i j k : metric.Instrument.t) :
  metric.Instrument.matches i j = true →
  metric.Instrument.matches j k = true →
  metric.Instrument.matches i k = true.
Proof.
  rewrite !Instrument_matches_spec.
  intros (A1 & A2 & A3 & A4 & A5 & A6 & A7) (B1 & B2 & B3 & B4 & B5 & B6 & B7).
  split_and!; eapply or_eq_trans; eassumption.
Qed.

(** X3. Two instruments that match each other are equal. *)
Theorem Instrument_matches_antisymmetric (i j : metric.Instrument.t) :
  metric.Instrument.matches i j = true →
  metric.Instrument.matches j i = true →
  i = j.
Proof.
  rewrite !Instrument_matches_spec.
  intros (A1 & A2 & A3 & A4 & A5 & A6 & A7) (B1 & B2 & B3 & B4 & B5 & B6 & B7).
  apply Instrument_eq; [| | | |apply Scope_eq];
    eapply or_eq_antisym; eassumption.
Qed.

(** X4. Criteria without a zero-valued field match one instrument only:
    the instrument with the same fields. *)
Theorem Instrument_matches_fully_specified (i other : metric.Instrument.t) :
  metric.Instrument.Name i ≠ EmptyString →
  metric.Instrument.Description i ≠ EmptyString →
  metric.Instrument.Kind i ≠ metric.zeroInstrumentKind →
  metric.Instrument.Unit i ≠ EmptyString →
  instrumentation.Name (metric.Instrument.Scope i) ≠ EmptyString →
  instrumentation.Version (metric.Instrument.Scope i) ≠ EmptyString →
  instrumentation.SchemaURL (metric.Instrument.Scope i) ≠ EmptyString →
  metric.Instrument.matches i other = true ↔ other = i.
Proof.
  intros H1 H2 H3 H4 H5 H6 H7. split.
  - rewrite Instrument_matches_spec.
    intros ([?|A1] & [?|A2] & [?|A3] & [?|A4] & [?|A5] & [?|A6] & [?|A7]);
      try done.
    symmetry. apply Instrument_eq; [done|done|done|done|by apply Scope_eq].
  - intros ->. apply Instrument_matches_refl.
Qed.

(** Witness of X2: the empty criteria match the criteria that fix a name,
    which match the full instrument. *)
Lemma Instrument_matches_transitive_witness :
  metric.Instrument.matches instrument_zero instrument_named = true ∧
  metric.Instrument.matches instrument_named instrument_full = true ∧
  metric.Instrument.matches instrument_zero instrument_full = true.
Proof.
  split; [reflexivity|]. split; [reflexivity|].
  apply (Instrument_matches_transitive instrument_zero instrument_named
           instrument_full); reflexivity.
Defined.

(** Witness of X3: the full instrument matches itself. *)
Lemma Instrument_matches_antisymmetric_witness :
  metric.Instrument.matches instrument_full instrument_full = true ∧
  instrument_full = instrument_full.
Proof.
  split; [reflexivity|].
  apply (Instrument_matches_antisymmetric instrument_full instrument_full);
    reflexivity.
Defined.

(** Witness of X4: the full instrument, against the criteria that fix a
    name only. *)
Lemma Instrument_matches_fully_specified_witness :
  metric.Instrument.Name instrument_full ≠ EmptyString ∧
  metric.Instrument.Description instrument_full ≠ EmptyString ∧
  metric.Instrument.Kind instrument_full ≠ metric.zeroInstrumentKind ∧
  metric.Instrument.Unit instrument_full ≠ EmptyString ∧
  instrumentation.Name (metric.Instrument.Scope instrument_full) ≠ EmptyString ∧
  instrumentation.Version (metric.Instrument.Scope instrument_full) ≠ EmptyString ∧
  instrumentation.SchemaURL (metric.Instrument.Scope instrument_full) ≠ EmptyString ∧
  (metric.Instrument.matches instrument_full instrument_named = true
   ↔ instrument_named = instrument_full).
Proof.
  repeat (split; [discriminate|]).
  apply (Instrument_matches_fully_specified instrument_full instrument_named);
    discriminate.
Defined.

(** ** The attribute filter of a stream *)

Section attribute_filter.
Context {Key : Type} `{Countable Key} {Value Aggregation_ : Type}.

Lemma allowed_lookup (keys : list Key) (m : gmap Key unit) (k : Key) :
  is_Some (foldl (fun allowed k => <[k := tt]> allowed) m keys !! k) ↔
  k ∈ keys ∨ is_Some (m !! k).
Proof.
  revert m. induction keys as [|k' keys IH]; intros m; simpl.
  - set_solver.
  - rewrite IH. destruct (decide (k = k')) as [->|Hne].
    + rewrite lookup_insert_eq. split; [intros _; left; by left|by right].
    + rewrite lookup_insert_ne by done. set_solver.
Qed.

(** X5. The attribute filter of a stream keeps an attribute exactly when
    the allow-list is empty or contains the key of the attribute; so
    neither the order of the allow-list nor repeated keys matter. *)
Theorem attributeFilter_spec (s : metric.Stream.t Key Aggregation_)
    (kv : metric.Stream.KeyValue Key Value) :
  metric.Stream.attributeFilter s kv = true ↔
  metric.Stream.AllowAttributeKeys s = [] ∨
  metric.Stream.kv_Key kv ∈ metric.Stream.AllowAttributeKeys s.
Proof.
  unfold metric.Stream.attributeFilter.
  destruct (metric.Stream.AllowAttributeKeys s) as [|k keys] eqn:Hkeys.
  { simpl. tauto. }
  rewrite bool_decide_eq_false_2 by (simpl; lia).
  pose proof (allowed_lookup (k :: keys) ∅ (metric.Stream.kv_Key kv)) as Hl.
  rewrite lookup_empty in Hl.
  destruct (foldl _ ∅ (k :: keys) !! metric.Stream.kv_Key kv) as [[]|].
  - split; [intros _; right|done]. destruct Hl as [[?|[? ?]] _]; [by eexists|done|done].
  - split; [done|]. intros [?|Hin]; [done|].
    destruct Hl as [_ [? Hl]]; [by left|done].
Qed.

End attribute_filter.

(** ** Observables *)

Section observables.
Context {W attribute_Set : Type}.
Context (strconv_Quote : string → string).

(** X6. An observable that [registerable] rejects with the no-aggregators
    error is a no-op: observing any value with it changes nothing. *)
Theorem errEmptyAgg_observe_noop {N} (o : metric.observable W attribute_Set N)
    (scope_ : instrumentation.Scope) (val : N) (s : attribute_Set) (w : W) :
  metric.registerable strconv_Quote o scope_ = Some metric.errEmptyAgg →
  metric.observe o val s w = w.
Proof.
  unfold metric.registerable, metric.observe, metric.range_measures.
  case_decide as Hlen; [|by case_decide].
  intros _. by destruct (metric.observable_measures o).
Qed.

(** X7. [observe] is never dropped: every measure of the observable is
    invoked exactly once, in registration order, with the observed value
    and attribute set, and the effect is that of running the measures one
    after the other under the background context. *)
Theorem observe_reaches_every_measure {N} (id : metric.observablID)
    (ms : list (aggregate.Measure W N attribute_Set))
    (val : N) (s : attribute_Set) (w : W) :
  metric.observe
    {| metric.observable_observablID := id;
       metric.observable_measures := imap traced ms |} val s (w, []) =
  (metric.range_measures ms metric.context_Background val s w,
   each_once (length ms) val s).
Proof. exact (range_measures_traced ms metric.context_Background val s 0 w []). Qed.

End observables.

(** Witness of X6: an observable without measures. *)
Lemma errEmptyAgg_observe_noop_witness :
  metric.registerable plain_Quote observable_without_measures scope_b
    = Some metric.errEmptyAgg ∧
  metric.observe observable_without_measures 7 "a"%string tt = tt.
Proof.
  split; [reflexivity|].
  apply (errEmptyAgg_observe_noop plain_Quote observable_without_measures scope_b).
  reflexivity.
Defined.

(** ** The bucket of a value *)

(** sort.Search stays inside [[i, j]] for every predicate, monotone or not. *)
Lemma Search_loop_range (f : nat → bool) (fuel i j : nat) :
  (i ≤ j)%nat →
  (i ≤ sort.Search_loop fuel f i j ≤ j)%nat.
Proof.
  revert i j. induction fuel as [|fuel IH]; intros i j Hij; cbn [sort.Search_loop]; [lia|].
  destruct (decide (i < j)%nat) as [Hlt|]; [|lia].
  assert (i ≤ (i + j) / 2 < j)%nat as Hh.
  { split; [apply Nat.div_le_lower_bound | apply Nat.Div0.div_lt_upper_bound]; lia. }
  cbv zeta. set (h := ((i + j) / 2)%nat) in *.
  destruct (f h); cbn [negb].
  - specialize (IH i h). lia.
  - specialize (IH (h + 1)%nat j). lia.
Qed.

(** X8. The index that [Aggregate] computes is in the range
    [[0, len(bounds)]] for every slice of bounds, sorted or not, and for
    every value, NaN included. *)
Theorem SearchFloat64s_in_range (a : list float64) (x : float64) :
  (sort.SearchFloat64s a x ≤ length a)%nat.
Proof.
  unfold sort.SearchFloat64s, sort.Search.
  pose proof (Search_loop_range
    (fun i => match a !! i with Some y => float64_ge y x | None => false end)
    (length a) 0 (length a)). lia.
Qed.

(** On a slice without NaN that is ordered by [Less], the elements before
    the index found for [x] are less than [x], and [x] is less than or
    equal to the elements from the index on. *)
Lemma SearchFloat64s_interval (l : list float64) (x : float64) :
  StronglySorted not_after l →
  Forall (fun b => isNaN b = false) l →
  isNaN x = false →
  (∀ i b, (i < sort.SearchFloat64s l x)%nat → l !! i = Some b → float64_lt b x = true) ∧
  (∀ i b, (sort.SearchFloat64s l x ≤ i)%nat → l !! i = Some b → float64_le x b = true).
Proof.
  intros Hs Hl Hx.
  set (f := fun i : nat =>
              match l !! i with Some y => float64_ge y x | None => false end).
  destruct (Search_spec (length l) f) as (Hle & Hlo & Hhi).
  { intros k j [Hkj Hj]. unfold f.
    destruct (l !! k) as [y|] eqn:Hk; [|done].
    destruct (lookup_lt_is_Some_2 l j Hj) as [z Hz]. rewrite Hz.
    destruct (decide (k = j)) as [->|]; [naive_solver|].
    assert (not_after y z) as Hyz.
    { eapply (StronglySorted_lookup_le _ l k j); [done|lia|done|done]. }
    unfold not_after in Hyz. unfold float64_ge.
    fold (float64_le x y). fold (float64_le x z).
    rewrite !float64_le_key, !float64_key_not_NaN. unfold key_le in *. lia. }
  fold (sort.SearchFloat64s l x) in Hle, Hlo, Hhi.
  split.
  - intros i b Hi Hb. specialize (Hlo i Hi). unfold f in Hlo. rewrite Hb in Hlo.
    assert (isNaN b = false) as Hnb.
    { rewrite Forall_forall in Hl. apply Hl. by eapply list_elem_of_lookup_2. }
    unfold float64_ge in Hlo. fold (float64_le x b) in Hlo.
    apply float64_lt_key. split; [done|]. split; [done|].
    assert (¬ key_le (float64_key x) (float64_key b)) as Hn.
    { intros Hc. assert (float64_le x b = true) as Ht by by apply float64_le_key.
      congruence. }
    unfold key_lt, key_le in *. lia.
  - intros i b Hi Hb.
    assert (f i = true) as Hf.
    { apply Hhi. split; [done|]. by eapply lookup_lt_Some. }
    unfold f in Hf. by rewrite Hb in Hf.
Qed.

Section bucket_intervals.
Context {N : Type} `{Number N}.
Context {attribute_Set : Type} `{Countable attribute_Set}.

(** X9. The buckets are the intervals between consecutive boundaries of
    the store, open on the left and closed on the right, with respect to
    [float64(v)], the conversion of the measured value to float64. On a
    histogram aggregator in any reachable state, when no configured
    boundary is NaN and [float64(v)] is not NaN, [Aggregate] of [v]
    increments the bucket at an index such that every element of the
    slice of boundaries of the store before that index is less than
    [float64(v)], and [float64(v)] is less than or equal to every element
    from that index on. So the first bucket is [(-inf, b0]] and the last
    one [(b_last, +inf)]. *)
Theorem bucket_is_interval (delta : bool) (cfg : aggregation.ExplicitBucketHistogram)
    (now0 : Time) (h : heap) (boundaries : list float64)
    (calls : list (call N attribute_Set)) (v : N) (a : attribute_Set) :
  f64s h !! aggregation.Boundaries cfg = Some boundaries →
  Forall (fun b => isNaN b = false) boundaries →
  isNaN (toFloat64 v) = false →
  ∃ outs g h1 g' h' bs idx c,
    (do g0 <- newAggregator delta cfg now0; run g0 calls) h = Some ((outs, g), h1) ∧
    f64s h1 !! aggregate.bounds (aggregator_histValues g) = Some bs ∧
    aggregator_Aggregate g v a h1 = Some (g', h') ∧
    default (replicate (S (length bs)) 0) (bucket_counts (aggregator_histValues g) h1 a)
      !! idx = Some c ∧
    bucket_counts (aggregator_histValues g') h' a =
      Some (<[idx := uint64_incr c]>
              (default (replicate (S (length bs)) 0)
                       (bucket_counts (aggregator_histValues g) h1 a))) ∧
    (∀ i b, (i < idx)%nat → bs !! i = Some b → float64_lt b (toFloat64 v) = true) ∧
    (∀ i b, (idx ≤ i)%nat → bs !! i = Some b → float64_le (toFloat64 v) b = true).
Proof.
  intros Hp Hbs Hv.
  destruct (constructed_ok delta cfg now0 boundaries calls h Hp)
    as (outs & g & h1 & Hrun & Hok & _).
  destruct (aggregator_Aggregate_ok boundaries g v a h1 Hok)
    as (g' & h' & Hagg & Hagg' & _).
  destruct (Aggregate_bucket_counts boundaries _ _ _ _ _ _ Hok Hagg') as (c & Hc & Hcounts).
  assert (length (sort.Float64s boundaries) = length boundaries) as Hlen.
  { apply Permutation_length, Float64s_Permutation. }
  destruct (SearchFloat64s_interval (sort.Float64s boundaries) (toFloat64 v))
    as [Hlo Hhi]; [apply Float64s_sorted|by rewrite Float64s_Permutation|done|].
  rewrite SearchFloat64s_Float64s in Hlo, Hhi.
  exists outs, g, h1, g', h', (sort.Float64s boundaries),
    (count_not_ge boundaries (toFloat64 v)), c.
  rewrite Hlen. destruct Hok as (Hbounds & _). by split_and!.
Qed.

End bucket_intervals.

(** Witness of X9: the int64 value 7 on a cumulative histogram over
    [0, 5, 10] that has recorded 3 and 12. *)
Lemma bucket_is_interval_witness :
  f64s example_heap !! aggregation.Boundaries example_cfg = Some example_boundaries ∧
  Forall (fun b => isNaN b = false) example_boundaries ∧
  isNaN (toFloat64 (7 : int64)) = false ∧
  ∃ outs (g : aggregator int64 string) h1 g' h' bs idx c,
    (do g0 <- newAggregator false example_cfg 0;
     run g0 [CallAggregate 3 "a"%string; CallAggregate 12 "a"%string])
      example_heap = Some ((outs, g), h1) ∧
    f64s h1 !! aggregate.bounds (aggregator_histValues g) = Some bs ∧
    aggregator_Aggregate g 7 "a"%string h1 = Some (g', h') ∧
    default (replicate (S (length bs)) 0)
            (bucket_counts (aggregator_histValues g) h1 "a"%string)
      !! idx = Some c ∧
    bucket_counts (aggregator_histValues g') h' "a"%string =
      Some (<[idx := uint64_incr c]>
              (default (replicate (S (length bs)) 0)
                       (bucket_counts (aggregator_histValues g) h1 "a"%string))) ∧
    (∀ i b, (i < idx)%nat → bs !! i = Some b → float64_lt b (toFloat64 (7 : int64)) = true) ∧
    (∀ i b, (idx ≤ i)%nat → bs !! i = Some b → float64_le (toFloat64 (7 : int64)) b = true).
Proof.
  assert (Forall (fun b => isNaN b = false) example_boundaries) as Hbs
    by (repeat constructor).
  split; [reflexivity|]. split; [exact Hbs|]. split; [reflexivity|].
  apply (bucket_is_interval (N:=int64) (attribute_Set:=string)
           false example_cfg 0 example_heap example_boundaries
           [CallAggregate 3 "a"%string; CallAggregate 12 "a"%string] 7 "a"%string);
    [reflexivity|exact Hbs|reflexivity].
Defined.

(** ** The copy of the boundaries *)

Section boundaries_copy.
Context {N : Type} `{Number N}.
Context {attribute_Set : Type} `{Countable attribute_Set}.

Implicit Types (g : aggregator N attribute_Set) (h : heap) (now : Time).
Implicit Types (s : aggregate.histValues N attribute_Set) (v : N) (a : attribute_Set).

(** [Aggregate] reads no slice of bounds but the one of the store. *)
Lemma Aggregate_caller_frame s v a h (p : loc) (bs' : list float64) :
  p ≠ aggregate.bounds s →
  aggregate.Aggregate s v a (caller_writes p bs' h) =
  match aggregate.Aggregate s v a h with
  | Some (s', h') => Some (s', caller_writes p bs' h')
  | None => None
  end.
Proof.
  intros Hne. unfold aggregate.Aggregate. rewrite !bind_load_f64.
  cbn [caller_writes f64s]. rewrite lookup_insert_ne by done.
  destruct (f64s h !! aggregate.bounds s) as [l|]; [|done].
  destruct (aggregate.values s !! a) as [b|];
    unfold aggregate.newBuckets, aggregate.bin, incr_u64, make_u64, load_u64,
      store_u64, panic, bind, ret; cbn.
  - destruct (u64s h !! aggregate.counts b) as [cs|]; [|done].
    by destruct (cs !! _).
  - rewrite !lookup_insert_eq. by destruct (replicate _ _ !! _).
Qed.

Lemma cumulative_range_body_caller_frame
    (s : aggregate.cumulativeHistogram.t N attribute_Set) now (q p : loc)
    (bs' : list float64) (dps0 : list (metricdata.HistogramDataPoint N attribute_Set))
    (ab : attribute_Set * aggregate.buckets N) h :
  aggregate.cumulativeHistogram.range_body s now q dps0 ab (caller_writes p bs' h) =
  match aggregate.cumulativeHistogram.range_body s now q dps0 ab h with
  | Some (dps, h') => Some (dps, caller_writes p bs' h')
  | None => None
  end.
Proof.
  destruct ab as [a b]. unfold aggregate.cumulativeHistogram.range_body.
  rewrite !bind_load_u64. cbn [caller_writes u64s].
  destruct (u64s h !! aggregate.counts b) as [src|] eqn:Hsrc; [|done].
  rewrite !(make_copy_u64 _ _ _ h Hsrc).
  by rewrite (make_copy_u64 _ _ _ (caller_writes p bs' h)) by done.
Qed.

Lemma foldM_caller_frame {A B} (f : A → B → M A) (p : loc) (bs' : list float64) :
  (∀ acc x h, f acc x (caller_writes p bs' h) =
     match f acc x h with
     | Some (r, h') => Some (r, caller_writes p bs' h')
     | None => None
     end) →
  ∀ l acc h,
    foldM f acc l (caller_writes p bs' h) =
    match foldM f acc l h with
    | Some (r, h') => Some (r, caller_writes p bs' h')
    | None => None
    end.
Proof.
  intros Hf l. induction l as [|x l IH]; intros acc h; [done|].
  cbn [foldM]. unfold bind. rewrite Hf.
  destruct (f acc x h) as [[r h1]|]; [|done]. apply IH.
Qed.

(** A snapshot reads no slice of bounds but the one of the store. *)
Lemma delta_Aggregation_caller_frame (boundaries : list float64)
    (s : aggregate.deltaHistogram.t N attribute_Set) now h
    (p : loc) (bs' : list float64) :
  f64s h !! aggregate.bounds (aggregate.deltaHistogram.histValues s)
    = Some (sort.Float64s boundaries) →
  is_Some (f64s h !! p) →
  p ≠ aggregate.bounds (aggregate.deltaHistogram.histValues s) →
  aggregate.deltaHistogram.Aggregation s now (caller_writes p bs' h) =
  match aggregate.deltaHistogram.Aggregation s now h with
  | Some (r, h') => Some (r, caller_writes p bs' h')
  | None => None
  end.
Proof.
  intros Hbs Hp Hne.
  assert (fresh (dom (f64s h)) ≠ p) as Hfresh.
  { intros Heq. destruct Hp as [x Hx]. by rewrite <- Heq, fresh_f64s in Hx. }
  unfold aggregate.deltaHistogram.Aggregation.
  destruct (decide (size (aggregate.values (aggregate.deltaHistogram.histValues s)) = 0%nat));
    [done|].
  rewrite !bind_load_f64. cbn [caller_writes f64s].
  rewrite lookup_insert_ne by done. rewrite Hbs.
  rewrite (make_copy_f64 _ _ _ h Hbs).
  rewrite (make_copy_f64 _ _ _ (caller_writes p bs' h));
    [|by cbn; rewrite lookup_insert_ne].
  cbn [caller_writes u64s f64s]. rewrite dom_insert_existing by done.
  destruct (foldl _ _ _) as [dps vals]. unfold ret.
  by rewrite (insert_insert_ne _ (fresh (dom (f64s h))) p).
Qed.

Lemma cumulative_Aggregation_caller_frame (boundaries : list float64)
    (s : aggregate.cumulativeHistogram.t N attribute_Set) now h
    (p : loc) (bs' : list float64) :
  f64s h !! aggregate.bounds (aggregate.cumulativeHistogram.histValues s)
    = Some (sort.Float64s boundaries) →
  is_Some (f64s h !! p) →
  p ≠ aggregate.bounds (aggregate.cumulativeHistogram.histValues s) →
  aggregate.cumulativeHistogram.Aggregation s now (caller_writes p bs' h) =
  match aggregate.cumulativeHistogram.Aggregation s now h with
  | Some (r, h') => Some (r, caller_writes p bs' h')
  | None => None
  end.
Proof.
  intros Hbs Hp Hne.
  assert (fresh (dom (f64s h)) ≠ p) as Hfresh.
  { intros Heq. destruct Hp as [x Hx]. by rewrite <- Heq, fresh_f64s in Hx. }
  unfold aggregate.cumulativeHistogram.Aggregation.
  destruct (decide (size (aggregate.values (aggregate.cumulativeHistogram.histValues s)) = 0%nat));
    [done|].
  rewrite !bind_load_f64. cbn [caller_writes f64s].
  rewrite lookup_insert_ne by done. rewrite Hbs.
  rewrite (make_copy_f64 _ _ _ h Hbs).
  rewrite (make_copy_f64 _ _ _ (caller_writes p bs' h));
    [|by cbn; rewrite lookup_insert_ne].
  cbn [caller_writes u64s f64s]. rewrite dom_insert_existing by done.
  rewrite (insert_insert_ne _ (fresh (dom (f64s h))) p) by done.
  unfold bind.
  match goal with
  | |- context [foldM ?f ?d ?l (Heap ?u (<[p:=bs']> ?f'))] =>
      change (Heap u (<[p:=bs']> f')) with (caller_writes p bs' (Heap u f'));
      rewrite (foldM_caller_frame f p bs')
  end.
  - by destruct (foldM _ _ _ _) as [[dps h']|].
  - intros acc ab h0. apply cumulative_range_body_caller_frame.
Qed.

Lemma aggregator_Aggregation_caller_frame (boundaries : list float64) g now h
    (p : loc) (bs' : list float64) :
  store_ok boundaries (aggregator_histValues g) h →
  is_Some (f64s h !! p) →
  p ≠ aggregate.bounds (aggregator_histValues g) →
  aggregator_Aggregation g now (caller_writes p bs' h) =
  match aggregator_Aggregation g now h with
  | Some (r, h') => Some (r, caller_writes p bs' h')
  | None => None
  end.
Proof.
  intros (Hbs & _ & _) Hp Hne.
  destruct g as [s|s]; simpl in *; unfold bind.
  - rewrite (delta_Aggregation_caller_frame boundaries) by done.
    by destruct (aggregate.deltaHistogram.Aggregation s now h) as [[r h']|].
  - rewrite (cumulative_Aggregation_caller_frame boundaries) by done.
    by destruct (aggregate.cumulativeHistogram.Aggregation s now h) as [[r h']|].
Qed.

(** A snapshot keeps the slice of bounds of the store, and the contents of
    every slice of bounds that exists. *)
Lemma aggregator_Aggregation_f64s (boundaries : list float64) g now h r g' h' :
  store_ok boundaries (aggregator_histValues g) h →
  aggregator_Aggregation g now h = Some ((r, g'), h') →
  aggregate.bounds (aggregator_histValues g') = aggregate.bounds (aggregator_histValues g) ∧
  ∀ p, is_Some (f64s h !! p) → f64s h' !! p = f64s h !! p.
Proof.
  intros Hok Hsnap.
  assert (∀ p, is_Some (f64s h !! p) → fresh (dom (f64s h)) ≠ p) as Hfresh.
  { intros p [x Hx] Heq. by rewrite <- Heq, fresh_f64s in Hx. }
  destruct (decide (aggregate.values (aggregator_histValues g) = ∅)) as [Hempty|Hne].
  { rewrite aggregator_Aggregation_empty in Hsnap by done. by injection Hsnap as <- <- <-. }
  destruct g as [s|s]; simpl in *; unfold bind in Hsnap.
  - destruct (delta_Aggregation_spec boundaries s now h Hok Hne) as (dps & Heq & _).
    rewrite Heq in Hsnap. simpl in Hsnap. injection Hsnap as <- <- <-. simpl.
    split; [done|]. intros p Hp. rewrite lookup_insert_ne; [done|by apply Hfresh].
  - destruct (cumulative_Aggregation_spec boundaries s now h Hok Hne)
      as (dps & h1 & Heq & Hf & _).
    rewrite Heq in Hsnap. simpl in Hsnap. injection Hsnap as <- <- <-.
    split; [done|]. intros p Hp. rewrite Hf, lookup_insert_ne; [done|by apply Hfresh].
Qed.

(** No use of an aggregator reads a slice of bounds that is not the one of
    its store. *)
Lemma run_caller_frame (boundaries : list float64)
    (calls : list (call N attribute_Set)) g h (p : loc) (bs' : list float64) :
  store_ok boundaries (aggregator_histValues g) h →
  is_Some (f64s h !! p) →
  p ≠ aggregate.bounds (aggregator_histValues g) →
  run g calls (caller_writes p bs' h) =
  match run g calls h with
  | Some (r, h') => Some (r, caller_writes p bs' h')
  | None => None
  end.
Proof.
  revert g h. induction calls as [|[v a|now] calls IH]; intros g h Hok Hp Hne;
    cbn [run].
  - done.
  - unfold bind. rewrite !aggregator_Aggregate_spec, Aggregate_caller_frame by done.
    destruct (aggregator_Aggregate_ok boundaries g v a h Hok)
      as (g1 & h1 & Hagg & Hagg' & Hok1 & _).
    destruct (Aggregate_store_ok boundaries _ h v a Hok)
      as (s' & h1' & Heq & _ & (Hb & Hf & _)).
    rewrite aggregator_Aggregate_spec in Hagg. rewrite Heq in Hagg, Hagg' |- *.
    injection Hagg' as -> ->. injection Hagg as Hg1.
    rewrite Hg1. apply IH; [done|by rewrite Hf|by rewrite Hb].
  - unfold bind at 1 3.
    rewrite (aggregator_Aggregation_caller_frame boundaries) by done.
    destruct (aggregator_Aggregation_ok boundaries g now h Hok)
      as (r & g1 & h1 & Hagg & Hok1 & _).
    destruct (aggregator_Aggregation_f64s boundaries g now h r g1 h1 Hok Hagg)
      as [Hb Hf].
    rewrite Hagg. cbn [fst snd]. unfold bind.
    rewrite (IH g1 h1); [|done|by rewrite Hf|by rewrite Hb].
    by destruct (run g1 calls h1) as [[[outs g2] h2]|].
Qed.

(** X10. The constructors keep a sorted copy of the configured boundaries
    in a slice of their own: the slice of the configuration is left as it
    was, the slice of the store is a new one, and it holds a permutation of
    the configured boundaries in which no element is [Less] than an earlier
    one. Whatever the caller writes into its slice afterwards, every later
    use of the aggregator returns the same results and leaves the same
    memory. *)
Theorem constructor_copies_boundaries (delta : bool)
    (cfg : aggregation.ExplicitBucketHistogram) (now0 : Time) (h : heap)
    (boundaries : list float64) (calls : list (call N attribute_Set))
    (bs' : list float64) :
  f64s h !! aggregation.Boundaries cfg = Some boundaries →
  ∃ (g0 : aggregator N attribute_Set) h0 l,
    newAggregator delta cfg now0 h = Some (g0, h0) ∧
    f64s h0 !! aggregation.Boundaries cfg = Some boundaries ∧
    f64s h !! aggregate.bounds (aggregator_histValues g0) = None ∧
    f64s h0 !! aggregate.bounds (aggregator_histValues g0) = Some l ∧
    l ≡ₚ boundaries ∧
    (∀ i j x y, (i < j)%nat → l !! i = Some x → l !! j = Some y →
                sort.Float64Slice_Less y x = false) ∧
    ∃ r h', run g0 calls h0 = Some (r, h') ∧
            (store_f64 (aggregation.Boundaries cfg) bs' ;; run g0 calls) h0
              = Some (r, caller_writes (aggregation.Boundaries cfg) bs' h').
Proof.
  intros Hp.
  assert (fresh (dom (f64s h)) ≠ aggregation.Boundaries cfg) as Hfresh.
  { intros Heq. by rewrite <- Heq, fresh_f64s in Hp. }
  assert (∃ (g0 : aggregator N attribute_Set),
            newAggregator delta cfg now0 h
              = Some (g0, Heap (u64s h)
                            (<[fresh (dom (f64s h)) := sort.Float64s boundaries]> (f64s h))) ∧
            aggregator_histValues g0 = aggregate.HistValues (fresh (dom (f64s h))) ∅)
    as (g0 & Hnew & Hhv).
  { unfold newAggregator.
    destruct delta;
      unfold aggregate.newDeltaHistogram, aggregate.newCumulativeHistogram, bind;
      rewrite (newHistValues_spec _ _ _ Hp); unfold ret; by eexists. }
  assert (store_ok boundaries (aggregator_histValues g0)
            (Heap (u64s h)
               (<[fresh (dom (f64s h)) := sort.Float64s boundaries]> (f64s h)))) as Hok.
  { rewrite Hhv. apply newHistValues_store_ok. }
  eexists g0, _, (sort.Float64s boundaries). split; [exact Hnew|].
  rewrite Hhv. cbn [aggregate.bounds f64s]. split_and!.
  - by rewrite lookup_insert_ne.
  - apply fresh_f64s.
  - apply lookup_insert_eq.
  - apply Float64s_Permutation.
  - intros i j x y Hij Hx Hy. apply Less_false_key.
    change (not_after x y).
    by eapply (StronglySorted_lookup_le not_after (sort.Float64s boundaries) i j);
      [apply Float64s_sorted| | |].
  - destruct (run_ok boundaries calls g0 _ Hok) as (outs & g & h' & Hrun & _).
    exists (outs, g), h'. split; [done|].
    unfold bind at 1, store_f64 at 1.
    match goal with
    | |- run g0 calls ?h1 = _ =>
        change h1 with (caller_writes (aggregation.Boundaries cfg) bs'
                          (Heap (u64s h)
                             (<[fresh (dom (f64s h)) := sort.Float64s boundaries]> (f64s h))))
    end.
    rewrite (run_caller_frame boundaries), Hrun; [done|done| |].
    + cbn. rewrite lookup_insert_ne by done. by eexists.
    + rewrite Hhv. cbn. done.
Qed.

(** X11. [Aggregate] for one attribute set leaves the accumulators of all
    other attribute sets, their per-bucket counts included, and the
    boundaries of the store as they are; the attribute set itself has an
    accumulator afterwards. *)
Theorem Aggregate_other_attribute_sets (delta : bool)
    (cfg : aggregation.ExplicitBucketHistogram) (now0 : Time) (h : heap)
    (boundaries : list float64) (calls : list (call N attribute_Set))
    (v : N) (a : attribute_Set) :
  f64s h !! aggregation.Boundaries cfg = Some boundaries →
  ∃ outs g h1 g' h',
    (do g0 <- newAggregator delta cfg now0; run g0 calls) h = Some ((outs, g), h1) ∧
    aggregator_Aggregate g v a h1 = Some (g', h') ∧
    is_Some (aggregate.values (aggregator_histValues g') !! a) ∧
    aggregate.bounds (aggregator_histValues g') = aggregate.bounds (aggregator_histValues g) ∧
    f64s h' = f64s h1 ∧
    ∀ a', a' ≠ a →
      aggregate.values (aggregator_histValues g') !! a'
        = aggregate.values (aggregator_histValues g) !! a' ∧
      bucket_counts (aggregator_histValues g') h' a'
        = bucket_counts (aggregator_histValues g) h1 a'.
Proof.
  intros Hp.
  destruct (constructed_ok delta cfg now0 boundaries calls h Hp)
    as (outs & g & h1 & Hrun & Hok & _).
  destruct (aggregator_Aggregate_ok boundaries g v a h1 Hok)
    as (g' & h' & Hagg & Hagg' & _).
  destruct (Aggregate_store_ok boundaries _ h1 v a Hok)
    as (s' & h1' & Heq & _ & (Hb & Hf & Hdom & Hother & (p & Hp1 & Hp2 & Hp3))).
  rewrite Heq in Hagg'. injection Hagg' as -> ->.
  exists outs, g, h1, g', h'. split_and!; try done.
  - apply elem_of_dom. rewrite Hdom. set_solver.
  - intros a' Hne. split; [by apply Hother|].
    unfold bucket_counts. rewrite Hother by done.
    destruct (aggregate.values (aggregator_histValues g) !! a') as [b'|] eqn:Hb'; [|done].
    apply Hp3. intros Heq'.
    destruct Hok as (_ & Hvals & Hinj).
    destruct (Hvals a' b' Hb') as (cs & Hcs & _).
    destruct (aggregate.values (aggregator_histValues g) !! a) as [b|] eqn:Hab.
    + apply Hne. apply (Hinj a' a b' b); congruence.
    + congruence.
Qed.

End boundaries_copy.

(** Witness of X10: the caller overwrites its slice [0, 5, 10] with
    [11, NaN] after the construction of a delta histogram. *)
Lemma constructor_copies_boundaries_witness :
  f64s example_heap !! aggregation.Boundaries example_cfg = Some example_boundaries ∧
  ∃ (g0 : aggregator int64 string) h0 l,
    newAggregator true example_cfg 0 example_heap = Some (g0, h0) ∧
    f64s h0 !! aggregation.Boundaries example_cfg = Some example_boundaries ∧
    f64s example_heap !! aggregate.bounds (aggregator_histValues g0) = None ∧
    f64s h0 !! aggregate.bounds (aggregator_histValues g0) = Some l ∧
    l ≡ₚ example_boundaries ∧
    (∀ i j x y, (i < j)%nat → l !! i = Some x → l !! j = Some y →
                sort.Float64Slice_Less y x = false) ∧
    ∃ r h', run g0 [CallAggregate 3 "a"%string; CallAggregation 1] h0 = Some (r, h') ∧
            (store_f64 (aggregation.Boundaries example_cfg) [f64_11; f64_NaN] ;;
             run g0 [CallAggregate 3 "a"%string; CallAggregation 1]) h0
              = Some (r, caller_writes (aggregation.Boundaries example_cfg)
                           [f64_11; f64_NaN] h').
Proof.
  split; [reflexivity|].
  apply (constructor_copies_boundaries (N:=int64) (attribute_Set:=string)
           true example_cfg 0 example_heap example_boundaries).
  reflexivity.
Defined.

(** Witness of X11: a measurement for "a" on a cumulative histogram that
    has an accumulator for "b". *)
Lemma Aggregate_other_attribute_sets_witness :
  f64s example_heap !! aggregation.Boundaries example_cfg = Some example_boundaries ∧
  ∃ outs (g : aggregator int64 string) h1 g' h',
    (do g0 <- newAggregator false example_cfg 0; run g0 [CallAggregate 7 "b"%string])
      example_heap = Some ((outs, g), h1) ∧
    aggregator_Aggregate g 3 "a"%string h1 = Some (g', h') ∧
    is_Some (aggregate.values (aggregator_histValues g') !! "a"%string) ∧
    aggregate.bounds (aggregator_histValues g') = aggregate.bounds (aggregator_histValues g) ∧
    f64s h' = f64s h1 ∧
    ∀ a', a' ≠ "a"%string →
      aggregate.values (aggregator_histValues g') !! a'
        = aggregate.values (aggregator_histValues g) !! a' ∧
      bucket_counts (aggregator_histValues g') h' a'
        = bucket_counts (aggregator_histValues g) h1 a'.
Proof.
  split; [reflexivity|].
  apply (Aggregate_other_attribute_sets (N:=int64) (attribute_Set:=string)
           false example_cfg 0 example_heap example_boundaries).
  reflexivity.
Defined.

(** ** The shape of a snapshot *)

Section snapshot_shape.
Context {N : Type} `{Number N}.
Context {attribute_Set : Type} `{Countable attribute_Set}.

Implicit Types (g : aggregator N attribute_Set) (h : heap) (now : Time).
Implicit Types (v : N) (a : attribute_Set).

(** A snapshot with data, field by field. *)
Lemma snapshot_full (boundaries : list float64) g now h hist g' h' :
  store_ok boundaries (aggregator_histValues g) h →
  aggregator_Aggregation g now h = Some ((Some hist, g'), h') →
  metricdata.Temporality_ hist
    = (if aggregator_is_delta g then metricdata.DeltaTemporality
       else metricdata.CumulativeTemporality) ∧
  aggregator_noMinMax g' = aggregator_noMinMax g ∧
  aggregator_start g' = (if aggregator_is_delta g then now else aggregator_start g) ∧
  (∀ p, is_Some (u64s h !! p) → u64s h' !! p = u64s h !! p) ∧
  ∃ q, f64s h' !! q = Some (sort.Float64s boundaries) ∧
       Forall2 (fun dp ab =>
                  reports (aggregator_start g) (aggregator_noMinMax g) now q dp ab ∧
                  ∃ cs, u64s h !! aggregate.counts ab.2 = Some cs ∧
                        u64s h' !! metricdata.BucketCounts dp = Some cs)
               (metricdata.DataPoints hist)
               (map_to_list (aggregate.values (aggregator_histValues g))).
Proof.
  intros Hok Hsnap. assert (Hok' := Hok). destruct Hok' as (Hbs & Hvals & Hinj).
  destruct (decide (aggregate.values (aggregator_histValues g) = ∅)) as [Hempty|Hne].
  { rewrite aggregator_Aggregation_empty in Hsnap by done. by injection Hsnap. }
  destruct g as [s|s]; simpl in *; unfold bind in Hsnap.
  - destruct (delta_Aggregation_spec boundaries s now h Hok Hne) as (dps & Heq & Hdps).
    rewrite Heq in Hsnap. simpl in Hsnap. injection Hsnap as <- <- <-. simpl.
    split_and!; try done.
    exists (fresh (dom (f64s h))). split; [apply lookup_insert_eq|].
    apply Forall2_same_length_lookup. split; [by eapply Forall2_length|].
    intros i dp [a b] Hi Hin.
    destruct (Forall2_lookup_lr _ _ _ _ _ _ Hdps Hi Hin) as [Hrep Hbc]. simpl in *.
    split; [done|]. rewrite Hbc. apply list_elem_of_lookup_2, elem_of_map_to_list in Hin.
    destruct (Hvals a b Hin) as (cs & Hcs & _). by exists cs.
  - destruct (cumulative_Aggregation_spec boundaries s now h Hok Hne)
      as (dps & h1 & Heq & Hf & Hold & Hdps & _).
    rewrite Heq in Hsnap. simpl in Hsnap. injection Hsnap as <- <- <-. simpl.
    split_and!; try done.
    exists (fresh (dom (f64s h))). split; [rewrite Hf; apply lookup_insert_eq|].
    apply Forall2_same_length_lookup. split; [by eapply Forall2_length|].
    intros i dp [a b] Hi Hin.
    destruct (Forall2_lookup_lr _ _ _ _ _ _ Hdps Hi Hin) as (Hrep & _ & Hcopy). simpl in *.
    split; [done|]. rewrite Hcopy. apply list_elem_of_lookup_2, elem_of_map_to_list in Hin.
    destruct (Hvals a b Hin) as (cs & Hcs & _). by exists cs.
Qed.

(** A snapshot is nil exactly when the store is empty, and then it changes
    nothing. *)
Lemma aggregator_Aggregation_cases (boundaries : list float64) g now h r g' h' :
  store_ok boundaries (aggregator_histValues g) h →
  aggregator_Aggregation g now h = Some ((r, g'), h') →
  (aggregate.values (aggregator_histValues g) = ∅ ∧ r = None ∧ g' = g ∧ h' = h) ∨
  (aggregate.values (aggregator_histValues g) ≠ ∅ ∧ ∃ hist, r = Some hist).
Proof.
  intros Hok Hsnap.
  destruct (decide (aggregate.values (aggregator_histValues g) = ∅)) as [Hempty|Hne].
  - rewrite aggregator_Aggregation_empty in Hsnap by done.
    injection Hsnap as <- <- <-. by left.
  - destruct (aggregator_Aggregation_reports boundaries g now h Hok Hne)
      as (hist & g1 & h1 & q & nmm & Heq & _).
    rewrite Heq in Hsnap. injection Hsnap as <- <- <-. right. by eauto.
Qed.

Lemma newAggregator_noMinMax (delta : bool) (cfg : aggregation.ExplicitBucketHistogram)
    now h g h' :
  newAggregator delta cfg now h = Some (g, h') →
  aggregator_noMinMax g = aggregation.NoMinMax cfg.
Proof.
  unfold newAggregator.
  destruct delta;
    unfold aggregate.newDeltaHistogram, aggregate.newCumulativeHistogram, bind, ret;
    destruct (aggregate.newHistValues _ h) as [[hv h0]|]; [|done| |done];
    by intros [= <- _].
Qed.

(** No call changes whether extrema are reported. *)
Lemma run_noMinMax (boundaries : list float64)
    (calls : list (call N attribute_Set)) g h outs g' h' :
  store_ok boundaries (aggregator_histValues g) h →
  run g calls h = Some ((outs, g'), h') →
  aggregator_noMinMax g' = aggregator_noMinMax g.
Proof.
  revert g h outs. induction calls as [|[v a|now] calls IH];
    intros g h outs Hok Hrun; simpl in Hrun.
  - by injection Hrun as <- <- <-.
  - destruct (aggregator_Aggregate_ok boundaries g v a h Hok)
      as (g1 & h1 & Hagg & _ & Hok1 & _).
    unfold bind in Hrun. rewrite Hagg in Hrun.
    rewrite (IH g1 h1 outs Hok1 Hrun).
    rewrite aggregator_Aggregate_spec in Hagg.
    destruct (aggregate.Aggregate _ v a h) as [[hv h2]|]; [|done].
    injection Hagg as <- _. by destruct g.
  - destruct (aggregator_Aggregation_ok boundaries g now h Hok)
      as (r & g1 & h1 & Hagg & Hok1 & _).
    unfold bind in Hrun. rewrite Hagg in Hrun. simpl in Hrun.
    destruct (run g1 calls h1) as [[[outs1 g2] h2]|] eqn:Hrun1; [|done].
    simpl in Hrun. injection Hrun as <- <- <-.
    rewrite (IH g1 h1 outs1 Hok1 Hrun1).
    destruct (aggregator_Aggregation_cases boundaries g now h r g1 h1 Hok Hagg)
      as [(_ & _ & -> & _)|(_ & hist & ->)]; [done|].
    by destruct (snapshot_full boundaries g now h hist g1 h1 Hok Hagg) as (_ & -> & _).
Qed.

(** An aggregator that was constructed and then used in any way. *)
Lemma constructed_full (delta : bool) (cfg : aggregation.ExplicitBucketHistogram)
    (now0 : Time) (boundaries : list float64)
    (calls : list (call N attribute_Set)) h :
  f64s h !! aggregation.Boundaries cfg = Some boundaries →
  ∃ outs g h',
    (do g0 <- newAggregator delta cfg now0; run g0 calls) h = Some ((outs, g), h') ∧
    store_ok boundaries (aggregator_histValues g) h' ∧
    aggregator_is_delta g = delta ∧
    aggregator_noMinMax g = aggregation.NoMinMax cfg.
Proof.
  intros Hp.
  destruct (newAggregator_spec (N:=N) (attribute_Set:=attribute_Set)
              delta cfg now0 h boundaries Hp)
    as (g0 & h0 & Hnew & Hok0 & _ & _ & Hd0 & _).
  unfold bind. rewrite Hnew.
  destruct (run_ok boundaries calls g0 h0 Hok0) as (outs & g & h' & Hrun & Hok & Hd).
  rewrite Hrun. eexists _, _, _. split; [done|]. split_and!; [done|congruence|].
  rewrite (run_noMinMax boundaries calls g0 h0 outs g h' Hok0 Hrun).
  by eapply newAggregator_noMinMax.
Qed.

(** X12. Every data point of a snapshot is well formed: there is one more
    bucket count than there are bounds, there are as many bounds as
    configured boundaries, the count of the data point is the sum of its
    bucket counts (in uint64 arithmetic), and the window of the data point
    runs from the start time of the aggregator to the time of the
    snapshot. *)
Theorem data_point_shape (delta : bool) (cfg : aggregation.ExplicitBucketHistogram)
    (now0 : Time) (h : heap) (boundaries : list float64)
    (calls : list (call N attribute_Set)) (now : Time) :
  f64s h !! aggregation.Boundaries cfg = Some boundaries →
  ∃ outs g h1 r g' h2,
    (do g0 <- newAggregator delta cfg now0; run g0 calls) h = Some ((outs, g), h1) ∧
    aggregator_Aggregation g now h1 = Some ((r, g'), h2) ∧
    ∀ hist dp, r = Some hist → dp ∈ metricdata.DataPoints hist →
      ∃ cs bs,
        u64s h2 !! metricdata.BucketCounts dp = Some cs ∧
        f64s h2 !! metricdata.Bounds dp = Some bs ∧
        length bs = length boundaries ∧
        length cs = S (length bs) ∧
        metricdata.Count dp = sum_uint64 cs ∧
        metricdata.StartTime dp = aggregator_start g ∧
        metricdata.Time_ dp = now.
Proof.
  intros Hp.
  destruct (constructed_ok delta cfg now0 boundaries calls h Hp)
    as (outs & g & h1 & Hrun & Hok & Hd).
  destruct (aggregator_Aggregation_ok boundaries g now h1 Hok)
    as (r & g' & h2 & Hsnap & _).
  exists outs, g, h1, r, g', h2. split; [done|]. split; [done|].
  intros hist dp -> Hdp.
  destruct (snapshot_full boundaries g now h1 hist g' h2 Hok Hsnap)
    as (_ & _ & _ & _ & q & Hq & Hdps).
  apply list_elem_of_lookup in Hdp as [i Hi].
  destruct (Forall2_lookup_l _ _ _ _ _ Hdps Hi) as ([a b] & Hab & Hrep & cs & Hcs & Hcs2).
  destruct Hrep as (_ & Hst & Htime & Hcount & Hbounds & _). simpl in *.
  apply list_elem_of_lookup_2, elem_of_map_to_list in Hab.
  destruct Hok as (_ & Hvals & _).
  destruct (Hvals a b Hab) as (cs' & Hcs' & Hlen & Hsum).
  assert (cs' = cs) as -> by congruence.
  exists cs, (sort.Float64s boundaries). rewrite Hbounds.
  assert (length (sort.Float64s boundaries) = length boundaries) as Hl.
  { apply Permutation_length, Float64s_Permutation. }
  split_and!; try done; congruence.
Qed.

(** X13. A snapshot is nil exactly when the store holds no data. Otherwise
    it is tagged with the temporality of the aggregator and holds one data
    point for each attribute set of the store: no attribute set occurs
    twice, and an attribute set occurs exactly when it has an
    accumulator. *)
Theorem one_data_point_per_attribute_set (delta : bool)
    (cfg : aggregation.ExplicitBucketHistogram)
    (now0 : Time) (h : heap) (boundaries : list float64)
    (calls : list (call N attribute_Set)) (now : Time) :
  f64s h !! aggregation.Boundaries cfg = Some boundaries →
  ∃ outs g h1 r g' h2,
    (do g0 <- newAggregator delta cfg now0; run g0 calls) h = Some ((outs, g), h1) ∧
    aggregator_Aggregation g now h1 = Some ((r, g'), h2) ∧
    (r = None ↔ aggregate.values (aggregator_histValues g) = ∅) ∧
    ∀ hist, r = Some hist →
      metricdata.Temporality_ hist
        = (if delta then metricdata.DeltaTemporality
           else metricdata.CumulativeTemporality) ∧
      NoDup (metricdata.Attributes <$> metricdata.DataPoints hist) ∧
      length (metricdata.DataPoints hist)
        = size (aggregate.values (aggregator_histValues g)) ∧
      ∀ a, a ∈ metricdata.Attributes <$> metricdata.DataPoints hist ↔
           is_Some (aggregate.values (aggregator_histValues g) !! a).
Proof.
  intros Hp.
  destruct (constructed_ok delta cfg now0 boundaries calls h Hp)
    as (outs & g & h1 & Hrun & Hok & Hd).
  destruct (aggregator_Aggregation_ok boundaries g now h1 Hok)
    as (r & g' & h2 & Hsnap & _).
  exists outs, g, h1, r, g', h2. split; [done|]. split; [done|].
  split.
  { destruct (aggregator_Aggregation_cases boundaries g now h1 r g' h2 Hok Hsnap)
      as [(? & ? & _)|(? & hist & ->)]; [done|]. split; [done|]. by intros ?. }
  intros hist ->.
  destruct (snapshot_full boundaries g now h1 hist g' h2 Hok Hsnap)
    as (Htemp & _ & _ & _ & q & Hq & Hdps).
  assert (metricdata.Attributes <$> metricdata.DataPoints hist
          = (map_to_list (aggregate.values (aggregator_histValues g))).*1) as Hattrs.
  { apply list_eq_Forall2, Forall2_fmap.
    eapply Forall2_impl; [exact Hdps|]. by intros dp ab [(-> & _) _]. }
  rewrite Hattrs. split_and!.
  - by rewrite Htemp, Hd.
  - apply NoDup_fst_map_to_list.
  - rewrite (Forall2_length _ _ _ Hdps). apply length_map_to_list.
  - intros a. rewrite list_elem_of_fmap. split.
    + intros ([a' b] & -> & Hab). apply elem_of_map_to_list in Hab. by exists b.
    + intros [b Hb]. exists (a, b). split; [done|]. by apply elem_of_map_to_list.
Qed.

(** X14. Whether a data point carries extrema is fixed at construction by
    the NoMinMax field of the configuration: when it is set, no data point
    of any snapshot has a minimum or a maximum; when it is not set, every
    data point has both, and they are the [min] and [max] of the
    accumulator of its attribute set. *)
Theorem extrema_follow_NoMinMax (delta : bool)
    (cfg : aggregation.ExplicitBucketHistogram)
    (now0 : Time) (h : heap) (boundaries : list float64)
    (calls : list (call N attribute_Set)) (now : Time) :
  f64s h !! aggregation.Boundaries cfg = Some boundaries →
  ∃ outs g h1 r g' h2,
    (do g0 <- newAggregator delta cfg now0; run g0 calls) h = Some ((outs, g), h1) ∧
    aggregator_Aggregation g now h1 = Some ((r, g'), h2) ∧
    ∀ hist dp, r = Some hist → dp ∈ metricdata.DataPoints hist →
      if aggregation.NoMinMax cfg
      then metricdata.Min dp = None ∧ metricdata.Max dp = None
      else ∃ b, aggregate.values (aggregator_histValues g) !! metricdata.Attributes dp
                  = Some b ∧
                metricdata.Min dp = metricdata.NewExtrema (aggregate.min b) ∧
                metricdata.Max dp = metricdata.NewExtrema (aggregate.max b).
Proof.
  intros Hp.
  destruct (constructed_full delta cfg now0 boundaries calls h Hp)
    as (outs & g & h1 & Hrun & Hok & Hd & Hnmm).
  destruct (aggregator_Aggregation_ok boundaries g now h1 Hok)
    as (r & g' & h2 & Hsnap & _).
  exists outs, g, h1, r, g', h2. split; [done|]. split; [done|].
  intros hist dp -> Hdp.
  destruct (snapshot_full boundaries g now h1 hist g' h2 Hok Hsnap)
    as (_ & _ & _ & _ & q & Hq & Hdps).
  apply list_elem_of_lookup in Hdp as [i Hi].
  destruct (Forall2_lookup_l _ _ _ _ _ Hdps Hi) as ([a b] & Hab & Hrep & _).
  destruct Hrep as (Hattr & _ & _ & _ & _ & _ & Hmin & Hmax). simpl in *.
  apply list_elem_of_lookup_2, elem_of_map_to_list in Hab.
  rewrite Hnmm in Hmin, Hmax.
  destruct (aggregation.NoMinMax cfg); [done|].
  exists b. by rewrite Hattr.
Qed.

End snapshot_shape.

(** Witness of X12: a delta histogram with two attribute sets. *)
Lemma data_point_shape_witness :
  f64s example_heap !! aggregation.Boundaries example_cfg = Some example_boundaries ∧
  ∃ outs (g : aggregator int64 string) h1 r g' h2,
    (do g0 <- newAggregator true example_cfg 0;
     run g0 [CallAggregate 3 "a"%string; CallAggregate 12 "b"%string])
      example_heap = Some ((outs, g), h1) ∧
    aggregator_Aggregation g 5 h1 = Some ((r, g'), h2) ∧
    ∀ hist dp, r = Some hist → dp ∈ metricdata.DataPoints hist →
      ∃ cs bs,
        u64s h2 !! metricdata.BucketCounts dp = Some cs ∧
        f64s h2 !! metricdata.Bounds dp = Some bs ∧
        length bs = length example_boundaries ∧
        length cs = S (length bs) ∧
        metricdata.Count dp = sum_uint64 cs ∧
        metricdata.StartTime dp = aggregator_start g ∧
        metricdata.Time_ dp = 5.
Proof.
  split; [reflexivity|].
  apply (data_point_shape (N:=int64) (attribute_Set:=string)
           true example_cfg 0 example_heap example_boundaries).
  reflexivity.
Defined.

(** Witness of X13: a cumulative histogram with three measurements for two
    attribute sets. *)
Lemma one_data_point_per_attribute_set_witness :
  f64s example_heap !! aggregation.Boundaries example_cfg = Some example_boundaries ∧
  ∃ outs (g : aggregator int64 string) h1 r g' h2,
    (do g0 <- newAggregator false example_cfg 0;
     run g0 [CallAggregate 3 "a"%string; CallAggregate 12 "b"%string;
             CallAggregate 4 "a"%string])
      example_heap = Some ((outs, g), h1) ∧
    aggregator_Aggregation g 5 h1 = Some ((r, g'), h2) ∧
    (r = None ↔ aggregate.values (aggregator_histValues g) = ∅) ∧
    ∀ hist, r = Some hist →
      metricdata.Temporality_ hist = metricdata.CumulativeTemporality ∧
      NoDup (metricdata.Attributes <$> metricdata.DataPoints hist) ∧
      length (metricdata.DataPoints hist)
        = size (aggregate.values (aggregator_histValues g)) ∧
      ∀ a, a ∈ metricdata.Attributes <$> metricdata.DataPoints hist ↔
           is_Some (aggregate.values (aggregator_histValues g) !! a).
Proof.
  split; [reflexivity|].
  apply (one_data_point_per_attribute_set (N:=int64) (attribute_Set:=string)
           false example_cfg 0 example_heap example_boundaries).
  reflexivity.
Defined.

(** Witness of X14: a delta histogram with two measurements. *)
Lemma extrema_follow_NoMinMax_witness :
  f64s example_heap !! aggregation.Boundaries example_cfg = Some example_boundaries ∧
  ∃ outs (g : aggregator int64 string) h1 r g' h2,
    (do g0 <- newAggregator true example_cfg 0;
     run g0 [CallAggregate 3 "a"%string; CallAggregate 12 "a"%string])
      example_heap = Some ((outs, g), h1) ∧
    aggregator_Aggregation g 5 h1 = Some ((r, g'), h2) ∧
    ∀ hist dp, r = Some hist → dp ∈ metricdata.DataPoints hist →
      if aggregation.NoMinMax example_cfg
      then metricdata.Min dp = None ∧ metricdata.Max dp = None
      else ∃ b, aggregate.values (aggregator_histValues g) !! metricdata.Attributes dp
                  = Some b ∧
                metricdata.Min dp = metricdata.NewExtrema (aggregate.min b) ∧
                metricdata.Max dp = metricdata.NewExtrema (aggregate.max b).
Proof.
  split; [reflexivity|].
  apply (extrema_follow_NoMinMax (N:=int64) (attribute_Set:=string)
           true example_cfg 0 example_heap example_boundaries).
  reflexivity.
Defined.

(** ** What an aggregator has accumulated *)

Lemma uint64_incr_of_nat (n : nat) :
  uint64_incr (Z.of_nat n mod 2 ^ 64) = Z.of_nat (S n) mod 2 ^ 64.
Proof.
  unfold uint64_incr. by rewrite Nat2Z.inj_succ, Zplus_mod_idemp_l.
Qed.

Section accumulation.
Context {N : Type} `{Number N}.
Context {attribute_Set : Type} `{Countable attribute_Set}.

Implicit Types (g : aggregator N attribute_Set) (h : heap) (now : Time).
Implicit Types (s : aggregate.histValues N attribute_Set) (v : N) (a : attribute_Set).
Implicit Types (W : attribute_Set → list N).

Lemma tally_nil (boundaries : list float64) (k : nat) :
  tally (N:=N) boundaries [] k = 0.
Proof. done. Qed.

Lemma tally_snoc (boundaries : list float64) (vs : list N) v (k : nat) :
  tally boundaries (vs ++ [v]) k =
  if decide (bucket_of boundaries v = k) then uint64_incr (tally boundaries vs k)
  else tally boundaries vs k.
Proof.
  unfold tally. rewrite filter_app, length_app.
  case_decide as Hk.
  - rewrite filter_cons_True, filter_nil by done. simpl.
    rewrite Nat.add_1_r. by rewrite uint64_incr_of_nat.
  - rewrite filter_cons_False, filter_nil by done. simpl. by rewrite Nat.add_0_r.
Qed.

(** [Aggregate] appends its value to what the accumulator of its attribute
    set summarises. *)
Lemma Aggregate_summarises (boundaries : list float64) s h v a s' h' W :
  store_ok boundaries s h →
  (∀ a', summarises boundaries h (W a') (aggregate.values s !! a')) →
  aggregate.Aggregate s v a h = Some (s', h') →
  ∀ a', summarises boundaries h' (if decide (a = a') then W a' ++ [v] else W a')
          (aggregate.values s' !! a').
Proof.
  intros Hok HW Hagg a'. assert (Hok' := Hok). destruct Hok' as (Hbs & Hvals & Hinj).
  pose proof (count_not_ge_le boundaries (toFloat64 v)) as Hk0.
  pose proof (HW a) as Ha. pose proof (HW a') as Ha'.
  destruct (aggregate.values s !! a) as [b|] eqn:Hb.
  - destruct (Hvals a b Hb) as (cs & Hcs & Hlen & Hcount).
    destruct (Aggregate_existing boundaries s h v a b cs Hok Hb Hcs) as (c & Hc & Heq).
    rewrite Heq in Hagg. injection Hagg as <- <-. cbn [aggregate.values].
    destruct Ha as (Hne & Hcnt & Hsum & cs0 & Hcs0 & Hlen0 & Htal).
    assert (cs0 = cs) as -> by congruence.
    case_decide as Haa.
    + subst a'. rewrite lookup_insert_eq. cbn [summarises binned aggregate.count
        aggregate.sum aggregate.counts u64s]. split_and!.
      * by intros [_ ?]%app_eq_nil.
      * rewrite Hcnt, length_app. simpl. rewrite Nat.add_1_r. apply uint64_incr_of_nat.
      * by rewrite Hsum, foldl_app.
      * eexists. rewrite lookup_insert_eq. split; [done|].
        split; [by rewrite length_insert|].
        intros k Hk. rewrite tally_snoc. unfold bucket_of.
        rewrite SearchFloat64s_Float64s. case_decide as Hkk.
        -- subst k. rewrite list_lookup_insert_eq by lia.
           rewrite (Htal _ Hk) in Hc. by injection Hc as <-.
        -- rewrite list_lookup_insert_ne by done. by apply Htal.
    + rewrite lookup_insert_ne by done.
      destruct (aggregate.values s !! a') as [b'|] eqn:Hb'; [|done].
      destruct Ha' as (? & ? & ? & cs' & Hcs' & ? & ?).
      cbn [summarises u64s]. split_and!; try done.
      exists cs'. rewrite lookup_insert_ne; [done|].
      intros Heq'. apply Haa. by apply (Hinj a a' b b').
  - rewrite (Aggregate_new boundaries s h v a Hok Hb) in Hagg.
    injection Hagg as <- <-. cbn [aggregate.values]. cbn [summarises] in Ha.
    case_decide as Haa.
    + subst a'. rewrite lookup_insert_eq, Ha.
      cbn [summarises aggregate.count aggregate.sum aggregate.counts u64s app].
      split_and!; [done|done|done|].
      eexists. rewrite lookup_insert_eq. split; [done|].
      split; [by rewrite length_insert, length_cons, length_replicate|].
      intros k Hk. change [v] with ([] ++ [v]).
      rewrite tally_snoc, tally_nil. unfold bucket_of.
      rewrite SearchFloat64s_Float64s. case_decide as Hkk.
      * subst k.
        by rewrite list_lookup_insert_eq by (rewrite length_cons, length_replicate; lia).
      * rewrite list_lookup_insert_ne by done.
        apply (lookup_replicate_2 (S (length boundaries))). lia.
    + rewrite lookup_insert_ne by done.
      destruct (aggregate.values s !! a') as [b'|] eqn:Hb'; [|done].
      destruct Ha' as (? & ? & ? & cs' & Hcs' & ? & ?).
      cbn [summarises u64s]. split_and!; try done.
      exists cs'. rewrite lookup_insert_ne; [done|].
      intros Heq'. by rewrite <- Heq', fresh_u64s in Hcs'.
Qed.

(** A snapshot of a delta histogram leaves no accumulator; a snapshot of a
    cumulative histogram leaves every accumulator as it is. *)
Lemma aggregator_Aggregation_summarises (boundaries : list float64) g now h r g' h' W :
  store_ok boundaries (aggregator_histValues g) h →
  (∀ a, summarises boundaries h (W a) (aggregate.values (aggregator_histValues g) !! a)) →
  aggregator_Aggregation g now h = Some ((r, g'), h') →
  ∀ a, summarises boundaries h' (if aggregator_is_delta g then [] else W a)
         (aggregate.values (aggregator_histValues g') !! a).
Proof.
  intros Hok HW Hsnap a. pose proof (HW a) as Ha.
  destruct (aggregator_Aggregation_cases boundaries g now h r g' h' Hok Hsnap)
    as [(Hempty & _ & -> & ->)|(Hne & hist & ->)].
  - destruct (aggregator_is_delta g); [|done].
    rewrite Hempty, lookup_empty in Ha |- *. done.
  - destruct (snapshot_full boundaries g now h hist g' h' Hok Hsnap)
      as (_ & _ & _ & Hold & _).
    destruct (aggregator_Aggregation_reports boundaries g now h Hok Hne)
      as (hist' & g1 & h1 & q & nmm & Heq & _ & Hg1).
    rewrite Heq in Hsnap. injection Hsnap as <- <- <-.
    destruct (aggregator_is_delta g).
    + destruct Hg1 as [-> _]. by rewrite lookup_empty.
    + subst g1.
      destruct (aggregate.values (aggregator_histValues g) !! a) as [b|]; [|done].
      destruct Ha as (? & ? & ? & cs & Hcs & ? & ?).
      cbn [summarises]. split_and!; try done.
      exists cs. rewrite Hold; [done|by eexists].
Qed.

(** After any sequence of calls, every accumulator summarises the values
    that the calls left recorded for its attribute set. *)
Lemma run_summarises (boundaries : list float64)
    (calls : list (call N attribute_Set)) g h outs g' h' W :
  store_ok boundaries (aggregator_histValues g) h →
  (∀ a, summarises boundaries h (W a) (aggregate.values (aggregator_histValues g) !! a)) →
  run g calls h = Some ((outs, g'), h') →
  ∀ a, summarises boundaries h' (observed (aggregator_is_delta g) a calls (W a))
         (aggregate.values (aggregator_histValues g') !! a).
Proof.
  revert g h outs W. induction calls as [|[v a0|now] calls IH];
    intros g h outs W Hok HW Hrun; simpl in Hrun.
  - injection Hrun as <- <- <-. apply HW.
  - destruct (aggregator_Aggregate_ok boundaries g v a0 h Hok)
      as (g1 & h1 & Hagg & Hagg' & Hok1 & _ & Hd1).
    unfold bind in Hrun. rewrite Hagg in Hrun.
    intros a. cbn [observed]. rewrite <- Hd1.
    refine (IH g1 h1 outs (fun a' => if decide (a0 = a') then W a' ++ [v] else W a')
              Hok1 _ Hrun a).
    exact (Aggregate_summarises boundaries (aggregator_histValues g) h v a0
             (aggregator_histValues g1) h1 W Hok HW Hagg').
  - destruct (aggregator_Aggregation_ok boundaries g now h Hok)
      as (r & g1 & h1 & Hagg & Hok1 & Hd1).
    unfold bind in Hrun. rewrite Hagg in Hrun. simpl in Hrun.
    destruct (run g1 calls h1) as [[[outs1 g2] h2]|] eqn:Hrun1; [|done].
    simpl in Hrun. injection Hrun as <- <- <-.
    intros a. cbn [observed]. rewrite <- Hd1.
    refine (IH g1 h1 outs1 (fun a' => if aggregator_is_delta g1 then [] else W a')
              Hok1 _ Hrun1 a).
    rewrite Hd1.
    exact (aggregator_Aggregation_summarises boundaries g now h r g1 h1 W Hok HW Hagg).
Qed.

(** X15. After any sequence of calls on a new histogram aggregator, there
    is an accumulator for an attribute set exactly when the calls left
    values recorded for it (the values aggregated for it, for a delta
    histogram since the last snapshot); the count of the accumulator is
    the number of these values modulo 2^64, its sum is their sum in the
    order of recording, starting from zero, and bucket [k] of its counts
    is the number of these values with index [k], modulo 2^64. *)
Theorem accumulators_summarise_history (delta : bool)
    (cfg : aggregation.ExplicitBucketHistogram) (now0 : Time) (h : heap)
    (boundaries : list float64) (calls : list (call N attribute_Set)) :
  f64s h !! aggregation.Boundaries cfg = Some boundaries →
  ∃ outs g h',
    (do g0 <- newAggregator delta cfg now0; run g0 calls) h = Some ((outs, g), h') ∧
    ∀ a, summarises boundaries h' (observed delta a calls [])
           (aggregate.values (aggregator_histValues g) !! a).
Proof.
  intros Hp.
  destruct (newAggregator_spec (N:=N) (attribute_Set:=attribute_Set)
              delta cfg now0 h boundaries Hp)
    as (g0 & h0 & Hnew & Hok0 & Hempty & _ & Hd0 & _).
  unfold bind. rewrite Hnew.
  destruct (run_ok boundaries calls g0 h0 Hok0) as (outs & g & h' & Hrun & _).
  rewrite Hrun. exists outs, g, h'. split; [done|].
  intros a. rewrite <- Hd0.
  refine (run_summarises boundaries calls g0 h0 outs g h' (fun _ => []) Hok0 _ Hrun a).
  intros a'. by rewrite Hempty, lookup_empty.
Qed.

(** X16. A snapshot reports what was recorded: after any sequence of calls
    on a new histogram aggregator, the snapshot is nil exactly when the
    calls left no value recorded for any attribute set; otherwise it has a
    data point for every attribute set with recorded values and for no
    other, and the count, the sum and the bucket counts of the data point
    are the number, the sum and the tally of these values. *)
Theorem snapshot_reports_history (delta : bool)
    (cfg : aggregation.ExplicitBucketHistogram) (now0 : Time) (h : heap)
    (boundaries : list float64) (calls : list (call N attribute_Set)) (now : Time) :
  f64s h !! aggregation.Boundaries cfg = Some boundaries →
  ∃ outs g h1 r g' h2,
    (do g0 <- newAggregator delta cfg now0; run g0 calls) h = Some ((outs, g), h1) ∧
    aggregator_Aggregation g now h1 = Some ((r, g'), h2) ∧
    (r = None ↔ ∀ a, observed delta a calls [] = []) ∧
    ∀ hist, r = Some hist →
      (∀ a, observed delta a calls [] ≠ [] →
            ∃ dp, dp ∈ metricdata.DataPoints hist ∧ metricdata.Attributes dp = a) ∧
      ∀ dp, dp ∈ metricdata.DataPoints hist →
        observed delta (metricdata.Attributes dp) calls [] ≠ [] ∧
        metricdata.Count dp
          = Z.of_nat (length (observed delta (metricdata.Attributes dp) calls []))
            mod 2 ^ 64 ∧
        metricdata.Sum dp
          = foldl add zero (observed delta (metricdata.Attributes dp) calls []) ∧
        ∃ cs, u64s h2 !! metricdata.BucketCounts dp = Some cs ∧
              length cs = S (length boundaries) ∧
              ∀ k, (k ≤ length boundaries)%nat →
                   cs !! k = Some (tally boundaries
                                     (observed delta (metricdata.Attributes dp) calls [])
                                     k).
Proof.
  intros Hp.
  destruct (newAggregator_spec (N:=N) (attribute_Set:=attribute_Set)
              delta cfg now0 h boundaries Hp)
    as (g0 & h0 & Hnew & Hok0 & Hempty & _ & Hd0 & _).
  unfold bind. rewrite Hnew.
  destruct (run_ok boundaries calls g0 h0 Hok0) as (outs & g & h1 & Hrun & Hok & _).
  rewrite Hrun.
  assert (∀ a, summarises boundaries h1 (observed delta a calls [])
                 (aggregate.values (aggregator_histValues g) !! a)) as Hsum.
  { intros a. rewrite <- Hd0.
    refine (run_summarises boundaries calls g0 h0 outs g h1 (fun _ => []) Hok0 _ Hrun a).
    intros a'. by rewrite Hempty, lookup_empty. }
  destruct (aggregator_Aggregation_ok boundaries g now h1 Hok)
    as (r & g' & h2 & Hsnap & _).
  exists outs, g, h1, r, g', h2. split; [done|]. split; [done|].
  split.
  { destruct (aggregator_Aggregation_cases boundaries g now h1 r g' h2 Hok Hsnap)
      as [(Hnone & -> & _)|(Hne & hist & ->)].
    - split; [|done]. intros _ a. specialize (Hsum a).
      by rewrite Hnone, lookup_empty in Hsum.
    - split; [done|]. intros Hall. destruct Hne. apply map_empty. intros a.
      specialize (Hsum a). rewrite Hall in Hsum.
      destruct (aggregate.values (aggregator_histValues g) !! a); [|done].
      by destruct Hsum as [? _]. }
  intros hist ->.
  destruct (snapshot_full boundaries g now h1 hist g' h2 Hok Hsnap)
    as (_ & _ & _ & _ & q & _ & Hdps).
  split.
  - intros a Ha. specialize (Hsum a).
    destruct (aggregate.values (aggregator_histValues g) !! a) as [b|] eqn:Hb; [|done].
    apply elem_of_map_to_list, list_elem_of_lookup in Hb as [i Hi].
    destruct (Forall2_lookup_r _ _ _ _ _ Hdps Hi) as (dp & Hdp & (Hattr & _) & _).
    exists dp. split; [by eapply list_elem_of_lookup_2|done].
  - intros dp Hdp. apply list_elem_of_lookup in Hdp as [i Hi].
    destruct (Forall2_lookup_l _ _ _ _ _ Hdps Hi) as ([a b] & Hab & Hrep & cs & Hcs & Hcs2).
    destruct Hrep as (Hattr & _ & _ & Hcount & _ & Hs & _). simpl in *.
    apply list_elem_of_lookup_2, elem_of_map_to_list in Hab.
    specialize (Hsum a). rewrite Hab in Hsum.
    destruct Hsum as (Hne & Hcnt & Hsm & cs' & Hcs' & Hlen & Htal).
    assert (cs' = cs) as -> by congruence.
    rewrite Hattr, Hcount, Hs. split_and!; try done. by exists cs.
Qed.

(** The windows that a delta histogram reports are chained. *)
Lemma run_chained (boundaries : list float64)
    (calls : list (call N attribute_Set)) g h outs g' h' :
  store_ok boundaries (aggregator_histValues g) h →
  aggregator_is_delta g = true →
  run g calls h = Some ((outs, g'), h') →
  chained (aggregator_start g) (omap id outs).
Proof.
  revert g h outs. induction calls as [|[v a|now] calls IH];
    intros g h outs Hok Hdelta Hrun; simpl in Hrun.
  - by injection Hrun as <- <- <-.
  - destruct (aggregator_Aggregate_ok boundaries g v a h Hok)
      as (g1 & h1 & Hagg & _ & Hok1 & Hstart1 & Hd1).
    unfold bind in Hrun. rewrite Hagg in Hrun. rewrite <- Hstart1.
    apply (IH g1 h1 outs); [done|congruence|done].
  - destruct (aggregator_Aggregation_ok boundaries g now h Hok)
      as (r & g1 & h1 & Hagg & Hok1 & Hd1).
    unfold bind in Hrun. rewrite Hagg in Hrun. simpl in Hrun.
    destruct (run g1 calls h1) as [[[outs1 g2] h2]|] eqn:Hrun1; [|done].
    simpl in Hrun. injection Hrun as <- <- <-.
    destruct (aggregator_Aggregation_cases boundaries g now h r g1 h1 Hok Hagg)
      as [(_ & -> & -> & ->)|(Hne & hist & ->)].
    + cbn [omap]. simpl. by apply (IH g h outs1).
    + destruct (snapshot_full boundaries g now h hist g1 h1 Hok Hagg)
        as (_ & _ & Hstart & _ & q & _ & Hdps).
      rewrite Hdelta in Hstart.
      assert (Forall (fun dp => metricdata.StartTime dp = aggregator_start g ∧
                                metricdata.Time_ dp = now)
                     (metricdata.DataPoints hist)) as Hall.
      { apply Forall_forall. intros dp Hdp. apply list_elem_of_lookup in Hdp as [i Hi].
        destruct (Forall2_lookup_l _ _ _ _ _ Hdps Hi) as (ab & _ & Hrep & _).
        by destruct Hrep as (_ & ? & ? & _). }
      cbn [omap]. simpl. cbn [chained].
      destruct (metricdata.DataPoints hist) as [|dp dps] eqn:Hhist.
      * apply Forall2_nil_inv_l in Hdps. apply map_to_list_empty_iff in Hdps. done.
      * apply Forall_cons in Hall as Hall'. destruct Hall' as [[_ Htime] _].
        rewrite Htime. split; [done|]. rewrite <- Hstart.
        apply (IH g1 h1 outs1); [done|congruence|done].
Qed.

(** X17. The windows that a delta histogram reports tile the time line:
    in the sequence of its snapshots that are not nil, every snapshot has
    data points, all with the same window; the window of the first
    snapshot starts when the histogram was constructed, and the window of
    every later snapshot starts at the time of the snapshot before it. *)
Theorem delta_windows_are_chained
    (cfg : aggregation.ExplicitBucketHistogram) (now0 : Time) (h : heap)
    (boundaries : list float64) (calls : list (call N attribute_Set)) :
  f64s h !! aggregation.Boundaries cfg = Some boundaries →
  ∃ outs g h',
    (do g0 <- newAggregator true cfg now0; run g0 calls) h = Some ((outs, g), h') ∧
    chained now0 (omap id outs).
Proof.
  intros Hp.
  destruct (newAggregator_spec (N:=N) (attribute_Set:=attribute_Set)
              true cfg now0 h boundaries Hp)
    as (g0 & h0 & Hnew & Hok0 & _ & Hstart0 & Hd0 & _).
  unfold bind. rewrite Hnew.
  destruct (run_ok boundaries calls g0 h0 Hok0) as (outs & g & h' & Hrun & _).
  rewrite Hrun. exists outs, g, h'. split; [done|].
  rewrite <- Hstart0. by apply (run_chained boundaries calls g0 h0 outs g h').
Qed.

End accumulation.

(** Witness of X15: a delta histogram with a snapshot between the
    measurements. *)
Lemma accumulators_summarise_history_witness :
  f64s example_heap !! aggregation.Boundaries example_cfg = Some example_boundaries ∧
  ∃ outs (g : aggregator int64 string) h',
    (do g0 <- newAggregator true example_cfg 0;
     run g0 [CallAggregate 3 "a"%string; CallAggregation 1;
             CallAggregate 12 "b"%string; CallAggregate 4 "b"%string])
      example_heap = Some ((outs, g), h') ∧
    ∀ a, summarises example_boundaries h'
           (observed true a [CallAggregate 3 "a"%string; CallAggregation 1;
                             CallAggregate 12 "b"%string; CallAggregate 4 "b"%string] [])
           (aggregate.values (aggregator_histValues g) !! a).
Proof.
  split; [reflexivity|].
  apply (accumulators_summarise_history (N:=int64) (attribute_Set:=string)
           true example_cfg 0 example_heap example_boundaries).
  reflexivity.
Defined.

(** Witness of X16: a cumulative histogram with a snapshot between two
    measurements. *)
Lemma snapshot_reports_history_witness :
  f64s example_heap !! aggregation.Boundaries example_cfg = Some example_boundaries ∧
  ∃ outs (g : aggregator int64 string) h1 r g' h2,
    (do g0 <- newAggregator false example_cfg 0;
     run g0 [CallAggregate 3 "a"%string; CallAggregation 1; CallAggregate 12 "a"%string])
      example_heap = Some ((outs, g), h1) ∧
    aggregator_Aggregation g 2 h1 = Some ((r, g'), h2) ∧
    (r = None ↔
     ∀ a, observed false a [CallAggregate 3 "a"%string; CallAggregation 1;
                            CallAggregate 12 "a"%string] [] = []) ∧
    ∀ hist, r = Some hist →
      (∀ a, observed false a [CallAggregate 3 "a"%string; CallAggregation 1;
                              CallAggregate 12 "a"%string] [] ≠ [] →
            ∃ dp, dp ∈ metricdata.DataPoints hist ∧ metricdata.Attributes dp = a) ∧
      ∀ dp, dp ∈ metricdata.DataPoints hist →
        observed false (metricdata.Attributes dp)
          [CallAggregate 3 "a"%string; CallAggregation 1; CallAggregate 12 "a"%string] []
          ≠ [] ∧
        metricdata.Count dp
          = Z.of_nat (length (observed false (metricdata.Attributes dp)
                                [CallAggregate 3 "a"%string; CallAggregation 1;
                                 CallAggregate 12 "a"%string] []))
            mod 2 ^ 64 ∧
        metricdata.Sum dp
          = foldl add zero (observed false (metricdata.Attributes dp)
                              [CallAggregate 3 "a"%string; CallAggregation 1;
                               CallAggregate 12 "a"%string] []) ∧
        ∃ cs, u64s h2 !! metricdata.BucketCounts dp = Some cs ∧
              length cs = S (length example_boundaries) ∧
              ∀ k, (k ≤ length example_boundaries)%nat →
                   cs !! k = Some (tally example_boundaries
                                     (observed false (metricdata.Attributes dp)
                                        [CallAggregate 3 "a"%string; CallAggregation 1;
                                         CallAggregate 12 "a"%string] [])
                                     k).
Proof.
  split; [reflexivity|].
  apply (snapshot_reports_history (N:=int64) (attribute_Set:=string)
           false example_cfg 0 example_heap example_boundaries).
  reflexivity.
Defined.

(** Witness of X17: three snapshots of a delta histogram, the second one
    nil. *)
Lemma delta_windows_are_chained_witness :
  f64s example_heap !! aggregation.Boundaries example_cfg = Some example_boundaries ∧
  ∃ outs (g : aggregator int64 string) h',
    (do g0 <- newAggregator true example_cfg 0;
     run g0 [CallAggregate 3 "a"%string; CallAggregation 1; CallAggregation 2;
             CallAggregate 12 "b"%string; CallAggregation 3])
      example_heap = Some ((outs, g), h') ∧
    chained 0 (omap id outs).
Proof.
  split; [reflexivity|].
  apply (delta_windows_are_chained (N:=int64) (attribute_Set:=string)
           example_cfg 0 example_heap example_boundaries).
  reflexivity.
Defined.
